(** * cortex.dataset.dataset: the Dataset container, its archive and its accessors

    A shallow embedding of [cortex/dataset/dataset.py].  Python objects that
    the module mutates (Dataset instances, the open archive, [db.auxfile],
    the console) live in an explicit [world]; every method is a function
    from a world to a result and a new world, and an exception leaves the
    mutations made before it in place. *)

From Stdlib Require Import String Ascii ZArith Arith Bool Lia List.
From Stdlib Require Import Sorting.Sorted Sorting.Permutation.
Import ListNotations.
Open Scope string_scope.
Open Scope list_scope.

Set Implicit Arguments.
Set Warnings "-register-all,-uniform-inheritance".

(** ** Exceptions and results *)

(** The exception classes that this module raises, catches or lets through.
    [OtherError cls msg] stands for any other class a collaborator raises. *)
Inductive exn : Type :=
| KeyError (key : string)
| NameError (name : string)
| TypeError (msg : string)
| ValueError (msg : string)
| IOError (msg : string)
| AttributeError (msg : string)
| IndexError (msg : string)
| RecursionError
| OtherError (cls msg : string).

Inductive result (A : Type) : Type :=
| Ok (a : A)
| Raise (e : exn).
Arguments Ok {A} a.
Arguments Raise {A} e.

Definition is_KeyError (e : exn) : bool :=
  match e with KeyError _ => true | _ => false end.

(** [except (KeyError, TypeError)] of the read accessors. *)
Definition is_KeyError_or_TypeError (e : exn) : bool :=
  match e with KeyError _ | TypeError _ => true | _ => false end.

(** The text of an exception, as [str(e)] shows it. *)
Definition exn_message (e : exn) : string :=
  match e with
  | KeyError s | NameError s | TypeError s | ValueError s | IOError s
  | AttributeError s | IndexError s => s
  | RecursionError => "maximum recursion depth exceeded"
  | OtherError _ s => s
  end.

Definition rbind {A B} (r : result A) (k : A -> result B) : result B :=
  match r with Ok a => k a | Raise e => Raise e end.

(** ** Python dictionaries and sets

    A [dict] keeps its keys in insertion order and holds each key once;
    assigning to an existing key replaces the value where it stands. *)
Section Dict.
Variable V : Type.

Fixpoint dict_get (k : string) (d : list (string * V)) : option V :=
  match d with
  | [] => None
  | (k', v) :: d' => if String.eqb k k' then Some v else dict_get k d'
  end.

Fixpoint dict_set (k : string) (v : V) (d : list (string * V))
  : list (string * V) :=
  match d with
  | [] => [(k, v)]
  | (k', v') :: d' =>
      if String.eqb k k' then (k', v) :: d' else (k', v') :: dict_set k v d'
  end.

(** [d.update(e)]: the entries of [e], in their order, assigned into [d]. *)
Definition dict_update (d e : list (string * V)) : list (string * V) :=
  fold_left (fun acc kv => dict_set (fst kv) (snd kv) acc) e d.

(** The members of an HDF5 group are listed by name, not in the order in
    which they were made: a new member takes its place in the order of the
    names, and an existing one is replaced where it stands. *)
Fixpoint insert_by_name (k : string) (v : V) (d : list (string * V))
  : list (string * V) :=
  match d with
  | [] => [(k, v)]
  | (k', v') :: d' =>
      if String.ltb k k' then (k, v) :: (k', v') :: d'
      else (k', v') :: insert_by_name k v d'
  end.

Definition group_set (k : string) (v : V) (d : list (string * V))
  : list (string * V) :=
  match dict_get k d with
  | Some _ => dict_set k v d
  | None => insert_by_name k v d
  end.

Definition dict_keys (d : list (string * V)) : list string := map fst d.
Definition dict_values (d : list (string * V)) : list V := map snd d.
End Dict.

Section PySet.
Variable A : Type.
Variable eqb : A -> A -> bool.

Definition set_mem (x : A) (s : list A) : bool := existsb (eqb x) s.

(** [s.add(x)]. *)
Definition set_add (x : A) (s : list A) : list A :=
  if set_mem x s then s else s ++ [x].
End PySet.

Definition pair_eqb (a b : string * string) : bool :=
  String.eqb (fst a) (fst b) && String.eqb (snd a) (snd b).

Definition triple_eqb (a b : string * string * string) : bool :=
  pair_eqb (fst a) (fst b) && String.eqb (snd a) (snd b).

(** ** numpy arrays

    The numeric arrays of a package are two-dimensional: [ncols] columns
    and one list per row.  The scalars and their arithmetic are numpy's and
    stay abstract.  A text dataset is read as an array of strings; such
    arrays, and what numpy makes of them in the arithmetic of this module,
    stay abstract as well. *)
Record ndarray (num : Type) : Type := mkArr {
  ncols : nat;
  rows : list (list num)
}.
Arguments mkArr {num} ncols rows.

(** What [.value] of a dataset is: a numeric array, or an array of another
    kind. *)
Inductive array (num obj : Type) : Type :=
| Num (a : ndarray num)
| Obj (o : obj).
Arguments Num {num obj} a.
Arguments Obj {num obj} o.

Class Numeric (num : Type) : Type := {
  nadd : num -> num -> num;
  nsub : num -> num -> num;
  nhalf : num -> num;            (* x / 2 *)
  nmax : num -> num -> num;
  nmin : num -> num -> num;
  nof_nat : nat -> num;          (* a Python int met by an array *)
  (* the arrays that are not numeric *)
  objarray : Type;
  text_array : list string -> objarray;    (* .value of a text dataset *)
  (* a[:,0] -= a[:,0].max(), or .min() *)
  obj_nudge : bool -> objarray -> result (array num objarray);
  (* a + b, where a or b is not numeric *)
  obj_add : array num objarray -> array num objarray
            -> result (array num objarray);
  obj_half : objarray -> result (array num objarray);         (* a / 2 *)
  (* np.vstack([a, b]), where a or b is not numeric *)
  obj_vstack : array num objarray -> array num objarray
               -> result (array num objarray);
  obj_len : objarray -> result nat;                            (* len(a) *)
  obj_add_int : objarray -> nat -> result (array num objarray) (* a + n *)
}.

Section Numpy.
Context {num : Type} `{Numeric num}.

Definition array_len (a : ndarray num) : nat := length (rows a).

(** Every row has [ncols] entries. *)
Definition wf_array (a : ndarray num) : Prop :=
  Forall (fun r => length r = ncols a) (rows a).

Definition same_shape (a b : ndarray num) : Prop :=
  ncols a = ncols b /\ array_len a = array_len b.

Fixpoint zip_with {A B C} (f : A -> B -> C) (xs : list A) (ys : list B)
  : list C :=
  match xs, ys with
  | x :: xs', y :: ys' => f x y :: zip_with f xs' ys'
  | _, _ => []
  end.

(** Broadcasting along one axis: equal lengths pair up, a length of one
    is stretched, anything else does not broadcast. *)
Definition broadcast {A B C} (f : A -> B -> C) (xs : list A) (ys : list B)
  : option (list C) :=
  if Nat.eqb (length xs) (length ys) then Some (zip_with f xs ys)
  else match xs, ys with
       | [x], _ => Some (map (f x) ys)
       | _, [y] => Some (map (fun x => f x y) xs)
       | _, _ => None
       end.

Definition broadcast_dim (m n : nat) : option nat :=
  if Nat.eqb m n then Some m
  else if Nat.eqb m 1 then Some n
  else if Nat.eqb n 1 then Some m
  else None.

Fixpoint sequence_opt {A} (l : list (option A)) : option (list A) :=
  match l with
  | [] => Some []
  | None :: _ => None
  | Some x :: l' =>
      match sequence_opt l' with
      | Some xs => Some (x :: xs)
      | None => None
      end
  end.

Definition broadcast_error : exn :=
  ValueError "operands could not be broadcast together".

(** [a + b]. *)
Definition np_add (a b : ndarray num) : result (ndarray num) :=
  match broadcast_dim (ncols a) (ncols b) with
  | None => Raise broadcast_error
  | Some k =>
      match broadcast (broadcast nadd) (rows a) (rows b) with
      | None => Raise broadcast_error
      | Some rs =>
          match sequence_opt rs with
          | Some rs' => Ok (mkArr k rs')
          | None => Raise broadcast_error
          end
      end
  end.

(** [a / 2]. *)
Definition np_half (a : ndarray num) : ndarray num :=
  mkArr (ncols a) (map (map nhalf) (rows a)).

(** [a + n] for a Python int [n]. *)
Definition np_add_int (a : ndarray num) (n : nat) : ndarray num :=
  mkArr (ncols a) (map (map (fun x => nadd x (nof_nat n))) (rows a)).

(** [np.vstack([a, b])]. *)
Definition np_vstack (a b : ndarray num) : result (ndarray num) :=
  if Nat.eqb (ncols a) (ncols b)
  then Ok (mkArr (ncols a) (rows a ++ rows b))
  else Raise (ValueError "all the input array dimensions except for the concatenation axis must match exactly").

Definition heads (rs : list (list num)) : list num :=
  flat_map (fun r => match r with x :: _ => [x] | [] => [] end) rs.

Definition sub_head (m : num) (r : list num) : list num :=
  match r with x :: r' => nsub x m :: r' | [] => [] end.

(** [pts[:,0] -= pts[:,0].max()] (or [.min()]): [pick] folds the column. *)
Definition nudge_column (pick : num -> num -> num) (a : ndarray num)
  : result (ndarray num) :=
  if Nat.eqb (ncols a) 0
  then Raise (IndexError "index 0 is out of bounds for axis 1 with size 0")
  else match heads (rows a) with
       | [] => Raise (ValueError "zero-size array to reduction operation")
       | x :: xs =>
           Ok (mkArr (ncols a) (map (sub_head (fold_left pick xs x)) (rows a)))
       end.

(** The average of two arrays of one shape, entry by entry: what the
    specification calls the elementwise average. *)
Definition elementwise_average (a b : ndarray num) : ndarray num :=
  mkArr (ncols a)
    (zip_with (zip_with (fun x y => nhalf (nadd x y))) (rows a) (rows b)).

(** The same operations on whatever a dataset holds: numpy's arithmetic on
    numeric arrays, and what it makes of the others. *)
Definition arr_add (a b : array num objarray) : result (array num objarray) :=
  match a, b with
  | Num x, Num y => rbind (np_add x y) (fun s => Ok (Num s))
  | _, _ => obj_add a b
  end.

Definition arr_half (a : array num objarray) : result (array num objarray) :=
  match a with
  | Num x => Ok (Num (np_half x))
  | Obj o => obj_half o
  end.

Definition arr_vstack (a b : array num objarray)
  : result (array num objarray) :=
  match a, b with
  | Num x, Num y => rbind (np_vstack x y) (fun s => Ok (Num s))
  | _, _ => obj_vstack a b
  end.

Definition arr_len (a : array num objarray) : result nat :=
  match a with
  | Num x => Ok (array_len x)
  | Obj o => obj_len o
  end.

Definition arr_add_int (a : array num objarray) (n : nat)
  : result (array num objarray) :=
  match a with
  | Num x => Ok (Num (np_add_int x n))
  | Obj o => obj_add_int o n
  end.

(** [pts[:,0] -= pts[:,0].max()] for the left hemisphere, [.min()] for the
    right one. *)
Definition arr_nudge (lh : bool) (a : array num objarray)
  : result (array num objarray) :=
  match a with
  | Num x =>
      rbind (nudge_column (if lh then nmax else nmin) x) (fun y => Ok (Num y))
  | Obj o => obj_nudge lh o
  end.
End Numpy.

Coercion Num : ndarray >-> array.

(** ** The archive: an HDF5 file as a tree of groups and datasets *)
Inductive node (num : Type) : Type :=
| Group (kids : list (string * node num))
| Dset (val : ndarray num) (attrs : list (string * list nat))
| Text (items : list string).
Arguments Group {num} kids.
Arguments Dset {num} val attrs.
Arguments Text {num} items.

Section H5.
Context {num : Type}.

(** [g[k]]: h5py raises [KeyError] for a missing member, and refuses a
    name on a dataset that has no compound type. *)
Definition h5_getitem (n : node num) (k : string) : result (node num) :=
  match n with
  | Group kids =>
      match dict_get k kids with
      | Some c => Ok c
      | None => Raise (KeyError k)
      end
  | _ => Raise (ValueError "Field names only allowed for compound types")
  end.

(** [g.items()], in the order the members are stored. *)
Definition h5_items (n : node num) : result (list (string * node num)) :=
  match n with
  | Group kids => Ok kids
  | _ => Raise (AttributeError "'Dataset' object has no attribute 'items'")
  end.

(** [d.value.copy()]: the numeric array of a numeric dataset, the array of
    strings of a text dataset. *)
Definition h5_value `{Numeric num} (n : node num)
  : result (array num objarray) :=
  match n with
  | Dset a _ => Ok (Num a)
  | Text items => Ok (Obj (text_array items))
  | Group _ => Raise (AttributeError "'Group' object has no attribute 'value'")
  end.

(** Writing [leaf] at a path below a node, creating the groups on the way
    and replacing what stood at the path.  New members take their place in
    the order of the names ([group_set]). *)
Fixpoint h5_put (path : list string) (leaf : node num) (n : node num)
  : result (node num) :=
  match path with
  | [] => Ok leaf
  | k :: path' =>
      match n with
      | Group kids =>
          match h5_put path' leaf
                  (match dict_get k kids with
                   | Some c => c
                   | None => Group []
                   end) with
          | Ok c' => Ok (Group (group_set k c' kids))
          | Raise e => Raise e
          end
      | _ => Raise (TypeError "Incompatible object already exists")
      end
  end.

Fixpoint h5_path (path : list string) (n : node num) : result (node num) :=
  match path with
  | [] => Ok n
  | k :: path' => rbind (h5_getitem n k) (h5_path path')
  end.
End H5.

(** ** Reading surfaces: [Dataset.get_surf]

    The accessor only reads the archive behind [self.h5]; [h5] below is that
    archive, [None] when [self.h5] is [None]. *)
Section GetSurf.
Context {num : Type} `{Numeric num}.

Definition surface : Type := (array num objarray * array num objarray)%type.

(** What [get_surf] returns: [pts, polys], or [left, right] for both
    hemispheres unmerged. *)
Inductive surf_result : Type :=
| One (pts polys : array num objarray)
| Both (left right : surface).

(** [pts, polys = self.get_surf(...)] and [left[0]], [left[1]] on the
    result of a call for one hemisphere.  Such a call never returns a pair
    of surfaces ([get_surf_fuel_one] below), so the second case is never
    met. *)
Definition as_surface (r : surf_result) : result surface :=
  match r with
  | One pts polys => Ok (pts, polys)
  | Both _ _ => Raise (TypeError "a pair of surfaces where one is expected")
  end.

(** [self.h5[k]]: subscripting [None] is a [TypeError]. *)
Definition self_h5_getitem (h5 : option (node num)) (k : string)
  : result (node num) :=
  match h5 with
  | Some root => h5_getitem root k
  | None => Raise (TypeError "'NoneType' object is not subscriptable")
  end.

(** [try: ... except (KeyError, TypeError): raise IOError(msg)]. *)
Definition not_found {A} (msg : string) (r : result A) : result A :=
  match r with
  | Ok a => Ok a
  | Raise e => if is_KeyError_or_TypeError e then Raise (IOError msg)
               else Raise e
  end.

(** Lines 150-157: the stored surface, nudged on request. *)
Definition stored_surf (h5 : option (node num))
    (subject type hemi : string) (nudge : bool) : result surf_result :=
  rbind (self_h5_getitem h5 "subjects") (fun n1 =>
  rbind (h5_getitem n1 subject) (fun n2 =>
  rbind (h5_getitem n2 "surfaces") (fun n3 =>
  rbind (h5_getitem n3 type) (fun n4 =>
  rbind (h5_getitem n4 hemi) (fun group =>
  rbind (h5_getitem group "pts") (fun dp =>
  rbind (h5_value dp) (fun pts =>
  rbind (h5_getitem group "polys") (fun dq =>
  rbind (h5_value dq) (fun polys =>
  if nudge then
    rbind (arr_nudge (String.eqb hemi "lh") pts)
          (fun pts' => Ok (One pts' polys))
  else Ok (One pts polys)))))))))).

(** The method itself; [fuel] bounds the depth of its calls on itself. *)
Fixpoint get_surf_fuel (fuel : nat) (h5 : option (node num))
    (subject type hemi : string) (merge nudge : bool)
  : result surf_result :=
  match fuel with
  | O => Raise RecursionError
  | S fuel' =>
      if String.eqb hemi "both" then
        rbind (get_surf_fuel fuel' h5 subject type "lh" false nudge)
          (fun left =>
        rbind (get_surf_fuel fuel' h5 subject type "rh" false nudge)
          (fun right =>
        if merge then
          rbind (as_surface left) (fun l =>
          rbind (as_surface right) (fun r =>
          rbind (arr_vstack (fst l) (fst r)) (fun pts =>
          rbind (arr_len (fst l)) (fun n =>
          rbind (arr_add_int (snd r) n) (fun raised =>
          rbind (arr_vstack (snd l) raised) (fun polys =>
          Ok (One pts polys)))))))
        else
          rbind (as_surface left) (fun l =>
          rbind (as_surface right) (fun r =>
          Ok (Both l r)))))
      else
        not_found "Subject not found in package"
          (if String.eqb type "fiducial" then
             rbind (get_surf_fuel fuel' h5 subject "wm" hemi false false)
               (fun w =>
             rbind (as_surface w) (fun wp =>
             rbind (get_surf_fuel fuel' h5 subject "pia" hemi false false)
               (fun p =>
             rbind (as_surface p) (fun pp =>
             rbind (arr_add (fst wp) (fst pp)) (fun s =>
             rbind (arr_half s) (fun avg =>
             Ok (One avg (snd wp))))))))
           else stored_surf h5 subject type hemi nudge)
  end.

(** The deepest chain of calls is both -> one hemisphere -> fiducial ->
    white matter or pial, so three levels always suffice. *)
Definition get_surf_depth : nat := 3.

Definition get_surf (h5 : option (node num))
    (subject type hemi : string) (merge nudge : bool)
  : result surf_result :=
  get_surf_fuel get_surf_depth h5 subject type hemi merge nudge.
End GetSurf.

(** ** Python values, raw data objects and the collaborators *)

(** The values a caller can hand to [Dataset(...)], [append] and
    [normalize].  A Dataset is a mutable object and is passed by reference;
    [POther] is a value of any other class, with its type name and its
    [repr]. *)
Inductive pyval (Dataview : Type) : Type :=
| PDataview (dv : Dataview)
| PDataset (ref : nat)
| PDict (items : list (string * pyval Dataview))
| PStr (s : string)
| PTuple (elts : list (pyval Dataview))
| POther (tyname repr : string).
Arguments PDataview {Dataview} dv.
Arguments PDataset {Dataview} ref.
Arguments PDict {Dataview} items.
Arguments PStr {Dataview} s.
Arguments PTuple {Dataview} elts.
Arguments POther {Dataview} tyname repr.

(** [data._mask]: the name of a mask of the database, or the mask itself. *)
Inductive mask_ref (num : Type) : Type :=
| MaskName (name : string)
| MaskInline (mask : ndarray num).
Arguments MaskName {num} name.
Arguments MaskInline {num} mask.

(** An underlying raw data object, as far as [save] looks at it.  The
    attributes of volumes are [None] on an object that lacks them. *)
Record BrainData (num : Type) : Type := mkBrainData {
  subject : string;
  xfmname : option string;
  _mask : option (mask_ref num)
}.
Arguments mkBrainData {num} subject xfmname _mask.

(** [db.get_overlay(subject, type='rois')], as far as it is used. *)
Record overlay : Type := mkOverlay { toxml : result string }.

(** The interfaces this module consumes: the Dataview class ([views.py]),
    the anatomical database [db], and Python's [repr]. *)
Class Collaborators (num Dataview : Type) : Type := {
  priority : Dataview -> Z;
  uniques : Dataview -> list (BrainData num);
  (* view._write_hdf(h5, name=name): the archive after the write *)
  _write_hdf : Dataview -> list (string * node num) -> string
               -> result (list (string * node num));
  (* Dataview.from_hdf(node), under the current db.auxfile and archive *)
  from_hdf : option nat -> list (string * node num) -> string -> node num
             -> result Dataview;
  (* views.normalize *)
  _vnorm : list (pyval Dataview) -> result (pyval Dataview);
  py_repr : pyval Dataview -> string;
  db_get_overlay : string -> result overlay;
  db_get_paths_surfs : string -> result (list string);
  db_get_surf : string -> string -> string
                -> result (ndarray num * ndarray num);
  db_get_xfm : string -> string -> result (ndarray num * list nat);
  db_get_mask : string -> string -> string -> result (ndarray num)
}.

(** ** The world *)

(** A Dataset instance: [self.h5] (an open archive is known by its file
    name) and [self.views]. *)
Record dataset (Dataview : Type) : Type := mkDataset {
  h5 : option string;
  views : list (string * pyval Dataview)
}.
Arguments mkDataset {Dataview} h5 views.

(** What the module sends to the console, with three ghost events: each
    call of [Dataview.from_hdf] records the [db.auxfile] it ran under, each
    dataset the packers write records its path, and each [flush] its file. *)
Inductive event : Type :=
| Printed (line : string)
| Traceback (e : exn)
| LoadView (name : string) (aux : option nat)
| Wrote (path : list string)
| Flushed (filename : string).

Record world (num Dataview : Type) : Type := mkWorld {
  files : list (string * list (string * node num));
  heap : list (dataset Dataview);
  auxfile : option nat;
  trace : list event
}.
Arguments mkWorld {num Dataview} files heap auxfile trace.

(** What a global name of the module is bound to. *)
Inductive gobj (num Dataview : Type) : Type :=
| GOpaque
| GClass (inst : BrainData num -> bool)
| GFunction (f : list (string * node num) -> string -> result (pyval Dataview)).
Arguments GOpaque {num Dataview}.
Arguments GClass {num Dataview} inst.
Arguments GFunction {num Dataview} f.

Definition dquote : string := String (ascii_of_nat 34) EmptyString.

Section Dataset.
Context {num Dataview : Type} `{Numeric num} `{Collaborators num Dataview}.

Local Abbreviation value := (pyval Dataview).
Local Abbreviation World := (world num Dataview).
Local Abbreviation archive := (list (string * node num)).
Local Abbreviation globals := (list (string * gobj num Dataview)).

(** The names bound at module level: the imports of lines 1-11 and the
    definitions of the file. *)
Definition module_globals : globals :=
  [("tempfile", GOpaque); ("warnings", GOpaque); ("np", GOpaque);
   ("h5py", GOpaque); ("db", GOpaque); ("Transform", GOpaque);
   ("_hdf_write", GOpaque); ("_vnorm", GOpaque); ("Dataview", GOpaque);
   ("Dataset", GOpaque); ("normalize", GOpaque); ("_pack_subjs", GOpaque);
   ("_pack_xfms", GOpaque); ("_pack_masks", GOpaque)].

(** Looking a global name up when the interpreter meets it. *)
Definition lookup_global (G : globals) (name : string)
  : result (gobj num Dataview) :=
  match dict_get name G with
  | Some o => Ok o
  | None => Raise (NameError name)
  end.

(** *** The state and exception monad *)
Definition M (A : Type) : Type := World -> result A * World.

Definition ret {A} (a : A) : M A := fun w => (Ok a, w).
Definition raise {A} (e : exn) : M A := fun w => (Raise e, w).
Definition bind {A B} (m : M A) (k : A -> M B) : M B :=
  fun w => match m w with
           | (Ok a, w') => k a w'
           | (Raise e, w') => (Raise e, w')
           end.
Definition lift {A} (r : result A) : M A := fun w => (r, w).

(** [try: m except <classes>: h], [catches] telling the classes. *)
Definition try_except {A} (m : M A) (catches : exn -> bool)
    (h : exn -> M A) : M A :=
  fun w => match m w with
           | (Ok a, w') => (Ok a, w')
           | (Raise e, w') => if catches e then h e w' else (Raise e, w')
           end.

Notation "x <- m ;; k" := (bind m (fun x => k))
  (at level 61, m at next level, right associativity).
Notation "m ;;; k" := (bind m (fun _ => k))
  (at level 61, right associativity).

Definition emit (ev : event) : M unit :=
  fun w => (Ok tt, mkWorld (files w) (heap w) (auxfile w) (trace w ++ [ev])).

Definition set_auxfile (a : option nat) : M unit :=
  fun w => (Ok tt, mkWorld (files w) (heap w) a (trace w)).

Definition get_auxfile : M (option nat) := fun w => (Ok (auxfile w), w).

(** *** Objects *)
Definition empty_dataset : dataset Dataview := mkDataset None [].

Definition object (r : nat) (w : World) : dataset Dataview :=
  nth r (heap w) empty_dataset.

Fixpoint list_set {A} (i : nat) (x : A) (l : list A) : list A :=
  match l, i with
  | [], _ => []
  | _ :: l', O => x :: l'
  | y :: l', S i' => y :: list_set i' x l'
  end.

Definition get_object (r : nat) : M (dataset Dataview) :=
  fun w => (Ok (object r w), w).

Definition set_object (r : nat) (o : dataset Dataview) : M unit :=
  fun w => (Ok tt, mkWorld (files w) (list_set r o (heap w)) (auxfile w) (trace w)).

(** [self.views[name] = v]. *)
Definition set_view (self : nat) (name : string) (v : value) : M unit :=
  o <- get_object self ;;
  set_object self (mkDataset (h5 o) (dict_set name v (views o))).

(** [self.h5 = handle]. *)
Definition set_h5 (self : nat) (handle : option string) : M unit :=
  o <- get_object self ;;
  set_object self (mkDataset handle (views o)).

(** A new instance with [self.h5 = None] and [self.views = {}]. *)
Definition new_dataset : M nat :=
  fun w => (Ok (length (heap w)),
            mkWorld (files w) (heap w ++ [empty_dataset]) (auxfile w) (trace w)).

(** *** Archives *)
Definition archive_of (filename : string) (w : World) : archive :=
  match dict_get filename (files w) with
  | Some kids => kids
  | None => []
  end.

(** [h5py.File(filename)], with the append mode that h5py takes by default
    where [.value] still exists: the file is created when it does not exist.
    Every file of the model is an HDF5 file, so opening never fails. *)
Definition h5py_File (filename : string) : M string :=
  fun w => (Ok filename,
            match dict_get filename (files w) with
            | Some _ => w
            | None => mkWorld (files w ++ [(filename, [])]) (heap w)
                        (auxfile w) (trace w)
            end).

Definition read_archive (filename : string) : M archive :=
  fun w => (Ok (archive_of filename w), w).

Definition write_archive (filename : string) (a : archive) : M unit :=
  fun w => (Ok tt, mkWorld (dict_set filename a (files w)) (heap w)
                     (auxfile w) (trace w)).

(** *** [Dataset.append], [Dataset.__init__] and iteration *)

(** Lines 31-41 of [append], over the normalizer [norm] it calls. *)
Definition append_with (norm : value -> M value) (self : nat)
  : list (string * value) -> M nat :=
  fix loop (kwargs : list (string * value)) : M nat :=
    match kwargs with
    | [] => ret self
    | (name, data) :: rest =>
        n <- norm data ;;
        match n with
        | PDataview _ => set_view self name n ;;; loop rest
        | PDataset r =>
            other <- get_object r ;;
            o <- get_object self ;;
            set_object self (mkDataset (h5 o) (dict_update (views o) (views other))) ;;;
            loop rest
        | _ => raise (ValueError ("Unknown input " ++ name ++ "=" ++ py_repr data))
        end
    end.

Definition reserved (name : string) : bool :=
  String.eqb name "data" || String.eqb name "subjects" || String.eqb name "views".

(** Lines 76-82 of [from_file]: the top-level nodes pycortex did not write. *)
Fixpoint load_stray (G : globals) (ds : nat) (filename : string)
    (items : list (string * node num)) : M unit :=
  match items with
  | [] => ret tt
  | (name, _) :: rest =>
      (if reserved name then ret tt
       else
         try_except
           (f <- lift (lookup_global G "_from_hdf_data") ;;
            a <- read_archive filename ;;
            v <- lift (match f with
                       | GFunction g => g a name
                       | _ => Raise (TypeError "object is not callable")
                       end) ;;
            set_view ds name v)
           is_KeyError
           (fun _ => emit (Printed ("No metadata found for " ++ dquote ++ name
                                    ++ dquote ++ ", skipping...")))) ;;;
      load_stray G ds filename rest
  end.

(** Lines 85-90 of [from_file]: the views pycortex wrote; the bare [except]
    catches every exception. *)
Fixpoint load_views (ds : nat) (filename : string)
    (items : list (string * node num)) : M unit :=
  match items with
  | [] => ret tt
  | (name, nd) :: rest =>
      try_except
        (aux <- get_auxfile ;;
         emit (LoadView name aux) ;;;
         a <- read_archive filename ;;
         dv <- lift (from_hdf aux a name nd) ;;
         set_view ds name (PDataview dv))
        (fun _ => true)
        (fun e => emit (Traceback e)) ;;;
      load_views ds filename rest
  end.

(** [Dataset.from_file(filename)]. *)
Definition from_file (G : globals) (filename : string) : M nat :=
  ds <- new_dataset ;;
  handle <- h5py_File filename ;;
  set_h5 ds (Some handle) ;;;
  set_auxfile (Some ds) ;;;
  top <- read_archive handle ;;
  load_stray G ds handle top ;;;
  a <- read_archive handle ;;
  vs <- lift (rbind (h5_getitem (Group a) "views") h5_items) ;;
  load_views ds handle vs ;;;
  set_auxfile None ;;;
  ret ds.

(** A call of [Dataset] into which a dictionary is unpacked: the
    interpreter binds the keys to the parameters of
    [__init__(self, **kwargs)] before the body runs, and refuses the key
    [self], which the instance already takes.  The module unpacks a
    dictionary in [normalize] (line 202) and in [prepend] (line 196).  The
    text of the message varies with the version of the interpreter. *)
Definition takes_self (d : list (string * value)) : bool :=
  existsb (fun kv => String.eqb (fst kv) "self") d.

Definition unpack_kwargs (d : list (string * value)) : M unit :=
  if takes_self d
  then raise (TypeError "__init__() got multiple values for argument 'self'")
  else ret tt.

(** [normalize(data)]. *)
Fixpoint normalize (G : globals) (data : value) : M value :=
  match data with
  | PDataview _ | PDataset _ => ret data
  | PDict items =>
      unpack_kwargs items ;;;
      ds <- new_dataset ;;
      append_with (normalize G) ds items ;;;
      ret (PDataset ds)
  | PStr s =>
      ds <- from_file G s ;;
      ret (PDataset ds)
  | PTuple elts => lift (_vnorm elts)
  | POther _ _ => raise (TypeError "Unknown input type")
  end.

(** [self.append] with keyword arguments. *)
Definition append (G : globals) (self : nat) (kwargs : list (string * value))
  : M nat :=
  append_with (normalize G) self kwargs.

(** [Dataset] called with keyword arguments that the interpreter has bound
    to [kwargs]: the body of [__init__].  A key [self] cannot be among
    them, the call that passes one is refused before the body runs (see
    [unpack_kwargs]). *)
Definition Dataset (G : globals) (kwargs : list (string * value)) : M nat :=
  ds <- new_dataset ;;
  append G ds kwargs ;;;
  ret ds.

(** [sorted(items, key=...)] is stable: among equal keys the order of the
    input stays. *)
Section Sorted.
Variable A : Type.
Variable key : A -> Z.

Fixpoint insert_by (x : A) (l : list A) : list A :=
  match l with
  | [] => [x]
  | y :: l' => if (key x <=? key y)%Z then x :: y :: l' else y :: insert_by x l'
  end.

Definition sorted_by (l : list A) : list A := fold_right insert_by [] l.
End Sorted.

(** [x[1].priority] for every item, in the order of the dictionary. *)
Fixpoint priorities (items : list (string * value))
  : result (list (Z * (string * value))) :=
  match items with
  | [] => Ok []
  | (name, v) :: rest =>
      match v with
      | PDataview dv =>
          rbind (priorities rest) (fun ks => Ok ((priority dv, (name, v)) :: ks))
      | _ => Raise (AttributeError "object has no attribute 'priority'")
      end
  end.

(** [Dataset.__iter__]: the pairs the generator yields. *)
Definition Dataset_iter (self : nat) : M (list (string * value)) :=
  o <- get_object self ;;
  ks <- lift (priorities (views o)) ;;
  ret (map snd (sorted_by fst ks)).

(** *** Writing into an archive *)

(** [leaf] put at [path] below the root of an archive, with the groups on
    the way created.  A path is the list of its components: names are taken
    to hold no slash. *)
Definition archive_put (path : list string) (leaf : node num) (a : archive)
  : result archive :=
  match h5_put path leaf (Group a) with
  | Ok (Group a') => Ok a'
  | Ok _ => Raise (ValueError "Unable to create dataset (name already exists)")
  | Raise e => Raise e
  end.

Definition put_node (handle : string) (path : list string) (leaf : node num)
  : M unit :=
  a <- read_archive handle ;;
  a' <- lift (archive_put path leaf a) ;;
  write_archive handle a'.

(** Modelled from the spec: [_hdf_write(h5, data, name, group)] of
    [braindata.py], which is not part of the sources at hand.  It writes the
    array under the group, creating groups as needed, and returns the node,
    known here by its path. *)
Definition _hdf_write (handle : string) (data : ndarray num) (name : string)
    (group : list string) : M (list string) :=
  put_node handle (group ++ [name]) (Dset data []) ;;;
  emit (Wrote (group ++ [name])) ;;;
  ret (group ++ [name]).

(** [h5.require_dataset(path, (1,), dtype=vlen str)]: the text dataset at
    the path, created empty when there is none. *)
Definition require_text_dataset (handle : string) (path : list string)
  : M unit :=
  a <- read_archive handle ;;
  match h5_path path (Group a) with
  | Ok (Text [_]) => ret tt
  | Raise (KeyError _) => put_node handle path (Text [""])
  | _ => raise (TypeError "Incompatible object already exists")
  end.

(** [node.attrs[k] = v] on the dataset at [path]. *)
Definition set_attr (handle : string) (path : list string) (k : string)
    (v : list nat) : M unit :=
  a <- read_archive handle ;;
  nd <- lift (h5_path path (Group a)) ;;
  match nd with
  | Dset val attrs => put_node handle path (Dset val (dict_set k v attrs))
  | _ => raise (AttributeError "object has no attribute 'attrs'")
  end.

(** [for x in xs: body(x)]. *)
Fixpoint for_each {A} (xs : list A) (body : A -> M unit) : M unit :=
  match xs with
  | [] => ret tt
  | x :: xs' => body x ;;; for_each xs' body
  end.

(** [_pack_subjs(h5, subjects)]. *)
Definition _pack_subjs (handle : string) (subjects : list string) : M unit :=
  for_each subjects (fun subj =>
    rois <- lift (db_get_overlay subj) ;;
    require_text_dataset handle ["subjects"; subj; "rois"] ;;;
    xml <- lift (toxml rois) ;;
    put_node handle ["subjects"; subj; "rois"] (Text [xml]) ;;;
    emit (Wrote ["subjects"; subj; "rois"]) ;;;
    surfaces <- lift (db_get_paths_surfs subj) ;;
    for_each surfaces (fun surf =>
      for_each ["lh"; "rh"] (fun hemi =>
        s <- lift (db_get_surf subj surf hemi) ;;
        _hdf_write handle (fst s) "pts" ["subjects"; subj; "surfaces"; surf; hemi] ;;;
        _hdf_write handle (snd s) "polys" ["subjects"; subj; "surfaces"; surf; hemi] ;;;
        ret tt))).

(** [_pack_xfms(h5, xfms)]. *)
Definition _pack_xfms (handle : string) (xfms : list (string * string))
  : M unit :=
  for_each xfms (fun sx =>
    xfm <- lift (db_get_xfm (fst sx) (snd sx)) ;;
    nd <- _hdf_write handle (fst xfm) "xfm" ["subjects"; fst sx; "transforms"; snd sx] ;;
    set_attr handle nd "shape" (snd xfm)).

(** [_pack_masks(h5, masks)]. *)
Definition _pack_masks (handle : string)
    (masks : list (string * string * string)) : M unit :=
  for_each masks (fun sxm =>
    let '(subj, xfm, maskname) := sxm in
    mask <- lift (db_get_mask subj xfm maskname) ;;
    _hdf_write handle mask maskname ["subjects"; subj; "transforms"; xfm; "masks"] ;;;
    ret tt).

(** *** [Dataset.save] *)

(** The three sets that [save] fills before packing. *)
Record pack_sets : Type := mkPackSets {
  subjs : list string;
  xfms : list (string * string);
  masks : list (string * string * string)
}.

Definition attribute {A} (name : string) (a : option A) : result A :=
  match a with
  | Some x => Ok x
  | None => Raise (AttributeError ("object has no attribute '" ++ name ++ "'"))
  end.

(** Lines 120-126, the body of the inner loop. *)
Definition collect_data (G : globals) (data : BrainData num) (acc : pack_sets)
  : result pack_sets :=
  let subjs' := set_add String.eqb (subject data) (subjs acc) in
  rbind (lookup_global G "Volume") (fun cls =>
  rbind (match cls with
         | GClass inst => Ok (inst data)
         | _ => Raise (TypeError "isinstance() arg 2 must be a type or tuple of types")
         end) (fun is_volume =>
  if is_volume then
    rbind (attribute "xfmname" (xfmname data)) (fun x =>
    let xfms' := set_add pair_eqb (subject data, x) (xfms acc) in
    rbind (attribute "_mask" (_mask data)) (fun m =>
    match m with
    | MaskName mn =>
        Ok (mkPackSets subjs' xfms'
              (set_add triple_eqb (subject data, x, mn) (masks acc)))
    | MaskInline _ => Ok (mkPackSets subjs' xfms' (masks acc))
    end))
  else Ok (mkPackSets subjs' (xfms acc) (masks acc)))).

Fixpoint collect_uniques (G : globals) (us : list (BrainData num))
    (acc : pack_sets) : result pack_sets :=
  match us with
  | [] => Ok acc
  | data :: us' => rbind (collect_data G data acc) (collect_uniques G us')
  end.

(** Lines 118-126, the loop over [self.views.values()]. *)
Fixpoint collect_views (G : globals) (vs : list value) (acc : pack_sets)
  : result pack_sets :=
  match vs with
  | [] => Ok acc
  | PDataview dv :: vs' =>
      rbind (collect_uniques G (uniques dv) acc) (collect_views G vs')
  | _ :: _ => Raise (AttributeError "object has no attribute 'uniques'")
  end.

(** Lines 111-112, the loop that writes the views. *)
Fixpoint write_views (handle : string) (items : list (string * value))
  : M unit :=
  match items with
  | [] => ret tt
  | (name, PDataview dv) :: rest =>
      a <- read_archive handle ;;
      a' <- lift (_write_hdf dv a name) ;;
      write_archive handle a' ;;;
      write_views handle rest
  | _ :: _ => raise (AttributeError "object has no attribute '_write_hdf'")
  end.

(** Lines 106-109: the handle [save] writes to. *)
Definition save_handle (self : nat) (filename : option string) : M string :=
  match filename with
  | Some f => hd <- h5py_File f ;; set_h5 self (Some hd) ;;; ret hd
  | None =>
      o <- get_object self ;;
      match h5 o with
      | Some hd => ret hd
      | None => raise (ValueError "Must provide filename for new datasets")
      end
  end.

(** Lines 114-130: the pack branch. *)
Definition save_pack (G : globals) (self : nat) (handle : string) : M unit :=
  o <- get_object self ;;
  sets <- lift (collect_views G (dict_values (views o)) (mkPackSets [] [] [])) ;;
  _pack_subjs handle (subjs sets) ;;;
  _pack_xfms handle (xfms sets) ;;;
  _pack_masks handle (masks sets).

(** [self.save(filename, pack)]. *)
Definition save (G : globals) (self : nat) (filename : option string)
    (pack : bool) : M unit :=
  handle <- save_handle self filename ;;
  o <- get_object self ;;
  write_views handle (views o) ;;;
  (if pack then save_pack G self handle else ret tt) ;;;
  emit (Flushed handle).

(** *** [Dataset.get_surf] as a method *)

(** The archive behind [self.h5]. *)
Definition self_archive (self : nat) (w : World) : option (node num) :=
  match h5 (object self w) with
  | Some handle => Some (Group (archive_of handle w))
  | None => None
  end.

Definition Dataset_get_surf (self : nat) (subj type hemi : string)
    (merge nudge : bool) : M surf_result :=
  fun w => (get_surf (self_archive self w) subj type hemi merge nudge, w).

End Dataset.

Notation "x <- m ;; k" := (bind m (fun x => k))
  (at level 61, m at next level, right associativity).
Notation "m ;;; k" := (bind m (fun _ => k))
  (at level 61, right associativity).

(** ** Invariants, layouts and contracts *)
Section Contracts.
Context {num Dataview : Type} `{Numeric num} `{Collaborators num Dataview}.

Local Abbreviation value := (pyval Dataview).
Local Abbreviation World := (world num Dataview).
Local Abbreviation archive := (list (string * node num)).
Local Abbreviation globals := (list (string * gobj num Dataview)).

Definition is_dataview (v : value) : Prop :=
  match v with PDataview _ => True | _ => False end.

(** Every entry of every Dataset is a Dataview. *)
Definition views_are_dataviews (w : World) : Prop :=
  Forall (fun o => Forall (fun kv => is_dataview (snd kv)) (views o)) (heap w).

(** The text [needle] occurs in [hay]. *)
Fixpoint mentions (needle hay : string) : bool :=
  String.prefix needle hay
  || match hay with
     | EmptyString => false
     | String _ hay' => mentions needle hay'
     end.

(** The names under [views/] in an archive. *)
Definition view_names (a : archive) : list string :=
  match dict_get "views" a with
  | Some (Group vs) => dict_keys vs
  | _ => []
  end.

(** The layout pycortex writes: at top level nothing but the reserved
    names, and [views], when there, a group (whose members, as in any HDF5
    group, have distinct names). *)
Definition package_layout (a : archive) : Prop :=
  (forall n, In n (dict_keys a) -> reserved n = true)
  /\ (forall nd, dict_get "views" a = Some nd ->
        exists vs, nd = Group vs /\ NoDup (dict_keys vs)).

(** [a] holds the view [dv] under [name]: whatever [db.auxfile] is,
    [Dataview.from_hdf] reads a view equivalent to it from the node. *)
Definition readable (equiv : Dataview -> Dataview -> Prop) (a : archive)
    (name : string) (dv : Dataview) : Prop :=
  forall vs nd aux,
    dict_get "views" a = Some (Group vs) -> In (name, nd) vs ->
    exists dv', from_hdf aux a name nd = Ok dv' /\ equiv dv dv'.

(** The round-trip contract of the Dataview collaborator: on an archive of
    the package layout [_write_hdf] succeeds, keeps the layout, adds the
    name under [views/] and no other, leaves the view readable and keeps
    the other views readable. *)
Definition roundtrip_contract (equiv : Dataview -> Dataview -> Prop) : Prop :=
  forall dv a name,
    package_layout a ->
    exists a',
      _write_hdf dv a name = Ok a'
      /\ package_layout a'
      /\ (exists vs, dict_get "views" a' = Some (Group vs))
      /\ (forall n, In n (view_names a') <-> n = name \/ In n (view_names a))
      /\ readable equiv a' name dv
      /\ (forall n dv0, n <> name -> readable equiv a n dv0 ->
                        readable equiv a' n dv0).

(** The priority an item of the iteration is sorted by. *)
Definition item_priority (item : string * value) : Z :=
  match snd item with
  | PDataview dv => priority dv
  | _ => 0%Z
  end.

(** A value that [normalize] turns into a Dataview on the spot: a Dataview,
    or a tuple that [views.normalize] accepts. *)
Definition as_view (v : value) : option Dataview :=
  match v with
  | PDataview dv => Some dv
  | PTuple elts =>
      match _vnorm elts with
      | Ok (PDataview dv) => Some dv
      | _ => None
      end
  | _ => None
  end.

(** *** Notions the proofs and the statements share *)

(** What a step leaves alone: the files, the binding of [db.auxfile] and the
    number of objects; the trace only grows, by events that satisfy [P]. *)
Definition quiet (P : event -> Prop) (w w' : World) : Prop :=
  files w' = files w /\ auxfile w' = auxfile w
  /\ length (heap w') = length (heap w)
  /\ exists evs, trace w' = trace w ++ evs /\ Forall P evs.

(** A small program logic: from a world that satisfies [Inv], the step [m]
    relates the worlds by [R], keeps [Inv], and returns a result that
    satisfies [Q]. *)
Definition triple {A} (Inv : World -> Prop) (R : World -> World -> Prop)
    (Q : A -> Prop) (m : M A) : Prop :=
  forall w r w', Inv w -> m w = (r, w') ->
    R w w' /\ Inv w' /\ (forall x, r = Ok x -> Q x).

(** The events of a load that ran under the binding [a]. *)
Definition loaded_under (a : option nat) (ev : event) : Prop :=
  match ev with LoadView _ aux => aux = a | _ => True end.

(** The world in which [from_file] starts its two loops. *)
Definition opened (filename : string) (w : World) : World :=
  let w2 := snd (h5py_File filename (snd (new_dataset w))) in
  snd (set_auxfile (Some (length (heap w)))
         (snd (set_h5 (length (heap w)) (Some filename) w2))).

Definition grows (w w' : World) : Prop := length (heap w) <= length (heap w').

Definition dataview_entries (o : dataset Dataview) : Prop :=
  Forall (fun kv => is_dataview (snd kv)) (views o).

(** What [_from_hdf_data] returns, where the name is bound to a function,
    is a Dataview. *)
Definition stray_ok (G : globals) : Prop :=
  forall g a n v,
    lookup_global G "_from_hdf_data" = Ok (GFunction g) -> g a n = Ok v ->
    is_dataview v.

(** The world with [self.views] replaced. *)
Definition with_views (self : nat) (vs : list (string * value)) (w : World)
  : World :=
  mkWorld (files w) (list_set self (mkDataset (h5 (object self w)) vs) (heap w))
    (auxfile w) (trace w).

(** What [normalize] makes of keyword values that are views. *)
Definition as_views (kwargs : list (string * value)) : list (string * value) :=
  map (fun kv => (fst kv, match as_view (snd kv) with
                          | Some dv => PDataview dv
                          | None => snd kv
                          end)) kwargs.

(** What a step spares: no object goes away, and the objects below [n],
    but for [self], are left as they were. *)
Definition spared (n self : nat) (w w' : World) : Prop :=
  length (heap w) <= length (heap w')
  /\ forall r, r < n -> r <> self -> object r w' = object r w.

(** The names a keyword pair adds to [views], given what its value was
    normalized to: its own name for a Dataview, the names of the views of
    the Dataset for a Dataset. *)
Definition contributes (name : string) (r : value) (w : World) (n : string)
  : Prop :=
  match r with
  | PDataview _ => n = name
  | PDataset d => In n (dict_keys (views (object d w)))
  | _ => False
  end.

Definition duplicate_free (s : pack_sets) : Prop :=
  NoDup (subjs s) /\ NoDup (xfms s) /\ NoDup (masks s).
End Contracts.

(** ** The other accessors and methods *)

(** [Transform(xfm, shape)] of [cortex.xfm], as far as [get_xfm] builds it:
    the matrix and the shape of the target volume. *)
Record Transform (num obj : Type) : Type := mkTransform {
  xfm_matrix : array num obj;
  xfm_shape : list nat
}.
Arguments mkTransform {num obj} xfm_matrix xfm_shape.

(** What [tf.write(group['rois'][0])] puts into the temporary file: the text
    of a text dataset, or the first row of a numeric one. *)
Inductive written (num : Type) : Type :=
| WText (s : string)
| WRow (r : list num).
Arguments WText {num} s.
Arguments WRow {num} r.

Section MoreMethods.
Context {num Dataview : Type} `{Numeric num} `{Collaborators num Dataview}.

Local Abbreviation value := (pyval Dataview).
Local Abbreviation World := (world num Dataview).
Local Abbreviation archive := (list (string * node num)).
Local Abbreviation globals := (list (string * gobj num Dataview)).
Local Abbreviation Act := (@M num Dataview).

(** The subject cannot be reached in the package: there is no package, no
    [subjects] group, or no such subject in it. *)
Definition subject_missing (pkg : option (node num)) (subj : string) : Prop :=
  match pkg with
  | None => True
  | Some root => exists k, h5_path ["subjects"; subj] root = Raise (KeyError k)
  end.

(** [d.attrs[k]]: the model keeps attributes on numeric datasets only, so
    every other node has none. *)
Definition h5_attr (n : node num) (k : string) : result (list nat) :=
  match n with
  | Dset _ attrs =>
      match dict_get k attrs with
      | Some v => Ok v
      | None => Raise (KeyError k)
      end
  | _ => Raise (KeyError k)
  end.

(** [d[0]] on a dataset; a group takes no integer for a member name. *)
Definition h5_first (n : node num) : result (written num) :=
  match n with
  | Text (x :: _) => Ok (WText x)
  | Dset a _ =>
      match rows a with
      | r :: _ => Ok (WRow r)
      | [] => Raise (ValueError "Index (0) out of range (0--1)")
      end
  | Text [] => Raise (ValueError "Index (0) out of range (0--1)")
  | Group _ => Raise (TypeError "Accessing a group is done with bytes or str, not int")
  end.

(** [Dataset.get_xfm]; [pkg] is the archive behind [self.h5], as for
    [get_surf]. *)
Definition get_xfm (pkg : option (node num)) (subject xfmname : string)
  : result (Transform num objarray) :=
  not_found "Transform not found in package"
    (rbind (self_h5_getitem pkg "subjects") (fun n1 =>
     rbind (h5_getitem n1 subject) (fun n2 =>
     rbind (h5_getitem n2 "transforms") (fun n3 =>
     rbind (h5_getitem n3 xfmname) (fun group =>
     rbind (h5_getitem group "xfm") (fun d1 =>
     rbind (h5_value d1) (fun m =>
     rbind (h5_getitem group "xfm") (fun d2 =>
     rbind (h5_attr d2 "shape") (fun sh =>
     Ok (mkTransform m sh)))))))))).

(** [Dataset.get_mask]: the node of the mask, as the method returns it. *)
Definition get_mask (pkg : option (node num)) (subject xfmname maskname : string)
  : result (node num) :=
  not_found "Mask not found in package"
    (rbind (self_h5_getitem pkg "subjects") (fun n1 =>
     rbind (h5_getitem n1 subject) (fun n2 =>
     rbind (h5_getitem n2 "transforms") (fun n3 =>
     rbind (h5_getitem n3 xfmname) (fun n4 =>
     rbind (h5_getitem n4 "masks") (fun group =>
     h5_getitem group maskname)))))).

(** [Dataset.get_overlay]: what the temporary file it returns holds.  The
    [try] ends before the last [raise], so the [TypeError] of an unknown
    type is not turned into an [IOError]. *)
Definition get_overlay (pkg : option (node num)) (subject type : string)
  : result (written num) :=
  match not_found "Overlay not found in package"
          (rbind (self_h5_getitem pkg "subjects") (fun n1 =>
           rbind (h5_getitem n1 subject) (fun group =>
           if String.eqb type "rois" then
             rbind (h5_getitem group "rois") (fun d =>
             rbind (h5_first d) (fun x => Ok (Some x)))
           else Ok None))) with
  | Ok (Some tf) => Ok tf
  | Ok None => Raise (TypeError "Unknown overlay type")
  | Raise e => Raise e
  end.

(** [self.views[item]]: [Dataset.__getitem__]. *)
Definition Dataset_getitem (self : nat) (item : string) : Act value :=
  o <- get_object self ;;
  match dict_get item (views o) with
  | Some v => ret v
  | None => raise (KeyError item)
  end.

(** [len(self.views)]: [Dataset.__len__]. *)
Definition Dataset_len (self : nat) : Act nat :=
  o <- get_object self ;;
  ret (length (views o)).

(** [Dataset.prepend]: the loop fills a dictionary in the order of the
    iteration, and [Dataset] is called on it. *)
Definition prepend (G : globals) (self : nat) (prefix : string) : Act nat :=
  items <- Dataset_iter self ;;
  let ds := fold_left (fun d kv => dict_set (prefix ++ fst kv) (snd kv) d)
              items [] in
  unpack_kwargs ds ;;;
  Dataset G ds.

(** The methods on the archive of a Dataset. *)
Definition Dataset_get_xfm (self : nat) (subj xfmname : string)
  : Act (Transform num objarray) :=
  fun w => (get_xfm (self_archive self w) subj xfmname, w).

Definition Dataset_get_mask (self : nat) (subj xfmname maskname : string)
  : Act (node num) :=
  fun w => (get_mask (self_archive self w) subj xfmname maskname, w).

Definition Dataset_get_overlay (self : nat) (subj type : string)
  : Act (written num) :=
  fun w => (get_overlay (self_archive self w) subj type, w).

(** Two paths part ways: at some depth they name different members. *)
Inductive diverge : list string -> list string -> Prop :=
| diverge_here k k' p q : k <> k' -> diverge (k :: p) (k' :: q)
| diverge_below k p q : diverge p q -> diverge (k :: p) (k :: q).

(** The events [from_file] records for the nodes under [views/]: each load,
    and the traceback of each that failed. *)
Definition load_events (ds : nat) (a : archive) (vs : archive) : list event :=
  flat_map (fun kv =>
              LoadView (fst kv) (Some ds)
              :: match from_hdf (Some ds) a (fst kv) (snd kv) with
                 | Ok _ => []
                 | Raise e => [Traceback e]
                 end) vs.

(** The views [from_file] keeps for the nodes under [views/]: those that
    [Dataview.from_hdf] could read, in the order of the nodes. *)
Definition loaded_views (ds : nat) (a : archive) (vs : archive)
  : list (string * value) :=
  flat_map (fun kv =>
              match from_hdf (Some ds) a (fst kv) (snd kv) with
              | Ok dv => [(fst kv, PDataview dv)]
              | Raise _ => []
              end) vs.

(** What a step leaves untouched: the content of the files that satisfy
    [keep_file], the objects that satisfy [keep_obj], and the number of
    objects. *)
Definition untouched (keep_file : string -> Prop) (keep_obj : nat -> Prop)
    (w w' : World) : Prop :=
  (forall f, keep_file f -> archive_of f w' = archive_of f w)
  /\ length (heap w') = length (heap w)
  /\ (forall r, keep_obj r -> object r w' = object r w).

(** The handle [save] writes to, when it finds one. *)
Definition save_target (self : nat) (filename : option string) (w : World)
  : option string :=
  match filename with
  | Some f => Some f
  | None => h5 (object self w)
  end.
End MoreMethods.

(** ** A small instance

    Integers for numpy's scalars, and a Dataview that holds a priority and
    the subject, transform and mask of one volume.  It is stored under
    [views/<name>] as a group of four datasets. *)
(** The arrays that are not numeric are lists of strings, and the numpy of
    the instance refuses every operation on them but [len]. *)
Definition refused {A} (op : string) : result A :=
  Raise (TypeError ("unsupported operand type(s) for " ++ op)).

#[export] Instance Z_numeric : Numeric Z := {
  nadd := Z.add;
  nsub := Z.sub;
  nhalf := fun x => Z.div x 2;
  nmax := Z.max;
  nmin := Z.min;
  nof_nat := Z.of_nat;
  objarray := list string;
  text_array := fun items => items;
  obj_nudge := fun _ _ => Raise (IndexError "too many indices for array");
  obj_add := fun _ _ => refused "+";
  obj_half := fun _ => refused "/";
  obj_vstack := fun _ _ =>
    Raise (ValueError "all the input array dimensions except for the concatenation axis must match exactly");
  obj_len := fun o => Ok (length o);
  obj_add_int := fun _ _ => refused "+"
}.

Record sample_view : Type := mkSample {
  sv_priority : Z;
  sv_subject : string;
  sv_xfmname : string;
  sv_mask : string
}.

Definition sample_encode (dv : sample_view) : node Z :=
  Group [("priority", Dset (mkArr 1 [[sv_priority dv]]) []);
         ("subject", Text [sv_subject dv]);
         ("xfmname", Text [sv_xfmname dv]);
         ("mask", Text [sv_mask dv])].

Definition sample_decode (nd : node Z) : result sample_view :=
  match nd with
  | Group [("priority", Dset (mkArr _ [[p]]) _); ("subject", Text [s]);
           ("xfmname", Text [x]); ("mask", Text [m])] => Ok (mkSample p s x m)
  | _ => Raise (KeyError "priority")
  end.

Definition sample_write (dv : sample_view) (a : list (string * node Z))
    (name : string) : result (list (string * node Z)) :=
  match h5_put ["views"; name] (sample_encode dv) (Group a) with
  | Ok (Group a') => Ok a'
  | Ok _ => Raise (ValueError "Unable to create group")
  | Raise e => Raise e
  end.

Definition sample_vnorm (elts : list (pyval sample_view))
  : result (pyval sample_view) :=
  match elts with
  | [POther _ _; PStr s; PStr x] => Ok (PDataview (mkSample 1 s x "thick"))
  | _ => Raise (TypeError "Invalid input for Dataview")
  end.

Definition sample_repr (v : pyval sample_view) : string :=
  match v with
  | POther _ r => r
  | PStr s => s
  | _ => "<object>"
  end.

Definition unit_square : ndarray Z := mkArr 3 [[0; 0; 0]; [1; 0; 0]; [0; 1; 0]]%Z.
Definition one_triangle : ndarray Z := mkArr 3 [[0; 1; 2]]%Z.

#[export] Instance sample_collaborators : Collaborators Z sample_view := {
  priority := sv_priority;
  uniques := fun dv =>
    [mkBrainData (sv_subject dv) (Some (sv_xfmname dv))
       (Some (MaskName (sv_mask dv)))];
  _write_hdf := sample_write;
  from_hdf := fun _ _ _ nd => sample_decode nd;
  _vnorm := sample_vnorm;
  py_repr := sample_repr;
  db_get_overlay := fun _ => Ok (mkOverlay (Ok "<svg/>"));
  db_get_paths_surfs := fun _ => Ok ["wm"; "pia"];
  db_get_surf := fun _ _ _ => Ok (unit_square, one_triangle);
  db_get_xfm := fun _ _ => Ok (mkArr 2 [[1; 0]; [0; 1]]%Z, [2; 2]);
  db_get_mask := fun _ _ _ => Ok (mkArr 2 [[1; 0]; [0; 1]]%Z)
}.

(** A world with no file, no object and nothing printed. *)
Definition empty_world : world Z sample_view := mkWorld [] [] None [].

(** Two views of one volume of subject S1, and five names for them. *)
Definition view_hi : sample_view := mkSample 2 "S1" "T1" "M1".
Definition view_lo : sample_view := mkSample 1 "S1" "T1" "M1".

Definition five_views : list (string * pyval sample_view) :=
  [("v1", PDataview view_hi); ("v2", PDataview view_lo);
   ("v3", PDataview view_hi); ("v4", PDataview view_lo);
   ("v5", PDataview view_hi)].

(** A world with one Dataset of two views, not saved yet. *)
Definition two_view_world : world Z sample_view :=
  mkWorld [] [mkDataset None [("hi", PDataview view_hi);
                              ("lo", PDataview view_lo)]] None [].

(** A world with one Dataset of five views of the same volume. *)
Definition five_view_world : world Z sample_view :=
  mkWorld [] [mkDataset None five_views] None [].

(** A file with an empty [views] group and a node pycortex did not write. *)
Definition legacy_world : world Z sample_view :=
  mkWorld [("legacy.hdf", [("views", Group []);
                           ("old_run", Dset unit_square [])])] [] None [].

(** The globals of the module with [Volume] bound to a class of which every
    raw data object is an instance, and with [_from_hdf_data] bound to a
    helper that finds no metadata. *)
Definition globals_with_Volume : list (string * gobj Z sample_view) :=
  ("Volume", GClass (fun _ => true)) :: module_globals.

Definition globals_with_helper : list (string * gobj Z sample_view) :=
  ("_from_hdf_data", GFunction (fun _ name => Raise (KeyError name)))
    :: module_globals.

(** A package with the white-matter and pial surfaces of S1. *)
Definition wm_pts : ndarray Z := mkArr 3 [[0; 0; 0]; [2; 0; 0]; [0; 2; 0]]%Z.
Definition pia_pts : ndarray Z := mkArr 3 [[0; 0; 2]; [4; 0; 2]; [0; 4; 2]]%Z.

Definition hemi_group (pts : ndarray Z) : node Z :=
  Group [("pts", Dset pts []); ("polys", Dset one_triangle [])].

Definition sample_package : node Z :=
  Group [("subjects",
          Group [("S1",
                  Group [("surfaces",
                          Group [("wm", Group [("lh", hemi_group wm_pts);
                                               ("rh", hemi_group wm_pts)]);
                                 ("pia", Group [("lh", hemi_group pia_pts);
                                                ("rh", hemi_group pia_pts)])])])])].

(** The same collaborators, but with views that stand for no raw data
    object and a view normalizer that hands a tuple back as a string. *)
Definition bare_collaborators : Collaborators Z sample_view := {|
  priority := sv_priority;
  uniques := fun _ => [];
  _write_hdf := sample_write;
  from_hdf := fun _ _ _ nd => sample_decode nd;
  _vnorm := fun _ => Ok (PStr "raw");
  py_repr := sample_repr;
  db_get_overlay := fun _ => Ok (mkOverlay (Ok "<svg/>"));
  db_get_paths_surfs := fun _ => Ok ["wm"; "pia"];
  db_get_surf := fun _ _ _ => Ok (unit_square, one_triangle);
  db_get_xfm := fun _ _ => Ok (mkArr 2 [[1; 0]; [0; 1]]%Z, [2; 2]);
  db_get_mask := fun _ _ _ => Ok (mkArr 2 [[1; 0]; [0; 1]]%Z)
|}.

(** A file with two nodes under [views/]: one that was written for a view,
    and one that cannot be read as a view. *)
Definition mixed_world : world Z sample_view :=
  mkWorld [("mixed.hdf", [("views", Group [("good", sample_encode view_hi);
                                           ("bad", Text ["junk"])])])]
    [] None [].

(** A world with one Dataset that holds a view under the name elf. *)
Definition elf_world : world Z sample_view :=
  mkWorld [] [mkDataset None [("elf", PDataview view_lo)]] None [].

(** A world with one Dataset of one view. *)
Definition one_view_world : world Z sample_view :=
  mkWorld [] [mkDataset None [("lo", PDataview view_lo)]] None [].

(** A package in which the polygons of the right hemisphere are a text
    dataset. *)
Definition text_package : node Z :=
  Group [("subjects",
          Group [("S1",
                  Group [("surfaces",
                          Group [("wm",
                                  Group [("lh", hemi_group wm_pts);
                                         ("rh",
                                          Group [("pts", Dset wm_pts []);
                                                 ("polys", Text ["a"; "b"])])])])])])].

(** * Properties *)

(** ** Arrays *)
Section NumpyFacts.
Context {num : Type} `{Numeric num}.

Lemma zip_with_length_eq {A B C} (f : A -> B -> C) xs ys :
  length xs = length ys -> length (zip_with f xs ys) = length xs.
Proof.
  revert ys; induction xs as [|x xs IH]; intros [|y ys] E; simpl in *;
    try discriminate; auto.
Qed.

Lemma broadcast_same_length {A B C} (f : A -> B -> C) xs ys :
  length xs = length ys -> broadcast f xs ys = Some (zip_with f xs ys).
Proof.
  intros E. unfold broadcast. rewrite E, Nat.eqb_refl. reflexivity.
Qed.

Lemma sequence_opt_rows (ra rb : list (list num)) (k : nat) :
  Forall (fun r => length r = k) ra ->
  Forall (fun r => length r = k) rb ->
  sequence_opt (zip_with (broadcast nadd) ra rb)
  = Some (zip_with (zip_with nadd) ra rb).
Proof.
  intros Ha; revert rb.
  induction Ha as [|r ra Hr Ha IH]; intros rb Hb; simpl; [reflexivity|].
  destruct Hb as [|r' rb Hr' Hb]; simpl; [reflexivity|].
  rewrite broadcast_same_length by congruence.
  rewrite (IH rb Hb). reflexivity.
Qed.

Lemma map_zip_with {A B C D} (g : C -> D) (f : A -> B -> C) xs ys :
  map g (zip_with f xs ys) = zip_with (fun x y => g (f x y)) xs ys.
Proof.
  revert ys; induction xs as [|x xs IH]; intros [|y ys]; simpl; auto.
  now rewrite IH.
Qed.

Lemma zip_with_ext {A B C} (f g : A -> B -> C) xs ys :
  (forall x y, f x y = g x y) -> zip_with f xs ys = zip_with g xs ys.
Proof.
  intros E; revert ys; induction xs as [|x xs IH]; intros [|y ys]; simpl; auto.
  now rewrite E, IH.
Qed.

(** On two well-formed arrays of one shape, [(a + b) / 2] is the average
    entry by entry. *)
Lemma np_add_half_same_shape (a b : ndarray num) :
  same_shape a b -> wf_array a -> wf_array b ->
  exists s, np_add a b = Ok s /\ np_half s = elementwise_average a b.
Proof.
  intros [Hc Hr] Ha Hb. unfold np_add, broadcast_dim.
  rewrite Hc, Nat.eqb_refl.
  rewrite broadcast_same_length by exact Hr.
  unfold wf_array in *. rewrite Hc in Ha.
  rewrite (sequence_opt_rows Ha Hb).
  eexists; split; [reflexivity|].
  unfold np_half, elementwise_average; simpl. rewrite Hc. f_equal.
  rewrite map_zip_with. apply zip_with_ext; intros x y.
  apply map_zip_with.
Qed.
End NumpyFacts.

(** ** [get_surf] *)
Section GetSurfFacts.
Context {num : Type} `{Numeric num}.

Lemma not_found_Ok {A} msg (r : result A) (a : A) :
  not_found msg r = Ok a -> r = Ok a.
Proof.
  destruct r as [x|e]; simpl; [auto|].
  destruct (is_KeyError_or_TypeError e); discriminate.
Qed.

Lemma stored_surf_one pkg subj ty hemi nudge (r : surf_result) :
  stored_surf pkg subj ty hemi nudge = Ok r -> exists p q, r = One p q.
Proof.
  unfold stored_surf, rbind. intros E.
  repeat match type of E with
         | match ?x with _ => _ end = _ => destruct x; try discriminate
         end;
    injection E as <-; eauto.
Qed.

(** One level of the method, as its text has it. *)
Lemma get_surf_fuel_S n pkg subj ty hemi merge nudge :
  get_surf_fuel (S n) pkg subj ty hemi merge nudge
  = if String.eqb hemi "both" then
      rbind (get_surf_fuel n pkg subj ty "lh" false nudge) (fun left =>
      rbind (get_surf_fuel n pkg subj ty "rh" false nudge) (fun right =>
      if merge then
        rbind (as_surface left) (fun l =>
        rbind (as_surface right) (fun r =>
        rbind (arr_vstack (fst l) (fst r)) (fun pts =>
        rbind (arr_len (fst l)) (fun n =>
        rbind (arr_add_int (snd r) n) (fun raised =>
        rbind (arr_vstack (snd l) raised) (fun polys =>
        Ok (One pts polys)))))))
      else
        rbind (as_surface left) (fun l =>
        rbind (as_surface right) (fun r => Ok (Both l r)))))
    else
      not_found "Subject not found in package"
        (if String.eqb ty "fiducial" then
           rbind (get_surf_fuel n pkg subj "wm" hemi false false) (fun w =>
           rbind (as_surface w) (fun wp =>
           rbind (get_surf_fuel n pkg subj "pia" hemi false false) (fun p =>
           rbind (as_surface p) (fun pp =>
           rbind (arr_add (fst wp) (fst pp)) (fun s =>
           rbind (arr_half s) (fun avg =>
           Ok (One avg (snd wp))))))))
         else stored_surf pkg subj ty hemi nudge).
Proof. reflexivity. Qed.

(** A stored surface type, for one hemisphere, is read without any call of
    the method on itself. *)
Lemma get_surf_fuel_stored n pkg subj ty hemi merge nudge :
  String.eqb hemi "both" = false -> String.eqb ty "fiducial" = false ->
  get_surf_fuel (S n) pkg subj ty hemi merge nudge
  = not_found "Subject not found in package" (stored_surf pkg subj ty hemi nudge).
Proof. intros Hh Ht. rewrite get_surf_fuel_S, Hh, Ht. reflexivity. Qed.

(** For one hemisphere two levels are enough. *)
Lemma get_surf_fuel_hemi n pkg subj ty hemi merge nudge :
  String.eqb hemi "both" = false ->
  get_surf_fuel (S (S n)) pkg subj ty hemi merge nudge
  = get_surf_fuel 2 pkg subj ty hemi merge nudge.
Proof.
  intros Hh.
  rewrite (get_surf_fuel_S (S n)), (get_surf_fuel_S 1), Hh.
  rewrite !(get_surf_fuel_stored n), !(get_surf_fuel_stored 0)
    by (assumption || reflexivity).
  reflexivity.
Qed.

(** The method needs no more than [get_surf_depth] levels: with any larger
    bound it returns what [get_surf] returns. *)
Lemma get_surf_fuel_enough n pkg subj ty hemi merge nudge :
  get_surf_fuel (get_surf_depth + n) pkg subj ty hemi merge nudge
  = get_surf pkg subj ty hemi merge nudge.
Proof.
  unfold get_surf, get_surf_depth.
  change (3 + n) with (S (S (S n))).
  destruct (String.eqb hemi "both") eqn:Hh.
  - rewrite (get_surf_fuel_S (S (S n))), (get_surf_fuel_S 2), Hh.
    rewrite !(get_surf_fuel_hemi n) by reflexivity. reflexivity.
  - rewrite (get_surf_fuel_hemi (S n)) by assumption.
    rewrite (get_surf_fuel_hemi 1) by assumption. reflexivity.
Qed.

(** A call for one hemisphere returns one surface, never a pair. *)
Lemma get_surf_fuel_one fuel pkg subj ty hemi merge nudge r :
  String.eqb hemi "both" = false ->
  get_surf_fuel fuel pkg subj ty hemi merge nudge = Ok r ->
  exists p q, r = One p q.
Proof.
  intros Hh. destruct fuel as [|fuel]; simpl; [discriminate|].
  rewrite Hh. intros E. apply not_found_Ok in E.
  destruct (String.eqb ty "fiducial").
  - unfold rbind in E.
    repeat match type of E with
           | match ?x with _ => _ end = _ => destruct x; try discriminate
           end.
    injection E as <-; eauto.
  - eapply stored_surf_one; eauto.
Qed.

(** Whatever the shapes, the fiducial surface is numpy's [(wpts + ppts) / 2]
    with the polygons of the white matter, or the error of the addition. *)
Lemma get_surf_fiducial_numpy pkg subj hemi merge nudge
    (wpts ppts polys polys' : ndarray num) :
  String.eqb hemi "both" = false ->
  get_surf pkg subj "wm" hemi false false = Ok (One wpts polys) ->
  get_surf pkg subj "pia" hemi false false = Ok (One ppts polys') ->
  get_surf pkg subj "fiducial" hemi merge nudge
  = not_found "Subject not found in package"
      (rbind (np_add wpts ppts) (fun s => Ok (One (np_half s) polys))).
Proof.
  intros Hh Hw Hp.
  unfold get_surf, get_surf_depth in *.
  rewrite (get_surf_fuel_stored 2) in Hw, Hp by (assumption || reflexivity).
  rewrite (get_surf_fuel_S 2), Hh. simpl String.eqb. cbv iota.
  rewrite !(get_surf_fuel_stored 1) by (assumption || reflexivity).
  rewrite Hw. simpl. rewrite Hp. simpl.
  destruct (np_add wpts ppts); reflexivity.
Qed.

(** C7. For a hemisphere for which the package holds the white-matter and
    the pial surface, as arrays of one shape, [get_surf(subject, 'fiducial',
    hemi)] returns the average, entry by entry, of the points of 'wm' and
    'pia', together with the polygons of 'wm'. *)
Theorem get_surf_fiducial_average pkg subj hemi merge nudge
    (wpts ppts polys polys' : ndarray num) :
  String.eqb hemi "both" = false ->
  get_surf pkg subj "wm" hemi false false = Ok (One wpts polys) ->
  get_surf pkg subj "pia" hemi false false = Ok (One ppts polys') ->
  same_shape wpts ppts -> wf_array wpts -> wf_array ppts ->
  get_surf pkg subj "fiducial" hemi merge nudge
  = Ok (One (elementwise_average wpts ppts) polys).
Proof.
  intros Hh Hw Hp Hs Hwf Hpf.
  destruct (np_add_half_same_shape Hs Hwf Hpf) as (s & Hadd & Havg).
  unfold get_surf, get_surf_depth in *.
  rewrite (get_surf_fuel_stored 2) in Hw, Hp by (assumption || reflexivity).
  rewrite (get_surf_fuel_S 2), Hh. simpl String.eqb. cbv iota.
  rewrite !(get_surf_fuel_stored 1) by (assumption || reflexivity).
  rewrite Hw. simpl. rewrite Hp. simpl. rewrite Hadd. simpl.
  rewrite Havg. reflexivity.
Qed.

(** C8. For a surface type that [get_surf] finds for both hemispheres,
    [get_surf(subject, type, 'both', merge=True)] returns a point array with
    as many rows as the two hemispheres have points together, and a polygon
    array made of the left polygons followed by the right ones with every
    index raised by the number of left points. *)
Theorem get_surf_both_merged pkg subj ty nudge
    (lpts lpolys rpts rpolys : ndarray num) :
  get_surf pkg subj ty "lh" false nudge = Ok (One lpts lpolys) ->
  get_surf pkg subj ty "rh" false nudge = Ok (One rpts rpolys) ->
  ncols lpts = ncols rpts -> ncols lpolys = ncols rpolys ->
  exists pts polys : ndarray num,
    get_surf pkg subj ty "both" true nudge = Ok (One pts polys)
    /\ array_len pts = array_len lpts + array_len rpts
    /\ rows pts = rows lpts ++ rows rpts
    /\ rows polys
       = rows lpolys
         ++ map (map (fun v => nadd v (nof_nat (array_len lpts)))) (rows rpolys).
Proof.
  intros Hl Hr Hc Hc'.
  unfold get_surf, get_surf_depth in *.
  rewrite (get_surf_fuel_hemi 1) in Hl, Hr by reflexivity.
  rewrite (get_surf_fuel_S 2). simpl String.eqb. cbv iota.
  rewrite Hl, Hr. simpl.
  unfold np_vstack. rewrite Hc, Nat.eqb_refl. simpl.
  rewrite Hc', Nat.eqb_refl. simpl.
  do 2 eexists; split; [reflexivity|].
  unfold array_len; simpl. rewrite length_app. auto.
Qed.

End GetSurfFacts.

(** ** The Dataset *)
Section DatasetFacts.
Context {num Dataview : Type} `{Numeric num} `{Collaborators num Dataview}.

Local Abbreviation value := (pyval Dataview).
Local Abbreviation World := (world num Dataview).
Local Abbreviation archive := (list (string * node num)).
Local Abbreviation globals := (list (string * gobj num Dataview)).

Ltac unfold_monad :=
  unfold bind, ret, raise, lift, try_except, emit, set_auxfile, get_auxfile,
    get_object, set_object, set_view, set_h5, new_dataset, h5py_File,
    read_archive, write_archive in *.

Ltac pair_inv H := first [injection H as ? ? | injection H as ?]; subst.

Lemma quiet_refl P (w : World) : quiet P w w.
Proof.
  repeat split; auto. exists []. rewrite app_nil_r. auto.
Qed.

Lemma quiet_trans P (w1 w2 w3 : World) :
  quiet P w1 w2 -> quiet P w2 w3 -> quiet P w1 w3.
Proof.
  intros (F1 & A1 & L1 & e1 & T1 & P1) (F2 & A2 & L2 & e2 & T2 & P2).
  repeat split; try congruence.
  exists (e1 ++ e2). rewrite T2, T1, app_assoc. split; auto.
  apply Forall_app; auto.
Qed.

Lemma length_list_set {A} i (x : A) l : length (list_set i x l) = length l.
Proof.
  revert i; induction l as [|y l IH]; intros [|i]; simpl; auto.
Qed.

Section Triple.
Variable Inv : World -> Prop.
Variable R : World -> World -> Prop.
Hypothesis R_refl : forall w, R w w.
Hypothesis R_trans : forall w1 w2 w3, R w1 w2 -> R w2 w3 -> R w1 w3.

Lemma triple_weaken {A} (Q Q' : A -> Prop) m :
  triple Inv R Q m -> (forall x, Q x -> Q' x) -> triple Inv R Q' m.
Proof.
  intros Hm HQ w r w' Hi E. destruct (Hm w r w' Hi E) as (Hr & Hi' & Hq).
  auto.
Qed.

Lemma triple_ret {A} (Q : A -> Prop) x : Q x -> triple Inv R Q (ret x).
Proof.
  intros HQ w r w' Hi E. unfold_monad. pair_inv E.
  repeat split; auto. intros y [= <-]. exact HQ.
Qed.

Lemma triple_raise {A} (Q : A -> Prop) e : triple Inv R Q (raise e).
Proof.
  intros w r w' Hi E. unfold_monad. pair_inv E.
  repeat split; auto. discriminate.
Qed.

Lemma triple_lift {A} (r : result A) : triple Inv R (fun x => r = Ok x) (lift r).
Proof.
  intros w r' w' Hi E. unfold_monad. pair_inv E. repeat split; auto.
Qed.

Lemma triple_bind {A B} (Q : A -> Prop) (Q' : B -> Prop) m k :
  triple Inv R Q m -> (forall x, Q x -> triple Inv R Q' (k x)) -> triple Inv R Q' (bind m k).
Proof.
  intros Hm Hk w r w' Hi E. unfold bind in E.
  destruct (m w) as [[x|e] w1] eqn:E1;
    destruct (Hm w _ _ Hi E1) as (Hr & Hi1 & HQ).
  - destruct (Hk x (HQ x eq_refl) w1 r w' Hi1 E) as (Hr' & Hi' & HQ').
    eauto.
  - pair_inv E. repeat split; auto; discriminate.
Qed.

Lemma triple_try {A} (Q : A -> Prop) m catches h :
  triple Inv R Q m -> (forall e, triple Inv R Q (h e)) -> triple Inv R Q (try_except m catches h).
Proof.
  intros Hm Hh w r w' Hi E. unfold try_except in E.
  destruct (m w) as [[x|e] w1] eqn:E1;
    destruct (Hm w _ _ Hi E1) as (Hr & Hi1 & HQ).
  - pair_inv E. auto.
  - destruct (catches e).
    + destruct (Hh e w1 r w' Hi1 E) as (Hr' & Hi' & HQ'). eauto.
    + pair_inv E. repeat split; auto.
Qed.

Lemma triple_for_each {A} (xs : list A) body :
  (forall x, In x xs -> triple Inv R (fun _ => True) (body x)) ->
  triple Inv R (fun _ => True) (for_each xs body).
Proof.
  induction xs as [|x xs IH]; intros Hb; cbn [for_each].
  - apply triple_ret; exact I.
  - eapply triple_bind; [apply Hb; left; reflexivity|].
    intros _ _. apply IH. intros y Hy. apply Hb. right; exact Hy.
Qed.
End Triple.

(** The frame of a load: [db.auxfile] is [a] and stays, files and objects
    are counted as before, and the events satisfy [P]. *)
Local Abbreviation framed a P :=
  (triple (fun w : World => auxfile w = a) (@quiet num Dataview P)).

Lemma quiet_auxfile P a (w w' : World) :
  quiet P w w' -> auxfile w = a -> auxfile w' = a.
Proof. intros (_ & -> & _). auto. Qed.

Lemma framed_bind {A B} a P (Q : A -> Prop) (Q' : B -> Prop) m k :
  framed a P Q m -> (forall x, Q x -> framed a P Q' (k x)) ->
  framed a P Q' (bind m k).
Proof. apply triple_bind. apply quiet_trans. Qed.

Lemma framed_try {A} a P (Q : A -> Prop) m catches h :
  framed a P Q m -> (forall e, framed a P Q (h e)) ->
  framed a P Q (try_except m catches h).
Proof. apply triple_try. apply quiet_trans. Qed.

Lemma framed_weaken {A} a P (Q Q' : A -> Prop) m :
  framed a P Q m -> (forall x, Q x -> Q' x) -> framed a P Q' m.
Proof. apply triple_weaken. Qed.

Lemma framed_ret {A} a P (Q : A -> Prop) x : Q x -> framed a P Q (ret x).
Proof. apply triple_ret. apply quiet_refl. Qed.

Lemma framed_raise {A} a P (Q : A -> Prop) e : framed a P Q (raise e).
Proof. apply triple_raise. apply quiet_refl. Qed.

Lemma framed_lift {A} a P (r : result A) :
  framed a P (fun x => r = Ok x) (lift r).
Proof. apply triple_lift. apply quiet_refl. Qed.

Lemma framed_set_view a P self name v :
  framed a P (fun _ => True) (set_view self name v).
Proof.
  intros w r w' Ha E. unfold_monad. pair_inv E. split; auto.
  repeat split; simpl; auto using length_list_set.
  exists []. rewrite app_nil_r. auto.
Qed.

Lemma framed_emit a (P : event -> Prop) ev :
  P ev -> framed a P (fun _ => True) (emit ev).
Proof.
  intros HP w r w' Ha E. unfold_monad. pair_inv E. split; auto.
  repeat split; simpl; auto. exists [ev]. auto.
Qed.

Lemma framed_read_archive a P fn :
  framed a P (fun _ => True) (read_archive fn).
Proof.
  intros w r w' Ha E. unfold_monad. pair_inv E.
  split; [apply quiet_refl|auto].
Qed.

Lemma framed_get_auxfile a P : framed a P (fun x => x = a) get_auxfile.
Proof.
  intros w r w' Ha E. unfold_monad. injection E as <- <-.
  split; [apply quiet_refl|]. split; auto. intros x [= <-]. exact Ha.
Qed.

Lemma framed_get_object a P self :
  framed a P (fun _ => True) (get_object self).
Proof.
  intros w r w' Ha E. unfold_monad. pair_inv E.
  split; [apply quiet_refl|auto].
Qed.

Ltac framed_step :=
  first
    [ apply framed_set_view
    | apply framed_read_archive
    | eapply framed_weaken; [apply framed_get_object|intros; exact I]
    | apply framed_emit; exact I
    | apply framed_ret; exact I
    | apply framed_raise
    | eapply framed_weaken; [apply framed_lift|intros; exact I]
    | apply framed_try; [|intros ?]
    | eapply framed_bind; [|intros ? ?] ].

Lemma load_stray_framed G ds fn items a :
  framed a (loaded_under a) (fun _ => True) (load_stray G ds fn items).
Proof.
  induction items as [|[name nd] items IH]; cbn [load_stray].
  - apply framed_ret; exact I.
  - eapply framed_bind with (Q := fun _ => True); [|intros; exact IH].
    destruct (reserved name); repeat framed_step.
Qed.

Lemma load_views_framed ds fn items a :
  framed a (loaded_under a) (fun _ => True) (load_views ds fn items).
Proof.
  induction items as [|[name nd] items IH]; cbn [load_views].
  - apply framed_ret; exact I.
  - eapply framed_bind with (Q := fun _ => True); [|intros; exact IH].
    apply framed_try; [|intros e; apply framed_emit; exact I].
    eapply framed_bind; [apply framed_get_auxfile|]. intros aux ->.
    eapply framed_bind with (Q := fun _ => True);
      [apply framed_emit; reflexivity|intros].
    repeat framed_step.
Qed.

(** The bare [except] makes the loop over the views total. *)
Lemma load_views_returns ds fn items w :
  exists w', load_views ds fn items w = (Ok tt, w').
Proof.
  revert w; induction items as [|[name nd] items IH]; intros w;
    cbn [load_views].
  - eexists; reflexivity.
  - unfold bind at 1, try_except at 1.
    match goal with
    | |- context [bind ?m ?k w] => destruct (bind m k w) as [[[]|e] w1]
    end.
    + apply IH.
    + unfold emit at 1. apply IH.
Qed.

Lemma opened_auxfile filename (w : World) :
  auxfile (opened filename w) = Some (length (heap w)).
Proof. reflexivity. Qed.

Lemma opened_trace filename (w : World) :
  trace (opened filename w) = trace w.
Proof.
  unfold opened, h5py_File, new_dataset. simpl.
  destruct (dict_get filename (files w)); reflexivity.
Qed.

(** [from_file], from the two loops on. *)
Lemma from_file_unfold G filename (w : World) :
  from_file G filename w
  = (top <- read_archive filename ;;
     load_stray G (length (heap w)) filename top ;;;
     a <- read_archive filename ;;
     vs <- lift (rbind (h5_getitem (Group a) "views") h5_items) ;;
     load_views (length (heap w)) filename vs ;;;
     set_auxfile None ;;;
     ret (length (heap w))) (opened filename w).
Proof. reflexivity. Qed.

(** C9, as the code has it.  Every call of [Dataview.from_hdf] made by
    [from_file] runs with [db.auxfile] bound to the new Dataset, and on every
    return of [from_file] the binding is [None], also when views failed to
    load; when an exception leaves [from_file] the binding is still set. *)
Theorem from_file_auxfile G filename (w : World) :
  exists res w' evs,
    from_file G filename w = (res, w')
    /\ trace w' = trace w ++ evs
    /\ Forall (loaded_under (Some (length (heap w)))) evs
    /\ auxfile w' = match res with
                    | Ok _ => None
                    | Raise _ => Some (length (heap w))
                    end.
Proof.
  rewrite from_file_unfold.
  set (ds := length (heap w)). set (w0 := opened filename w).
  assert (A0 : auxfile w0 = Some ds) by apply opened_auxfile.
  assert (T0 : trace w0 = trace w) by apply opened_trace.
  unfold bind at 1, read_archive at 1. unfold bind at 1.
  destruct (load_stray G ds filename (archive_of filename w0) w0)
    as [r1 w1] eqn:E1.
  destruct (load_stray_framed G ds filename _ A0 E1)
    as [(F1 & A1 & L1 & evs1 & T1 & P1) _].
  destruct r1 as [[]|e].
  2:{ exists (Raise e), w1, evs1. repeat split; try congruence. }
  unfold bind at 1, read_archive at 1. unfold bind at 1, lift at 1.
  destruct (rbind (h5_getitem (Group (archive_of filename w1)) "views") h5_items)
    as [vs|e].
  2:{ exists (Raise e), w1, evs1. repeat split; try congruence. }
  unfold bind at 1.
  destruct (load_views_returns ds filename vs w1) as [w2 E2]. rewrite E2.
  assert (A1' : auxfile w1 = Some ds) by congruence.
  destruct (load_views_framed ds filename vs A1' E2)
    as [(F2 & A2 & L2 & evs2 & T2 & P2) _].
  exists (Ok ds), (snd (set_auxfile None w2)), (evs1 ++ evs2).
  repeat split.
  - simpl. rewrite T2, T1, T0, app_assoc. reflexivity.
  - apply Forall_app; auto.
Qed.

(** *** [normalize] on a value of no known class *)

(** C5, as the code has it.  On a value that is no Dataset, Dataview, dict,
    str or tuple, [normalize] raises a [TypeError] whose message is the fixed
    text "Unknown input type", whatever the value, and changes nothing. *)
Theorem normalize_unknown_type G tyname repr (w : World) :
  normalize G (POther tyname repr) w
  = (Raise (TypeError "Unknown input type"), w)
  /\ exn_message (TypeError "Unknown input type") = "Unknown input type".
Proof. split; reflexivity. Qed.

(** *** Foreign nodes at the top of a file *)

Lemma opened_archive filename (w : World) :
  archive_of filename (opened filename w) = archive_of filename w.
Proof.
  unfold opened, archive_of, h5py_File, new_dataset. simpl.
  destruct (dict_get filename (files w)) as [kids|] eqn:E; simpl.
  - rewrite E. reflexivity.
  - assert (X : forall (d : list (string * archive)),
               dict_get filename d = None ->
               dict_get filename (d ++ [(filename, [])]) = Some []).
    { induction d as [|[k v] d IH]; simpl.
      - rewrite String.eqb_refl. reflexivity.
      - destruct (String.eqb filename k); [discriminate|exact IH]. }
    rewrite (X _ E). reflexivity.
Qed.

(** With the globals of the module, the first node that is not reserved
    stops the load: the name [_from_hdf_data] is bound nowhere. *)
Lemma load_stray_unbound ds fn (items : archive) (w : World) :
  (exists name, In name (dict_keys items) /\ reserved name = false) ->
  load_stray module_globals ds fn items w
  = (Raise (NameError "_from_hdf_data"), w).
Proof.
  induction items as [|[name nd] items IH]; intros (n & Hin & Hres).
  - destruct Hin.
  - cbn [load_stray]. destruct (reserved name) eqn:Hr.
    + unfold bind at 1, ret at 1. apply IH. exists n. split; auto.
      destruct Hin as [<-|Hin]; [simpl in Hres; congruence|exact Hin].
    + reflexivity.
Qed.

Lemma from_file_stray_raises filename (w : World) :
  (exists name, In name (dict_keys (archive_of filename w))
                /\ reserved name = false) ->
  from_file module_globals filename w
  = (Raise (NameError "_from_hdf_data"), opened filename w).
Proof.
  intros Hs. rewrite from_file_unfold.
  unfold bind at 1, read_archive at 1. rewrite opened_archive.
  unfold bind at 1. rewrite (load_stray_unbound _ _ _ _ Hs). reflexivity.
Qed.

(** *** Dictionaries *)

Lemma dict_get_set_same {V} k (v : V) d : dict_get k (dict_set k v d) = Some v.
Proof.
  induction d as [|[k' v'] d IH]; simpl.
  - now rewrite String.eqb_refl.
  - destruct (String.eqb k k') eqn:E; simpl; rewrite E; auto.
Qed.

Lemma dict_get_set_other {V} k k' (v : V) d :
  k' <> k -> dict_get k' (dict_set k v d) = dict_get k' d.
Proof.
  intros Hne. induction d as [|[k0 v0] d IH]; simpl.
  - apply String.eqb_neq in Hne. now rewrite Hne.
  - destruct (String.eqb k k0) eqn:E; simpl.
    + apply String.eqb_eq in E; subst k0.
      apply String.eqb_neq in Hne. now rewrite Hne.
    + now rewrite IH.
Qed.

Lemma dict_keys_set {V} k (v : V) d k' :
  In k' (dict_keys (dict_set k v d)) <-> k' = k \/ In k' (dict_keys d).
Proof.
  unfold dict_keys. induction d as [|[k0 v0] d IH]; simpl.
  - intuition.
  - destruct (String.eqb k k0) eqn:E; simpl.
    + apply String.eqb_eq in E; subst k0. intuition.
    + rewrite IH. intuition.
Qed.

Lemma dict_set_NoDup {V} k (v : V) d :
  NoDup (dict_keys d) -> NoDup (dict_keys (dict_set k v d)).
Proof.
  unfold dict_keys. induction d as [|[k0 v0] d IH]; simpl; intros Hn.
  - constructor; [intros []|constructor].
  - inversion Hn as [|? ? Hnotin Hn']; subst.
    destruct (String.eqb k k0) eqn:E; simpl.
    + constructor; auto.
    + constructor; auto.
      intros Hin. apply (dict_keys_set k v d k0) in Hin.
      destruct Hin as [->|Hin]; [rewrite String.eqb_refl in E; discriminate|].
      exact (Hnotin Hin).
Qed.

Lemma dict_set_Forall {V} (P : string * V -> Prop) k v d :
  P (k, v) -> (forall k0 v0, In (k0, v0) d -> String.eqb k k0 = true -> P (k0, v)) ->
  Forall P d -> Forall P (dict_set k v d).
Proof.
  intros Hv. induction d as [|[k0 v0] d IH]; simpl; intros Hk Hd.
  - auto.
  - inversion Hd; subst. destruct (String.eqb k k0) eqn:E.
    + constructor; auto. apply (Hk k0 v0); auto.
    + constructor; auto. apply IH; auto. intros; eapply Hk; eauto.
Qed.

Lemma dict_set_values {V} (P : V -> Prop) k v (d : list (string * V)) :
  P v -> Forall (fun kv => P (snd kv)) d ->
  Forall (fun kv => P (snd kv)) (dict_set k v d).
Proof.
  intros Hv Hd. apply dict_set_Forall; auto.
Qed.

Lemma dict_get_In {V} k (v : V) d :
  NoDup (dict_keys d) -> (In (k, v) d <-> dict_get k d = Some v).
Proof.
  unfold dict_keys. induction d as [|[k0 v0] d IH]; simpl; intros Hn.
  - split; [intros []|discriminate].
  - inversion Hn as [|? ? Hnotin Hn']; subst.
    destruct (String.eqb k k0) eqn:E.
    + apply String.eqb_eq in E; subst k0. split.
      * intros [[= <-]|Hin]; auto.
        exfalso. apply Hnotin. apply (in_map fst) in Hin. exact Hin.
      * intros [= <-]. auto.
    + rewrite <- (IH Hn'). split; [|auto].
      intros [[= <- <-]|Hin]; auto.
      rewrite String.eqb_refl in E. discriminate.
Qed.

Lemma dict_get_Some_In {V} k (v : V) d : dict_get k d = Some v -> In (k, v) d.
Proof.
  induction d as [|[k0 v0] d IH]; simpl; [discriminate|].
  destruct (String.eqb k k0) eqn:E; auto.
  apply String.eqb_eq in E; subst. intros [= <-]. auto.
Qed.

Lemma dict_get_None {V} k (d : list (string * V)) :
  dict_get k d = None <-> ~ In k (dict_keys d).
Proof.
  unfold dict_keys. induction d as [|[k0 v0] d IH]; simpl.
  - intuition.
  - destruct (String.eqb k k0) eqn:E.
    + apply String.eqb_eq in E; subst. split; [discriminate|intuition].
    + apply String.eqb_neq in E. rewrite IH. intuition.
Qed.

Lemma dict_update_keys {V} (d e : list (string * V)) k :
  In k (dict_keys (dict_update d e)) <-> In k (dict_keys d) \/ In k (dict_keys e).
Proof.
  unfold dict_update. revert d.
  induction e as [|[k0 v0] e IH]; intros d; simpl.
  - intuition.
  - rewrite IH, dict_keys_set. simpl. intuition.
Qed.

Lemma dict_update_NoDup {V} (d e : list (string * V)) :
  NoDup (dict_keys d) -> NoDup (dict_keys (dict_update d e)).
Proof.
  unfold dict_update. revert d.
  induction e as [|[k0 v0] e IH]; intros d Hd; simpl; auto.
  apply IH. apply dict_set_NoDup. exact Hd.
Qed.

Lemma dict_update_values {V} (P : V -> Prop) (d e : list (string * V)) :
  Forall (fun kv => P (snd kv)) d -> Forall (fun kv => P (snd kv)) e ->
  Forall (fun kv => P (snd kv)) (dict_update d e).
Proof.
  unfold dict_update. intros Hd He; revert d Hd.
  induction He as [|[k0 v0] e Hkv He IH]; intros d Hd; simpl; auto.
  apply IH. apply dict_set_values; auto.
Qed.

(** [d.update(e)]: a key of [e] gets the value it has in [e], and every
    other key keeps its value. *)
Lemma dict_update_get {V} (d e : list (string * V)) k :
  NoDup (dict_keys e) ->
  dict_get k (dict_update d e)
  = match dict_get k e with
    | Some v => Some v
    | None => dict_get k d
    end.
Proof.
  unfold dict_update, dict_keys. revert d.
  induction e as [|[k0 v0] e IH]; intros d Hn; simpl; auto.
  inversion Hn as [|? ? Hnotin Hn']; subst.
  rewrite (IH _ Hn').
  destruct (String.eqb k k0) eqn:E.
  - apply String.eqb_eq in E; subst k0.
    apply dict_get_None in Hnotin. rewrite Hnotin.
    apply dict_get_set_same.
  - apply String.eqb_neq in E.
    destruct (dict_get k e); auto. apply dict_get_set_other; auto.
Qed.

(** The members of a group, set by name. *)
Lemma dict_get_None_keys {V} k (d : list (string * V)) :
  dict_get k d = None -> ~ In k (dict_keys d).
Proof.
  induction d as [|[k' v'] d IH]; simpl; [auto|].
  destruct (String.eqb k k') eqn:E; [discriminate|].
  intros Hd [Heq|Hin]; [|exact (IH Hd Hin)].
  subst k'. rewrite String.eqb_refl in E. discriminate.
Qed.

Lemma insert_by_name_get_same {V} k (v : V) d :
  dict_get k d = None -> dict_get k (insert_by_name k v d) = Some v.
Proof.
  induction d as [|[k' v'] d IH]; simpl.
  - now rewrite String.eqb_refl.
  - destruct (String.eqb k k') eqn:E; [discriminate|]. intros Hd.
    destruct (String.ltb k k'); simpl.
    + now rewrite String.eqb_refl.
    + rewrite E. exact (IH Hd).
Qed.

Lemma insert_by_name_get_other {V} k k' (v : V) d :
  k' <> k -> dict_get k' (insert_by_name k v d) = dict_get k' d.
Proof.
  intros Hne. apply String.eqb_neq in Hne.
  induction d as [|[k0 v0] d IH]; simpl.
  - now rewrite Hne.
  - destruct (String.ltb k k0); simpl.
    + now rewrite Hne.
    + now rewrite IH.
Qed.

Lemma insert_by_name_In {V} k (v : V) d x :
  In x (insert_by_name k v d) <-> x = (k, v) \/ In x d.
Proof.
  induction d as [|[k0 v0] d IH]; simpl.
  - intuition.
  - destruct (String.ltb k k0); simpl; [intuition|].
    rewrite IH. intuition.
Qed.

Lemma group_get_set_same {V} k (v : V) d :
  dict_get k (group_set k v d) = Some v.
Proof.
  unfold group_set. destruct (dict_get k d) eqn:E.
  - apply dict_get_set_same.
  - apply insert_by_name_get_same. exact E.
Qed.

Lemma group_get_set_other {V} k k' (v : V) d :
  k' <> k -> dict_get k' (group_set k v d) = dict_get k' d.
Proof.
  intros Hne. unfold group_set. destruct (dict_get k d).
  - apply dict_get_set_other. exact Hne.
  - apply insert_by_name_get_other. exact Hne.
Qed.

Lemma group_keys_set {V} k (v : V) d k' :
  In k' (dict_keys (group_set k v d)) <-> k' = k \/ In k' (dict_keys d).
Proof.
  unfold group_set. destruct (dict_get k d); [apply dict_keys_set|].
  unfold dict_keys. rewrite !in_map_iff. split.
  - intros ([a b] & <- & Hin). apply insert_by_name_In in Hin.
    destruct Hin as [[= -> ->]|Hin]; [left; reflexivity|].
    right. exists (a, b). auto.
  - intros [->|([a b] & <- & Hin)].
    + exists (k, v). split; [reflexivity|]. apply insert_by_name_In. auto.
    + exists (a, b). split; [reflexivity|]. apply insert_by_name_In. auto.
Qed.

Lemma insert_by_name_NoDup {V} k (v : V) d :
  ~ In k (dict_keys d) -> NoDup (dict_keys d) ->
  NoDup (dict_keys (insert_by_name k v d)).
Proof.
  unfold dict_keys. induction d as [|[k0 v0] d IH]; simpl; intros Hk Hn.
  - repeat constructor. auto.
  - inversion Hn as [|? ? Hk0 Hn']; subst.
    destruct (String.ltb k k0); simpl.
    + constructor; [exact Hk|exact Hn].
    + constructor.
      * rewrite in_map_iff. intros ([a b] & E & Hin). simpl in E. subst a.
        apply insert_by_name_In in Hin. destruct Hin as [[= -> _]|Hin].
        -- apply Hk. left; reflexivity.
        -- apply Hk0. apply (in_map fst) in Hin. exact Hin.
      * apply IH; [|exact Hn']. intros Hin. apply Hk. right; exact Hin.
Qed.

Lemma group_set_NoDup {V} k (v : V) d :
  NoDup (dict_keys d) -> NoDup (dict_keys (group_set k v d)).
Proof.
  intros Hn. unfold group_set. destruct (dict_get k d) eqn:E.
  - apply dict_set_NoDup. exact Hn.
  - apply insert_by_name_NoDup; [|exact Hn]. apply dict_get_None_keys. exact E.
Qed.

(** *** Every entry of [views] is a Dataview *)

(** The step keeps every Dataset a dictionary of Dataviews, and drops no
    object. *)
Local Abbreviation keeps :=
  (triple (@views_are_dataviews num Dataview) (@grows num Dataview)).

Lemma grows_refl (w : World) : grows w w.
Proof. unfold grows; lia. Qed.

Lemma grows_trans (w1 w2 w3 : World) :
  grows w1 w2 -> grows w2 w3 -> grows w1 w3.
Proof. unfold grows; lia. Qed.

Lemma keeps_bind {A B} (Q : A -> Prop) (Q' : B -> Prop) m k :
  keeps Q m -> (forall x, Q x -> keeps Q' (k x)) -> keeps Q' (bind m k).
Proof. apply triple_bind. apply grows_trans. Qed.

Lemma keeps_try {A} (Q : A -> Prop) m catches h :
  keeps Q m -> (forall e, keeps Q (h e)) -> keeps Q (try_except m catches h).
Proof. apply triple_try. apply grows_trans. Qed.

Lemma keeps_weaken {A} (Q Q' : A -> Prop) m :
  keeps Q m -> (forall x, Q x -> Q' x) -> keeps Q' m.
Proof. apply triple_weaken. Qed.

Lemma keeps_ret {A} (Q : A -> Prop) x : Q x -> keeps Q (ret x).
Proof. apply triple_ret. apply grows_refl. Qed.

Lemma keeps_raise {A} (Q : A -> Prop) e : keeps Q (raise e).
Proof. apply triple_raise. apply grows_refl. Qed.

Lemma keeps_lift {A} (r : result A) : keeps (fun x => r = Ok x) (lift r).
Proof. apply triple_lift. apply grows_refl. Qed.

Lemma object_dataview_entries r (w : World) :
  views_are_dataviews w -> dataview_entries (object r w).
Proof.
  intros Hw. unfold object.
  destruct (Nat.lt_ge_cases r (length (heap w))) as [Hlt|Hge].
  - eapply Forall_forall in Hw; [exact Hw|]. apply nth_In. exact Hlt.
  - rewrite nth_overflow by exact Hge. constructor.
Qed.

Lemma Forall_list_set {A} (P : A -> Prop) i x l :
  P x -> Forall P l -> Forall P (list_set i x l).
Proof.
  intros Hx Hl; revert i.
  induction Hl as [|y l Hy Hl IH]; intros [|i]; simpl; auto.
Qed.

Lemma keeps_get_object r : keeps dataview_entries (get_object r).
Proof.
  intros w res w' Hw E. unfold_monad. pair_inv E.
  repeat split; auto using grows_refl.
  intros x [= <-]. apply object_dataview_entries. exact Hw.
Qed.

Lemma keeps_set_object self o :
  dataview_entries o -> keeps (fun _ => True) (set_object self o).
Proof.
  intros Ho w res w' Hw E. unfold_monad. pair_inv E.
  repeat split; auto.
  - unfold grows; simpl. rewrite length_list_set. lia.
  - unfold views_are_dataviews; simpl. apply Forall_list_set; auto.
Qed.

Lemma keeps_set_view self name v :
  is_dataview v -> keeps (fun _ => True) (set_view self name v).
Proof.
  intros Hv. unfold set_view.
  eapply keeps_bind; [apply keeps_get_object|]. intros o Ho.
  apply keeps_set_object. unfold dataview_entries; simpl.
  apply dict_set_values; auto.
Qed.

Lemma keeps_set_h5 self handle : keeps (fun _ => True) (set_h5 self handle).
Proof.
  unfold set_h5.
  eapply keeps_bind; [apply keeps_get_object|]. intros o Ho.
  apply keeps_set_object. exact Ho.
Qed.

Lemma keeps_new_dataset : keeps (fun _ => True) new_dataset.
Proof.
  intros w res w' Hw E. unfold_monad. pair_inv E.
  repeat split; auto.
  - unfold grows; simpl. rewrite length_app. lia.
  - unfold views_are_dataviews; simpl. apply Forall_app.
    split; auto; repeat constructor.
Qed.

Lemma keeps_heap_same {A} (m : M A) :
  (forall w, heap (snd (m w)) = heap w) -> keeps (fun _ => True) m.
Proof.
  intros Hm w res w' Hw E. specialize (Hm w). rewrite E in Hm. simpl in Hm.
  unfold grows, views_are_dataviews. rewrite Hm. auto.
Qed.

Lemma keeps_h5py_File fn : keeps (fun _ => True) (h5py_File fn).
Proof.
  apply keeps_heap_same. intros w. unfold h5py_File; simpl.
  destruct (dict_get fn (files w)); reflexivity.
Qed.

Lemma keeps_emit ev : keeps (fun _ => True) (emit ev).
Proof. apply keeps_heap_same. reflexivity. Qed.

Lemma keeps_set_auxfile a : keeps (fun _ => True) (set_auxfile a).
Proof. apply keeps_heap_same. reflexivity. Qed.

Lemma keeps_get_auxfile : keeps (fun _ => True) get_auxfile.
Proof. apply keeps_heap_same. reflexivity. Qed.

Lemma keeps_read_archive fn : keeps (fun _ => True) (read_archive fn).
Proof. apply keeps_heap_same. reflexivity. Qed.

Lemma keeps_write_archive fn a : keeps (fun _ => True) (write_archive fn a).
Proof. apply keeps_heap_same. reflexivity. Qed.

Ltac keeps_step :=
  first
    [ apply keeps_set_view; solve [simpl; auto]
    | apply keeps_set_h5
    | apply keeps_new_dataset
    | apply keeps_emit
    | apply keeps_set_auxfile
    | apply keeps_read_archive
    | apply keeps_write_archive
    | eapply keeps_weaken; [apply keeps_get_auxfile|intros; exact I]
    | eapply keeps_weaken; [apply keeps_h5py_File|intros; exact I]
    | apply keeps_ret; exact I
    | apply keeps_raise
    | eapply keeps_weaken; [apply keeps_lift|intros; exact I]
    | apply keeps_try; [|intros ?]
    | eapply keeps_bind; [|intros ? ?] ].

Lemma stray_ok_module : stray_ok (@module_globals num Dataview).
Proof. intros g a n v E. discriminate E. Qed.

Lemma keeps_load_stray G ds fn items :
  stray_ok G -> keeps (fun _ => True) (load_stray G ds fn items).
Proof.
  intros HG. induction items as [|[name nd] items IH]; cbn [load_stray].
  - apply keeps_ret; exact I.
  - eapply keeps_bind with (Q := fun _ => True); [|intros; exact IH].
    destruct (reserved name); [apply keeps_ret; exact I|].
    apply keeps_try; [|intros e; apply keeps_emit].
    eapply keeps_bind; [apply keeps_lift|]. intros f Hf.
    eapply keeps_bind; [apply keeps_read_archive|]. intros a _.
    eapply keeps_bind; [apply keeps_lift|]. intros v Hv.
    apply keeps_set_view.
    destruct f as [|inst|g]; try discriminate Hv.
    eapply HG; eauto.
Qed.

Lemma keeps_load_views ds fn items :
  keeps (fun _ => True) (load_views ds fn items).
Proof.
  induction items as [|[name nd] items IH]; cbn [load_views].
  - apply keeps_ret; exact I.
  - eapply keeps_bind with (Q := fun _ => True); [|intros; exact IH].
    repeat keeps_step.
Qed.

Lemma keeps_from_file G fn :
  stray_ok G -> keeps (fun _ => True) (from_file G fn).
Proof.
  intros HG. unfold from_file.
  eapply keeps_bind; [apply keeps_new_dataset|]. intros ds _.
  eapply keeps_bind; [apply keeps_h5py_File|]. intros handle _.
  eapply keeps_bind; [apply keeps_set_h5|]. intros _ _.
  eapply keeps_bind; [apply keeps_set_auxfile|]. intros _ _.
  eapply keeps_bind; [apply keeps_read_archive|]. intros top _.
  eapply keeps_bind; [apply keeps_load_stray; exact HG|]. intros _ _.
  eapply keeps_bind; [apply keeps_read_archive|]. intros a _.
  eapply keeps_bind; [apply keeps_lift|]. intros vs _.
  eapply keeps_bind; [apply keeps_load_views|]. intros _ _.
  eapply keeps_bind; [apply keeps_set_auxfile|]. intros _ _.
  apply keeps_ret; exact I.
Qed.

(** [append] returns [self], whatever normalizer it runs. *)
Lemma keeps_append_with norm self kwargs :
  Forall (fun kv => keeps (fun _ => True) (norm (snd kv))) kwargs ->
  keeps (fun x => x = self) (append_with norm self kwargs).
Proof.
  induction 1 as [|[name data] kwargs Hn Hk IH]; cbn [append_with].
  - apply keeps_ret; reflexivity.
  - eapply keeps_bind; [exact Hn|]. intros n _.
    destruct n; try apply keeps_raise.
    + eapply keeps_bind; [apply keeps_set_view; exact I|]. intros _ _. exact IH.
    + eapply keeps_bind; [apply keeps_get_object|]. intros other Hother.
      eapply keeps_bind; [apply keeps_get_object|]. intros o Ho.
      eapply keeps_bind; [|intros _ _; exact IH].
      apply keeps_set_object. unfold dataview_entries; simpl.
      apply dict_update_values; auto.
Qed.

(** Induction on values, through the items of a dictionary. *)
Lemma pyval_items_ind (P : value -> Prop) :
  (forall dv, P (PDataview dv)) ->
  (forall r, P (PDataset r)) ->
  (forall items, Forall (fun kv => P (snd kv)) items -> P (PDict items)) ->
  (forall s, P (PStr s)) ->
  (forall elts, P (PTuple elts)) ->
  (forall t r, P (POther t r)) ->
  forall v, P v.
Proof.
  intros Hdv Hds Hdict Hstr Htup Hoth.
  fix rec 1. intros [dv|r|items|s|elts|t r].
  - apply Hdv.
  - apply Hds.
  - apply Hdict. induction items as [|[k v] items IH]; constructor.
    + simpl. apply rec.
    + exact IH.
  - apply Hstr.
  - apply Htup.
  - apply Hoth.
Qed.

Lemma keeps_unpack_kwargs (d : list (string * value)) :
  keeps (fun _ => True) (unpack_kwargs d).
Proof.
  unfold unpack_kwargs. destruct (takes_self d);
    [apply keeps_raise|apply keeps_ret; exact I].
Qed.

Lemma keeps_normalize G data :
  stray_ok G -> keeps (fun _ => True) (normalize G data).
Proof.
  intros HG. induction data as [dv|r|items IH|s|elts|t r] using pyval_items_ind;
    cbn [normalize].
  - apply keeps_ret; exact I.
  - apply keeps_ret; exact I.
  - eapply keeps_bind; [apply keeps_unpack_kwargs|]. intros _ _.
    eapply keeps_bind; [apply keeps_new_dataset|]. intros ds _.
    eapply keeps_bind; [apply keeps_append_with; exact IH|]. intros _ _.
    apply keeps_ret; exact I.
  - eapply keeps_bind; [apply keeps_from_file; exact HG|]. intros ds _.
    apply keeps_ret; exact I.
  - eapply keeps_weaken; [apply keeps_lift|intros; exact I].
  - apply keeps_raise.
Qed.

Lemma keeps_append G self kwargs :
  stray_ok G -> keeps (fun x => x = self) (append G self kwargs).
Proof.
  intros HG. apply keeps_append_with.
  apply Forall_forall. intros kv _. apply keeps_normalize. exact HG.
Qed.

(** *** [append], pair by pair *)

Lemma nth_list_set_same {A} i (x d : A) l :
  i < length l -> nth i (list_set i x l) d = x.
Proof.
  revert i; induction l as [|y l IH]; intros [|i] Hi; simpl in *;
    try lia; auto. apply IH. lia.
Qed.

Lemma nth_list_set_other {A} i j (x d : A) l :
  i <> j -> nth j (list_set i x l) d = nth j l d.
Proof.
  revert i j; induction l as [|y l IH]; intros [|i] [|j] Hne; simpl;
    try congruence; auto.
Qed.

(** *** Sequences of steps *)

Lemma bind_Ok {A B} (m : M A) (k : A -> M B) (w w' : World) b :
  bind m k w = (Ok b, w') ->
  exists a w1, m w = (Ok a, w1) /\ k a w1 = (Ok b, w').
Proof.
  unfold bind. destruct (m w) as [[a|e] w1]; [eauto|discriminate].
Qed.

Lemma lift_Ok {A} (r : result A) (w w' : World) a :
  lift r w = (Ok a, w') -> r = Ok a /\ w' = w.
Proof. unfold lift. intros [= -> ->]. auto. Qed.

Lemma bind_ext {A B} (m : M A) (k1 k2 : A -> M B) (w : World) :
  (forall a w1, m w = (Ok a, w1) -> k1 a w1 = k2 a w1) ->
  bind m k1 w = bind m k2 w.
Proof.
  intros Hk. unfold bind. destruct (m w) as [[a|e] w1]; [|reflexivity].
  apply Hk. reflexivity.
Qed.

Lemma bind_assoc {A B C} (m : M A) (k : A -> M B) (k' : B -> M C) (w : World) :
  bind (bind m k) k' w = bind m (fun x => bind (k x) k') w.
Proof. unfold bind. destruct (m w) as [[a|e] w1]; reflexivity. Qed.

(** *** The objects that [normalize] and [append] spare *)

Local Abbreviation spares n self :=
  (triple (fun w : World => n <= length (heap w)) (@spared num Dataview n self)).

Lemma spared_refl n self (w : World) : spared n self w w.
Proof. split; auto. Qed.

Lemma spared_trans n self (w1 w2 w3 : World) :
  spared n self w1 w2 -> spared n self w2 w3 -> spared n self w1 w3.
Proof.
  intros (L1 & O1) (L2 & O2). split; [lia|].
  intros r Hr Hne. rewrite O2, O1; auto.
Qed.

Lemma spares_bind {A B} n self (Q : A -> Prop) (Q' : B -> Prop) m k :
  spares n self Q m -> (forall x, Q x -> spares n self Q' (k x)) ->
  spares n self Q' (bind m k).
Proof. apply triple_bind. apply spared_trans. Qed.

Lemma spares_try {A} n self (Q : A -> Prop) m catches h :
  spares n self Q m -> (forall e, spares n self Q (h e)) ->
  spares n self Q (try_except m catches h).
Proof. apply triple_try. apply spared_trans. Qed.

Lemma spares_weaken {A} n self (Q Q' : A -> Prop) m :
  spares n self Q m -> (forall x, Q x -> Q' x) -> spares n self Q' m.
Proof. apply triple_weaken. Qed.

(** A step that leaves the objects alone. *)
Lemma spares_same_heap {A} n self (m : M A) :
  (forall w, heap (snd (m w)) = heap w) -> spares n self (fun _ => True) m.
Proof.
  intros Hm w r w' Hn E. pose proof (Hm w) as Hh. rewrite E in Hh.
  simpl in Hh. unfold spared, object. rewrite Hh. auto.
Qed.

Lemma spares_new_dataset n self : spares n self (fun ds => n <= ds) new_dataset.
Proof.
  intros w r w' Hn E. unfold new_dataset in E. injection E as <- <-.
  unfold spared, object; simpl. rewrite length_app; simpl.
  repeat split; try lia.
  - intros r Hr _. apply app_nth1. lia.
  - intros x [= <-]. exact Hn.
Qed.

Lemma spares_set_object n self x o :
  x = self \/ n <= x -> spares n self (fun _ => True) (set_object x o).
Proof.
  intros Hx w r w' Hn E. unfold set_object in E. injection E as <- <-.
  unfold spared, object; simpl. rewrite length_list_set.
  repeat split; auto.
  intros r Hr Hne. apply nth_list_set_other. destruct Hx; [congruence|lia].
Qed.

Lemma spares_set_view n self x name v :
  x = self \/ n <= x -> spares n self (fun _ => True) (set_view x name v).
Proof.
  intros Hx. unfold set_view.
  eapply spares_bind; [apply spares_same_heap; reflexivity|].
  intros o _. apply spares_set_object, Hx.
Qed.

Lemma spares_set_h5 n self x handle :
  x = self \/ n <= x -> spares n self (fun _ => True) (set_h5 x handle).
Proof.
  intros Hx. unfold set_h5.
  eapply spares_bind; [apply spares_same_heap; reflexivity|].
  intros o _. apply spares_set_object, Hx.
Qed.

Lemma spares_h5py_File n self fn :
  spares n self (fun _ => True) (h5py_File fn).
Proof.
  apply spares_same_heap. intros w. unfold h5py_File; simpl.
  destruct (dict_get fn (files w)); reflexivity.
Qed.

Ltac spares_step Hx :=
  first
    [ apply spares_set_view; exact Hx
    | apply spares_set_h5; exact Hx
    | apply spares_h5py_File
    | apply spares_same_heap; reflexivity
    | apply spares_try; [|intros ?]
    | eapply spares_bind with (Q := fun _ => True); [|intros ? _] ].

Lemma spares_load_stray n self G ds fn (items : archive) :
  ds = self \/ n <= ds ->
  spares n self (fun _ => True) (load_stray G ds fn items).
Proof.
  intros Hx. induction items as [|[name nd] items IH]; cbn [load_stray].
  - apply spares_same_heap; reflexivity.
  - eapply spares_bind with (Q := fun _ => True); [|intros; exact IH].
    destruct (reserved name); repeat spares_step Hx.
Qed.

Lemma spares_load_views n self ds fn (items : archive) :
  ds = self \/ n <= ds ->
  spares n self (fun _ => True) (load_views ds fn items).
Proof.
  intros Hx. induction items as [|[name nd] items IH]; cbn [load_views].
  - apply spares_same_heap; reflexivity.
  - eapply spares_bind with (Q := fun _ => True); [|intros; exact IH].
    repeat spares_step Hx.
Qed.

Lemma spares_from_file n self G fn :
  spares n self (fun _ => True) (from_file G fn).
Proof.
  unfold from_file.
  eapply spares_bind; [apply spares_new_dataset|]. intros ds Hds.
  assert (Hx : ds = self \/ n <= ds) by (right; exact Hds).
  eapply spares_bind with (Q := fun _ => True);
    [apply spares_h5py_File|intros handle _].
  eapply spares_bind with (Q := fun _ => True);
    [apply spares_set_h5; exact Hx|intros _ _].
  eapply spares_bind with (Q := fun _ => True);
    [apply spares_same_heap; reflexivity|intros _ _].
  eapply spares_bind with (Q := fun _ => True);
    [apply spares_same_heap; reflexivity|intros top _].
  eapply spares_bind with (Q := fun _ => True);
    [apply spares_load_stray; exact Hx|intros _ _].
  eapply spares_bind with (Q := fun _ => True);
    [apply spares_same_heap; reflexivity|intros a _].
  eapply spares_bind with (Q := fun _ => True);
    [apply spares_same_heap; reflexivity|intros vs _].
  eapply spares_bind with (Q := fun _ => True);
    [apply spares_load_views; exact Hx|intros _ _].
  eapply spares_bind with (Q := fun _ => True);
    [apply spares_same_heap; reflexivity|intros _ _].
  apply spares_same_heap; reflexivity.
Qed.

Lemma spares_append_with n self norm x kwargs :
  x = self \/ n <= x ->
  Forall (fun kv => spares n self (fun _ => True) (norm (snd kv))) kwargs ->
  spares n self (fun _ => True) (append_with norm x kwargs).
Proof.
  intros Hx. induction 1 as [|[name data] kwargs Hn Hk IH]; cbn [append_with].
  - apply spares_same_heap; reflexivity.
  - eapply spares_bind; [exact Hn|]. intros v _.
    destruct v; try (apply spares_same_heap; reflexivity).
    + eapply spares_bind with (Q := fun _ => True);
        [apply spares_set_view; exact Hx|intros _ _; exact IH].
    + eapply spares_bind with (Q := fun _ => True);
        [apply spares_same_heap; reflexivity|intros other _].
      eapply spares_bind with (Q := fun _ => True);
        [apply spares_same_heap; reflexivity|intros o _].
      eapply spares_bind with (Q := fun _ => True);
        [apply spares_set_object; exact Hx|intros _ _; exact IH].
Qed.

Lemma spares_normalize n self G data :
  spares n self (fun _ => True) (normalize G data).
Proof.
  induction data as [dv|r|items IH|s|elts|t r] using pyval_items_ind;
    cbn [normalize]; try (apply spares_same_heap; reflexivity).
  - eapply spares_bind with (Q := fun _ => True).
    { apply spares_same_heap. intros w. unfold unpack_kwargs.
      destruct (takes_self items); reflexivity. }
    intros _ _.
    eapply spares_bind; [apply spares_new_dataset|]. intros ds Hds.
    eapply spares_bind with (Q := fun _ => True);
      [|intros _ _; apply spares_same_heap; reflexivity].
    apply spares_append_with; [right; exact Hds|exact IH].
  - eapply spares_bind with (Q := fun _ => True);
      [apply spares_from_file|intros ds _].
    apply spares_same_heap; reflexivity.
Qed.

(** [normalize] makes new objects and changes none of those it finds. *)
Lemma normalize_frame G data (w w1 : World) r :
  normalize G data w = (r, w1) ->
  length (heap w) <= length (heap w1)
  /\ forall r0, r0 < length (heap w) -> object r0 w1 = object r0 w.
Proof.
  intros E.
  destruct (@spares_normalize (length (heap w)) (length (heap w)) G data
              w r w1 (le_n _) E) as ((L & O) & _).
  split; [exact L|]. intros r0 Hr. apply O; lia.
Qed.

(** [append] changes no object but [self]. *)
Lemma append_frame G self kwargs (w w' : World) r :
  append G self kwargs w = (r, w') ->
  length (heap w) <= length (heap w')
  /\ forall r0, r0 < length (heap w) -> r0 <> self ->
                object r0 w' = object r0 w.
Proof.
  intros E.
  assert (Hs : spares (length (heap w)) self (fun _ => True)
                 (append G self kwargs)).
  { apply spares_append_with; [left; reflexivity|].
    apply Forall_forall. intros kv _. apply spares_normalize. }
  destruct (Hs w r w' (le_n _) E) as ((L & O) & _). auto.
Qed.

Lemma object_with_views self vs (w : World) :
  self < length (heap w) ->
  object self (with_views self vs w) = mkDataset (h5 (object self w)) vs.
Proof. intros Hlt. unfold object, with_views; simpl. now apply nth_list_set_same. Qed.

Lemma object_with_views_other self r vs (w : World) :
  self <> r -> object r (with_views self vs w) = object r w.
Proof. intros Hne. unfold object, with_views; simpl. now apply nth_list_set_other. Qed.

Lemma set_view_with_views self name v (w : World) :
  set_view self name v w
  = (Ok tt, with_views self (dict_set name v (views (object self w))) w).
Proof. reflexivity. Qed.

Lemma append_cons_dataview G self name data rest dv (w w1 : World) :
  normalize G data w = (Ok (PDataview dv), w1) ->
  append G self ((name, data) :: rest) w
  = append G self rest
      (with_views self (dict_set name (PDataview dv) (views (object self w1))) w1).
Proof.
  intros E. unfold append. cbn [append_with]. unfold bind at 1. rewrite E.
  reflexivity.
Qed.

Lemma append_cons_dataset G self name data rest r (w w1 : World) :
  normalize G data w = (Ok (PDataset r), w1) ->
  append G self ((name, data) :: rest) w
  = append G self rest
      (with_views self
         (dict_update (views (object self w1)) (views (object r w1))) w1).
Proof.
  intros E. unfold append. cbn [append_with]. unfold bind at 1. rewrite E.
  reflexivity.
Qed.

(** C3. For a name/value pair passed to [append], whatever follows it.
    [normalize] changes no object that exists.  When the value normalizes to
    a Dataview, [append] of the pair returns [self] with the Dataview
    stored under the name, replacing what the name held and nothing else;
    when it normalizes to a Dataset, [append] returns [self] with the views
    of that Dataset merged under their own names, the name of the pair
    playing no part; in both cases no other object is changed and the pairs
    that follow are appended to that state.  When the value cannot be
    normalized, or normalizes to something else, [append] raises and stores
    nothing.  On an empty list [append] returns [self] and changes nothing.
    After any [append] every entry of every [views] is a Dataview, and what
    [append] returns is [self]. *)
Theorem append_pair self name data rest r (w w1 : World) :
  views_are_dataviews w -> self < length (heap w) ->
  normalize module_globals data w = (r, w1) ->
  let w' := snd (append module_globals self [(name, data)] w) in
  append module_globals self [] w = (Ok self, w)
  /\ (forall r0, r0 < length (heap w) -> object r0 w1 = object r0 w)
  /\ match r with
     | Ok (PDataview dv) =>
         fst (append module_globals self [(name, data)] w) = Ok self
         /\ append module_globals self ((name, data) :: rest) w
            = append module_globals self rest w'
         /\ views (object self w')
            = dict_set name (PDataview dv) (views (object self w))
         /\ dict_get name (views (object self w')) = Some (PDataview dv)
         /\ (forall k, k <> name ->
               dict_get k (views (object self w'))
               = dict_get k (views (object self w)))
         /\ (forall r0, r0 <> self -> object r0 w' = object r0 w1)
     | Ok (PDataset d) =>
         fst (append module_globals self [(name, data)] w) = Ok self
         /\ append module_globals self ((name, data) :: rest) w
            = append module_globals self rest w'
         /\ views (object self w')
            = dict_update (views (object self w)) (views (object d w1))
         /\ (forall k, In k (dict_keys (views (object self w')))
                       <-> In k (dict_keys (views (object self w)))
                           \/ In k (dict_keys (views (object d w1))))
         /\ (NoDup (dict_keys (views (object d w1))) ->
             forall k, dict_get k (views (object self w'))
                       = match dict_get k (views (object d w1)) with
                         | Some v => Some v
                         | None => dict_get k (views (object self w))
                         end)
         /\ (forall r0, r0 <> self -> object r0 w' = object r0 w1)
     | Ok _ =>
         append module_globals self ((name, data) :: rest) w
         = (Raise (ValueError ("Unknown input " ++ name ++ "="
                               ++ py_repr data)), w1)
     | Raise e =>
         append module_globals self ((name, data) :: rest) w = (Raise e, w1)
     end
  /\ views_are_dataviews
       (snd (append module_globals self ((name, data) :: rest) w))
  /\ (forall x,
        fst (append module_globals self ((name, data) :: rest) w) = Ok x ->
        x = self).
Proof.
  intros Hw Hself E w'.
  pose proof E as Efr. apply normalize_frame in Efr.
  destruct Efr as (Hlen & Hold).
  assert (Hself1 : self < length (heap w1)) by lia.
  assert (Eviews : views (object self w1) = views (object self w))
    by (rewrite Hold by exact Hself; reflexivity).
  split; [reflexivity|]. split; [exact Hold|]. split; [|split].
  - destruct r as [[dv|d| | | |]|e];
      try (unfold append; cbn [append_with]; unfold bind at 1; rewrite E;
           reflexivity).
    + assert (E1 : append module_globals self [(name, data)] w
                   = (Ok self,
                      with_views self
                        (dict_set name (PDataview dv) (views (object self w1)))
                        w1)).
      { rewrite append_cons_dataview with (dv := dv) (w1 := w1);
          [reflexivity|exact E]. }
      subst w'. rewrite E1. simpl fst. simpl snd.
      rewrite !object_with_views by exact Hself1. simpl views.
      rewrite Eviews.
      split; [reflexivity|].
      split; [rewrite <- Eviews; apply append_cons_dataview; exact E|].
      split; [reflexivity|].
      split; [apply dict_get_set_same|].
      split; [intros k Hk; apply dict_get_set_other; exact Hk|].
      intros r0 Hne. apply object_with_views_other. congruence.
    + assert (E1 : append module_globals self [(name, data)] w
                   = (Ok self,
                      with_views self
                        (dict_update (views (object self w1))
                           (views (object d w1))) w1)).
      { rewrite append_cons_dataset with (r := d) (w1 := w1);
          [reflexivity|exact E]. }
      subst w'. rewrite E1. simpl fst. simpl snd.
      rewrite !object_with_views by exact Hself1. simpl views.
      rewrite Eviews.
      split; [reflexivity|].
      split; [rewrite <- Eviews; apply append_cons_dataset; exact E|].
      split; [reflexivity|].
      split; [intros k; apply dict_update_keys|].
      split; [intros Hn k; apply dict_update_get; exact Hn|].
      intros r0 Hne. apply object_with_views_other. congruence.
  - destruct (append module_globals self ((name, data) :: rest) w)
      as [res wf] eqn:Ef.
    destruct (keeps_append self ((name, data) :: rest) stray_ok_module Hw Ef)
      as (_ & Hw' & _). exact Hw'.
  - intros x Ex.
    destruct (append module_globals self ((name, data) :: rest) w)
      as [res wf] eqn:Ef.
    destruct (keeps_append self ((name, data) :: rest) stray_ok_module Hw Ef)
      as (_ & _ & Hres). apply Hres. exact Ex.
Qed.

Lemma append_app G self k1 k2 (w : World) :
  append G self (k1 ++ k2) w = (append G self k1 ;;; append G self k2) w.
Proof.
  unfold append. revert w.
  induction k1 as [|[name data] k1 IH]; intros w; [reflexivity|].
  simpl app. cbn [append_with]. rewrite bind_assoc.
  apply bind_ext. intros n w1 _.
  destruct n; try reflexivity.
  - rewrite bind_assoc. apply bind_ext. intros _ w2 _. apply IH.
  - rewrite bind_assoc. apply bind_ext. intros other w2 _.
    rewrite bind_assoc. apply bind_ext. intros o w3 _.
    rewrite bind_assoc. apply bind_ext. intros _ w4 _. apply IH.
Qed.

Lemma append_returns_self G self kwargs (w w' : World) x :
  append G self kwargs w = (Ok x, w') -> x = self.
Proof.
  unfold append. revert w.
  induction kwargs as [|[name data] kwargs IH]; intros w E.
  - injection E as <- _. reflexivity.
  - cbn [append_with] in E. apply bind_Ok in E.
    destruct E as (n & w1 & _ & E).
    destruct n; try discriminate E.
    + apply bind_Ok in E. destruct E as (u & w2 & _ & E). eapply IH; eauto.
    + apply bind_Ok in E. destruct E as (other & w2 & _ & E).
      apply bind_Ok in E. destruct E as (o & w3 & _ & E).
      apply bind_Ok in E. destruct E as (u & w4 & _ & E). eapply IH; eauto.
Qed.

(** *** Iteration by priority *)

Lemma insert_by_perm {A} (key : A -> Z) x l :
  Permutation (insert_by key x l) (x :: l).
Proof.
  induction l as [|y l IH]; simpl; auto.
  destruct (key x <=? key y)%Z; auto.
  rewrite IH. apply perm_swap.
Qed.

Lemma sorted_by_perm {A} (key : A -> Z) l : Permutation (sorted_by key l) l.
Proof.
  induction l as [|x l IH]; simpl; auto.
  rewrite insert_by_perm. auto.
Qed.

Lemma insert_by_sorted {A} (key : A -> Z) x l :
  StronglySorted (fun a b => (key a <= key b)%Z) l ->
  StronglySorted (fun a b => (key a <= key b)%Z) (insert_by key x l).
Proof.
  induction 1 as [|y l Hs IH Hy]; simpl.
  - repeat constructor.
  - destruct (key x <=? key y)%Z eqn:E.
    + apply Z.leb_le in E. constructor; [constructor; auto|].
      constructor; auto.
      eapply Forall_impl; [|exact Hy]. simpl; intros; lia.
    + apply Z.leb_gt in E. constructor; auto.
      eapply Permutation_Forall; [symmetry; apply insert_by_perm|].
      constructor; auto. lia.
Qed.

Lemma sorted_by_sorted {A} (key : A -> Z) l :
  StronglySorted (fun a b => (key a <= key b)%Z) (sorted_by key l).
Proof.
  induction l as [|x l IH]; simpl; [constructor|].
  apply insert_by_sorted. exact IH.
Qed.

Lemma StronglySorted_map {A B} (f : A -> B) (R : B -> B -> Prop) l :
  StronglySorted (fun a b => R (f a) (f b)) l -> StronglySorted R (map f l).
Proof.
  induction 1 as [|x l Hs IH Hx]; simpl; constructor; auto.
  apply Forall_map. exact Hx.
Qed.

(** On a dictionary of Dataviews the keys of the sort are the priorities. *)
Lemma priorities_dataviews (items : list (string * value)) :
  Forall (fun kv => is_dataview (snd kv)) items ->
  exists ks, priorities items = Ok ks
             /\ map snd ks = items
             /\ Forall (fun k => fst k = item_priority (snd k)) ks.
Proof.
  induction 1 as [|[name v] items Hv Hi (ks & E & Em & Ek)]; simpl.
  - exists []. auto.
  - destruct v; try contradiction. rewrite E. simpl.
    eexists; split; [reflexivity|]. simpl. rewrite Em. auto.
Qed.

Lemma Dataset_iter_sorted self (w : World) :
  dataview_entries (object self w) ->
  exists items,
    Dataset_iter self w = (Ok items, w)
    /\ Permutation items (views (object self w))
    /\ StronglySorted (fun a b => (item_priority a <= item_priority b)%Z) items.
Proof.
  intros Hd. destruct (priorities_dataviews Hd) as (ks & E & Em & Ek).
  unfold Dataset_iter, bind, get_object, lift, ret. rewrite E.
  eexists; split; [reflexivity|]. split.
  - rewrite <- Em. apply Permutation_map. apply sorted_by_perm.
  - apply StronglySorted_map.
    assert (Hp : Forall (fun k => fst k = item_priority (snd k))
                   (sorted_by fst ks)).
    { eapply Permutation_Forall; [symmetry; apply sorted_by_perm|exact Ek]. }
    pose proof (sorted_by_sorted fst ks) as Hs.
    induction Hs as [|k l Hs IH Hk]; constructor.
    + apply IH. inversion Hp; auto.
    + inversion Hp as [|? ? Hk0 Hl]; subst.
      rewrite Forall_forall in *. intros k' Hin.
      rewrite <- Hk0, <- (Hl k' Hin). auto.
Qed.

(** *** Keyword values that are views *)

Lemma normalize_as_view G v dv (w : World) :
  as_view v = Some dv -> normalize G v w = (Ok (PDataview dv), w).
Proof.
  destruct v; simpl; try discriminate.
  - intros [= <-]. reflexivity.
  - unfold lift. destruct (_vnorm elts) as [[]|]; try discriminate.
    intros [= <-]. reflexivity.
Qed.

Lemma list_set_twice {A} i (x y : A) l :
  list_set i x (list_set i y l) = list_set i x l.
Proof.
  revert i; induction l as [|z l IH]; intros [|i]; simpl; auto.
  now rewrite IH.
Qed.

Lemma h5_object_with_views self vs (w : World) :
  h5 (object self (with_views self vs w)) = h5 (object self w).
Proof.
  destruct (Nat.lt_ge_cases self (length (heap w))) as [Hlt|Hge].
  - rewrite object_with_views by exact Hlt. reflexivity.
  - unfold object, with_views; simpl.
    rewrite !nth_overflow; auto. rewrite length_list_set. exact Hge.
Qed.

Lemma with_views_twice self vs vs' (w : World) :
  with_views self vs' (with_views self vs w) = with_views self vs' w.
Proof.
  unfold with_views at 1. rewrite h5_object_with_views.
  unfold with_views; simpl. now rewrite list_set_twice.
Qed.

Lemma append_as_views G self kwargs (w : World) :
  self < length (heap w) ->
  Forall (fun kv => as_view (snd kv) <> None) kwargs ->
  append G self kwargs w
  = (Ok self,
     match kwargs with
     | [] => w
     | _ => with_views self
              (dict_update (views (object self w)) (as_views kwargs)) w
     end).
Proof.
  intros Hself Hk; revert w Hself.
  induction Hk as [|[name v] kwargs Hv Hk IH]; intros w Hself.
  - reflexivity.
  - simpl in Hv. destruct (as_view v) as [dv|] eqn:Ev; [|congruence].
    rewrite (@append_cons_dataview G self name v kwargs dv w w
               (@normalize_as_view G v dv w Ev)).
    rewrite IH by (unfold with_views; simpl; now rewrite length_list_set).
    f_equal. destruct kwargs as [|kv kwargs].
    + simpl. rewrite Ev. reflexivity.
    + rewrite object_with_views by exact Hself.
      rewrite with_views_twice. simpl. rewrite Ev. reflexivity.
Qed.

Lemma as_views_keys kwargs : map fst (as_views kwargs) = map fst kwargs.
Proof. unfold as_views. rewrite map_map. reflexivity. Qed.

Lemma as_views_In kwargs n v :
  Forall (fun kv => as_view (snd kv) <> None) kwargs ->
  (In (n, v) (as_views kwargs)
   <-> exists x dv, In (n, x) kwargs /\ as_view x = Some dv /\ v = PDataview dv).
Proof.
  intros Hk. unfold as_views. rewrite in_map_iff. split.
  - intros ([n' x] & E & Hin). simpl in E.
    rewrite Forall_forall in Hk. specialize (Hk _ Hin). simpl in Hk.
    destruct (as_view x) as [dv|] eqn:Ex; [|congruence].
    injection E as <- <-. eauto.
  - intros (x & dv & Hin & Ex & ->). exists (n, x). simpl. rewrite Ex. auto.
Qed.

Lemma new_dataset_object (w : World) :
  object (length (heap w)) (snd (new_dataset w)) = empty_dataset.
Proof.
  unfold object, new_dataset; simpl.
  rewrite app_nth2, Nat.sub_diag by lia. reflexivity.
Qed.

(** The views of [Dataset] called on keyword values that are views. *)
Lemma Dataset_as_views G kwargs (w : World) :
  Forall (fun kv => as_view (snd kv) <> None) kwargs ->
  exists w', Dataset G kwargs w = (Ok (length (heap w)), w')
             /\ views (object (length (heap w)) w')
                = dict_update [] (as_views kwargs).
Proof.
  intros Hk. unfold Dataset. unfold bind at 1.
  change (new_dataset w) with (Ok (length (heap w)), snd (new_dataset w)).
  cbv iota. unfold bind at 1.
  assert (Hself : length (heap w) < length (heap (snd (new_dataset w)))).
  { simpl. rewrite length_app. simpl. lia. }
  rewrite (@append_as_views G _ kwargs _ Hself Hk).
  eexists; split; [reflexivity|].
  destruct kwargs as [|kv kwargs].
  - rewrite new_dataset_object. reflexivity.
  - rewrite object_with_views by exact Hself. simpl views.
    rewrite new_dataset_object. reflexivity.
Qed.

(** The names [append] leaves in [views]: those that were there, and those
    the pairs contribute, each in the state its turn finds. *)
Lemma append_names G self kwargs (w w' : World) x :
  self < length (heap w) ->
  append G self kwargs w = (Ok x, w') ->
  forall n,
    In n (dict_keys (views (object self w')))
    <-> In n (dict_keys (views (object self w)))
        \/ exists pre name v post w0 r w1,
             kwargs = pre ++ (name, v) :: post
             /\ append G self pre w = (Ok self, w0)
             /\ normalize G v w0 = (Ok r, w1)
             /\ contributes name r w1 n.
Proof.
  revert w. induction kwargs as [|[name0 data] rest IH]; intros w Hself E n.
  - injection E as _ <-. split; [auto|].
    intros [Hin|(pre & name & v & post & _ & _ & _ & Eq & _)]; [exact Hin|].
    destruct pre; discriminate Eq.
  - destruct (normalize G data w) as [[nrm|e] w1] eqn:En.
    2:{ unfold append in E. cbn [append_with] in E. unfold bind at 1 in E.
        rewrite En in E. discriminate E. }
    pose proof En as Efr. apply normalize_frame in Efr.
    destruct Efr as (Hlen & Hold).
    assert (Hself1 : self < length (heap w1)) by lia.
    assert (Eviews : views (object self w1) = views (object self w))
      by (rewrite Hold by exact Hself; reflexivity).
    assert (Hstep : forall vs,
               (forall tl, append G self ((name0, data) :: tl) w
                           = append G self tl (with_views self vs w1)) ->
               (forall m, In m (dict_keys vs)
                          <-> In m (dict_keys (views (object self w)))
                              \/ contributes name0 nrm w1 m) ->
               In n (dict_keys (views (object self w')))
               <-> In n (dict_keys (views (object self w)))
                   \/ exists pre name v post w0 r w2,
                        (name0, data) :: rest = pre ++ (name, v) :: post
                        /\ append G self pre w = (Ok self, w0)
                        /\ normalize G v w0 = (Ok r, w2)
                        /\ contributes name r w2 n).
    { intros vs Hcons Hkeys. rewrite Hcons in E.
      assert (Hself2 : self < length (heap (with_views self vs w1)))
        by (unfold with_views; simpl; rewrite length_list_set; exact Hself1).
      rewrite (IH _ Hself2 E n).
      rewrite object_with_views by exact Hself1. simpl views. rewrite Hkeys.
      split.
      - intros [[Hin|Hc]|(pre & name & v & post & w0 & r & w2 & Eq & Ep & Ev & Hc)].
        + left; exact Hin.
        + right. exists [], name0, data, rest, w, nrm, w1.
          repeat split; auto.
        + right. exists ((name0, data) :: pre), name, v, post, w0, r, w2.
          repeat split; auto.
          * simpl. rewrite Eq. reflexivity.
          * rewrite Hcons. exact Ep.
      - intros [Hin|(pre & name & v & post & w0 & r & w2 & Eq & Ep & Ev & Hc)].
        + left; left; exact Hin.
        + destruct pre as [|p pre]; simpl in Eq; inversion Eq; subst.
          * assert (Ew : w0 = w)
              by (unfold append in Ep; simpl in Ep; unfold ret in Ep;
                  congruence).
            subst w0. rewrite En in Ev. injection Ev as <- <-.
            left; right; exact Hc.
          * rewrite Hcons in Ep. right.
            exists pre, name, v, post, w0, r, w2. auto. }
    destruct nrm as [dv|d| | | |];
      try (unfold append in E; cbn [append_with] in E; unfold bind at 1 in E;
           rewrite En in E; discriminate E).
    + apply (Hstep (dict_set name0 (PDataview dv) (views (object self w1)))).
      * intros tl. apply append_cons_dataview. exact En.
      * intros m. rewrite dict_keys_set, Eviews. simpl. tauto.
    + apply (Hstep (dict_update (views (object self w1)) (views (object d w1)))).
      * intros tl. apply append_cons_dataset. exact En.
      * intros m. rewrite dict_update_keys, Eviews. simpl. tauto.
Qed.

(** [append] keeps the names of [views] distinct. *)
Lemma append_NoDup G self kwargs (w w' : World) r :
  self < length (heap w) ->
  NoDup (dict_keys (views (object self w))) ->
  append G self kwargs w = (r, w') ->
  NoDup (dict_keys (views (object self w'))).
Proof.
  revert w. induction kwargs as [|[name0 data] rest IH]; intros w Hself Hn E.
  - injection E as _ <-. exact Hn.
  - destruct (normalize G data w) as [[nrm|e] w1] eqn:En.
    2:{ unfold append in E. cbn [append_with] in E. unfold bind at 1 in E.
        rewrite En in E. injection E as _ <-.
        apply normalize_frame in En. destruct En as (_ & Hold).
        rewrite Hold by exact Hself. exact Hn. }
    pose proof En as Efr. apply normalize_frame in Efr.
    destruct Efr as (Hlen & Hold).
    assert (Hself1 : self < length (heap w1)) by lia.
    assert (Hn1 : NoDup (dict_keys (views (object self w1))))
      by (rewrite Hold by exact Hself; exact Hn).
    destruct nrm as [dv|d| | | |];
      try (unfold append in E; cbn [append_with] in E; unfold bind at 1 in E;
           rewrite En in E; injection E as _ <-; exact Hn1).
    + rewrite append_cons_dataview with (dv := dv) (w1 := w1) in E
        by exact En.
      eapply IH; [| |exact E].
      * unfold with_views; simpl. rewrite length_list_set. exact Hself1.
      * rewrite object_with_views by exact Hself1. simpl.
        apply dict_set_NoDup. exact Hn1.
    + rewrite append_cons_dataset with (r := d) (w1 := w1) in E
        by exact En.
      eapply IH; [| |exact E].
      * unfold with_views; simpl. rewrite length_list_set. exact Hself1.
      * rewrite object_with_views by exact Hself1. simpl.
        apply dict_update_NoDup. exact Hn1.
Qed.

(** What [append] returned for a list, it returned for each of its
    beginnings. *)
Lemma append_prefix_Ok G self pre post (w w' : World) x :
  append G self (pre ++ post) w = (Ok x, w') ->
  exists w0, append G self pre w = (Ok self, w0).
Proof.
  rewrite append_app. intros E. apply bind_Ok in E.
  destruct E as (a & w0 & Ea & _). exists w0.
  assert (Es : a = self) by (eapply append_returns_self; exact Ea).
  subst a. exact Ea.
Qed.

(** C6, as the code has it.  What [Dataset] followed by iteration yields
    for keyword arguments.
    - The names of the new Dataset are distinct, and they are those the
      pairs contribute: the name of each pair whose value normalizes to a
      Dataview, and the names of the views of the Dataset for each pair
      whose value normalizes to one (a Dataset, a dictionary, a file name),
      the name of that pair playing no part.
    - In a world whose Datasets hold Dataviews only, iteration yields these
      entries, each bound to a Dataview, in ascending order of priority.
    - A Dataset passed as a value contributes the names of its views.
    - When every value is a view (a Dataview, or a tuple that the view
      normalizer accepts) and the names are distinct, [Dataset] returns and
      iteration yields each name passed once, bound to the Dataview made
      from its value, in ascending order of priority. *)
Theorem Dataset_iter_of_views G kwargs (w : World) :
  (forall ds w',
      Dataset G kwargs w = (Ok ds, w') ->
      ds = length (heap w)
      /\ NoDup (dict_keys (views (object ds w')))
      /\ forall n,
           In n (dict_keys (views (object ds w')))
           <-> exists pre name v post w0 r w1,
                 kwargs = pre ++ (name, v) :: post
                 /\ append G ds pre (snd (new_dataset w)) = (Ok ds, w0)
                 /\ normalize G v w0 = (Ok r, w1)
                 /\ contributes name r w1 n)
  /\ (views_are_dataviews w -> stray_ok G ->
      forall ds w',
        Dataset G kwargs w = (Ok ds, w') ->
        exists items,
          Dataset_iter ds w' = (Ok items, w')
          /\ Permutation items (views (object ds w'))
          /\ NoDup (map fst items)
          /\ Forall (fun kv => is_dataview (snd kv)) items
          /\ StronglySorted
               (fun a b => (item_priority a <= item_priority b)%Z) items)
  /\ (forall name d ds w',
        In (name, PDataset d) kwargs -> d < length (heap w) ->
        Dataset G kwargs w = (Ok ds, w') ->
        forall n, In n (dict_keys (views (object d w))) ->
                  In n (dict_keys (views (object ds w'))))
  /\ (NoDup (map fst kwargs) ->
      (forall n v, In (n, v) kwargs -> as_view v <> None) ->
      exists ds w' items,
        Dataset G kwargs w = (Ok ds, w')
        /\ Dataset_iter ds w' = (Ok items, w')
        /\ NoDup (map fst items)
        /\ (forall n, In n (map fst items) <-> In n (map fst kwargs))
        /\ (forall n v, In (n, v) items
                        <-> exists x dv, In (n, x) kwargs /\ as_view x = Some dv
                                         /\ v = PDataview dv)
        /\ StronglySorted
             (fun a b => (item_priority a <= item_priority b)%Z) items).
Proof.
  set (w0 := snd (new_dataset w)).
  assert (Hself0 : length (heap w) < length (heap w0)).
  { unfold w0; simpl. rewrite length_app. simpl. lia. }
  assert (Enew : object (length (heap w)) w0 = empty_dataset)
    by apply new_dataset_object.
  assert (Hrun : forall ds w',
             Dataset G kwargs w = (Ok ds, w') ->
             ds = length (heap w)
             /\ append G (length (heap w)) kwargs w0 = (Ok ds, w')).
  { intros ds w' E. unfold Dataset in E. apply bind_Ok in E.
    destruct E as (ds0 & w1 & Ed & E). injection Ed as <- <-.
    apply bind_Ok in E. destruct E as (x & w2 & Ea & E).
    injection E as <- <-. fold w0 in Ea.
    assert (Es : x = length (heap w))
      by (eapply append_returns_self; exact Ea).
    subst x. auto. }
  split; [|split; [|split]].
  - intros ds w' E. destruct (Hrun _ _ E) as (-> & Ea).
    split; [reflexivity|]. split.
    + eapply append_NoDup; [exact Hself0| |exact Ea].
      rewrite Enew. constructor.
    + intros n. split.
      * intros Hx. eapply append_names in Hx; [|exact Hself0|exact Ea].
        rewrite Enew in Hx. destruct Hx as [[]|Hx]. exact Hx.
      * intros Hx. eapply append_names; [exact Hself0|exact Ea|].
        right. exact Hx.
  - intros Hw HG ds w' E. destruct (Hrun _ _ E) as (-> & Ea).
    assert (Hw0 : views_are_dataviews w0).
    { destruct (@keeps_new_dataset w (Ok (length (heap w))) w0 Hw eq_refl)
        as (_ & Hw0 & _). exact Hw0. }
    destruct (keeps_append (length (heap w)) kwargs HG Hw0 Ea)
      as (Hg & Hw' & _).
    assert (Hd : dataview_entries (object (length (heap w)) w'))
      by (apply object_dataview_entries; exact Hw').
    destruct (Dataset_iter_sorted _ _ Hd) as (items & Ei & Hp & Hs).
    exists items. split; [exact Ei|]. split; [exact Hp|].
    split; [|split; [|exact Hs]].
    + eapply Permutation_NoDup; [symmetry; apply Permutation_map; exact Hp|].
      eapply append_NoDup; [exact Hself0| |exact Ea].
      rewrite Enew. constructor.
    + eapply Permutation_Forall; [symmetry; exact Hp|exact Hd].
  - intros name d ds w' Hin Hd E n Hn.
    destruct (Hrun _ _ E) as (-> & Ea).
    apply in_split in Hin. destruct Hin as (pre & post & Eq).
    pose proof Ea as Ep. rewrite Eq in Ep. apply append_prefix_Ok in Ep.
    destruct Ep as (wp & Ep).
    eapply append_names; [exact Hself0|exact Ea|]. right.
    exists pre, name, (PDataset d), post, wp, (PDataset d), wp.
    split; [exact Eq|]. split; [exact Ep|]. split; [reflexivity|].
    simpl. apply append_frame in Ep. destruct Ep as (_ & Ho).
    rewrite Ho by lia.
    replace (object d w0) with (object d w); [exact Hn|].
    unfold object, w0; simpl. symmetry. apply app_nth1. exact Hd.
  - intros Hn Hv.
    assert (Hk : Forall (fun kv => as_view (snd kv) <> None) kwargs).
    { apply Forall_forall. intros [n v] Hin. exact (Hv n v Hin). }
    destruct (Dataset_as_views G w Hk) as (w' & E & Eviews).
    set (ds := length (heap w)) in *.
    assert (Hkeys : NoDup (dict_keys (as_views kwargs))).
    { unfold dict_keys. rewrite as_views_keys. exact Hn. }
    assert (Hin : forall n v, In (n, v) (views (object ds w'))
                              <-> In (n, v) (as_views kwargs)).
    { intros n v. rewrite Eviews.
      rewrite dict_get_In by (apply dict_update_NoDup; constructor).
      rewrite dict_update_get by exact Hkeys.
      rewrite (@dict_get_In _ n v _ Hkeys).
      destruct (dict_get n (as_views kwargs)); simpl; split; congruence. }
    assert (Hd : dataview_entries (object ds w')).
    { unfold dataview_entries. apply Forall_forall. intros [n v] Hnv.
      apply Hin in Hnv. apply (as_views_In n v Hk) in Hnv.
      destruct Hnv as (x & dv & _ & _ & ->). exact I. }
    destruct (Dataset_iter_sorted ds w' Hd) as (items & Ei & Hp & Hs).
    exists ds, w', items. repeat split; auto.
    + eapply Permutation_NoDup; [symmetry; apply Permutation_map; exact Hp|].
      rewrite Eviews. apply (dict_update_NoDup (V:=value) []). constructor.
    + intros Hi. eapply Permutation_in in Hi; [|apply Permutation_map; exact Hp].
      rewrite Eviews in Hi. apply (dict_update_keys (V:=value)) in Hi.
      destruct Hi as [[]|Hi]. unfold dict_keys in Hi.
      rewrite as_views_keys in Hi. exact Hi.
    + intros Hi. eapply Permutation_in; [symmetry; apply Permutation_map; exact Hp|].
      rewrite Eviews. apply (dict_update_keys (V:=value)). right.
      unfold dict_keys. rewrite as_views_keys. exact Hi.
    + intros Hi. eapply Permutation_in in Hi; [|exact Hp].
      apply Hin in Hi. apply (as_views_In n v Hk). exact Hi.
    + intros Hx. eapply Permutation_in; [symmetry; exact Hp|].
      apply Hin. apply (as_views_In n v Hk). exact Hx.
Qed.

(** *** [save] *)

Lemma save_unfold G self filename pack :
  save G self filename pack
  = (handle <- save_handle self filename ;;
     o <- get_object self ;;
     write_views handle (views o) ;;;
     (if pack then save_pack G self handle else ret tt) ;;;
     emit (Flushed handle)).
Proof. reflexivity. Qed.

Lemma views_list_set_same self hd (l : list (dataset Dataview)) :
  views (nth self (list_set self (mkDataset hd (views (nth self l empty_dataset))) l)
           empty_dataset)
  = views (nth self l empty_dataset).
Proof.
  destruct (Nat.lt_ge_cases self (length l)) as [Hlt|Hge].
  - rewrite nth_list_set_same by exact Hlt. reflexivity.
  - rewrite !nth_overflow; auto. rewrite length_list_set. exact Hge.
Qed.

(** Opening the file leaves the views and the trace as they are. *)
Lemma save_handle_frame self filename (w : World) r w0 :
  save_handle self filename w = (r, w0) ->
  views (object self w0) = views (object self w)
  /\ trace w0 = trace w /\ auxfile w0 = auxfile w
  /\ (forall hd, r = Ok hd ->
        h5 (object self w0) = Some hd \/ length (heap w) <= self)
  /\ (forall f, filename = Some f ->
        r = Ok f /\ archive_of f w0 = archive_of f w
        /\ length (heap w0) = length (heap w)).
Proof.
  destruct filename as [f|]; simpl.
  - intros E. unfold_monad.
    assert (Ea : forall (d : list (string * archive)),
               dict_get f d = None ->
               dict_get f (d ++ [(f, [])]) = Some []).
    { induction d as [|[k v] d IH]; simpl.
      - rewrite String.eqb_refl. reflexivity.
      - destruct (String.eqb f k); [discriminate|exact IH]. }
    destruct (dict_get f (files w)) as [kids|] eqn:Ef; pair_inv E; simpl;
      (split; [unfold object; simpl; apply views_list_set_same|]);
      (split; [reflexivity|]); (split; [reflexivity|]); split.
    + intros hd [= <-].
      destruct (Nat.lt_ge_cases self (length (heap w))) as [Hlt|Hge]; auto.
      left. unfold object; simpl. rewrite nth_list_set_same by exact Hlt.
      reflexivity.
    + intros f' [= <-]. rewrite length_list_set. auto.
    + intros hd [= <-].
      destruct (Nat.lt_ge_cases self (length (heap w))) as [Hlt|Hge]; auto.
      left. unfold object; simpl. rewrite nth_list_set_same by exact Hlt.
      reflexivity.
    + intros f' [= <-]. rewrite length_list_set.
      unfold archive_of; simpl. rewrite (Ea _ Ef), Ef. auto.
  - unfold_monad. destruct (h5 (object self w)) as [hd|] eqn:Eh;
      intros E; pair_inv E; repeat split; auto; try discriminate.
    intros hd' [= <-]. auto.
Qed.

(** Writing the views touches the files only, and needs every entry to be
    a Dataview. *)
Lemma write_views_frame handle items (w : World) r w' :
  write_views handle items w = (r, w') ->
  heap w' = heap w /\ trace w' = trace w /\ auxfile w' = auxfile w
  /\ (r = Ok tt -> Forall (fun kv => is_dataview (snd kv)) items).
Proof.
  revert w; induction items as [|[name v] items IH]; intros w E.
  - cbn in E. pair_inv E. auto.
  - cbn [write_views] in E.
    destruct v; try (unfold raise in E; pair_inv E; repeat split; auto;
                     discriminate).
    unfold bind at 1, read_archive at 1 in E.
    unfold bind at 1, lift at 1 in E.
    destruct (_write_hdf dv (archive_of handle w) name) as [a'|e].
    + unfold bind at 1, write_archive at 1 in E.
      apply IH in E. simpl in E. destruct E as (? & ? & ? & Hr).
      repeat split; auto. intros Hok. constructor; [exact I|auto].
    + pair_inv E. repeat split; auto. discriminate.
Qed.

(** With the globals of the module the first raw data object met stops the
    collection: the name [Volume] is bound nowhere. *)
Lemma collect_views_unbound (vs : list value) acc :
  Forall is_dataview vs ->
  (exists dv, In (PDataview dv) vs /\ uniques dv <> []) ->
  collect_views module_globals vs acc = Raise (NameError "Volume").
Proof.
  intros Hv; revert acc.
  induction Hv as [|v vs Hd Hv IH]; intros acc (dv & Hin & Hu).
  - destruct Hin.
  - destruct v as [dv0| | | | |]; try contradiction. cbn [collect_views].
    destruct (uniques dv0) as [|d us] eqn:Eu.
    + simpl. apply IH. exists dv. split; auto.
      destruct Hin as [[= ->]|Hin]; [congruence|exact Hin].
    + reflexivity.
Qed.

(** C10. When a Dataset holds a view whose [uniques()] is not empty, and the
    views themselves can be written, [save] with [pack=True] meets the name
    [Volume], which the module neither defines nor imports: it raises a
    [NameError] for it, after the views were written and before anything is
    packed or flushed. *)
Theorem save_pack_unbound_Volume self filename (w w1 : World) :
  save module_globals self filename false w = (Ok tt, w1) ->
  (exists name dv, In (name, PDataview dv) (views (object self w))
                   /\ uniques dv <> []) ->
  lookup_global (@module_globals num Dataview) "Volume"
  = Raise (NameError "Volume")
  /\ exists w2,
       save module_globals self filename true w
       = (Raise (NameError "Volume"), w2)
       /\ files w2 = files w1
       /\ trace w2 = trace w.
Proof.
  intros E (name & dv & Hin & Hu). split; [reflexivity|].
  rewrite save_unfold in *. unfold bind at 1 in E. unfold bind at 1.
  destruct (save_handle self filename w) as [[hd|e] w0] eqn:E0;
    [|discriminate E].
  destruct (@save_handle_frame _ _ _ _ _ E0) as (Hviews & Ht0 & _).
  unfold bind at 1, get_object at 1 in E. unfold bind at 1 in E.
  unfold bind at 1, get_object at 1. unfold bind at 1.
  destruct (write_views hd (views (object self w0)) w0) as [[[]|e] wv] eqn:Ev;
    [|discriminate E].
  destruct (@write_views_frame _ _ _ _ _ Ev) as (Hh & Ht & _ & Hd).
  specialize (Hd eq_refl).
  unfold bind at 1, ret at 1, emit in E. pair_inv E.
  exists wv. simpl. split; [|split; [reflexivity|congruence]].
  unfold bind at 1, save_pack. unfold bind at 1, get_object at 1.
  unfold bind at 1, lift at 1.
  assert (Eo : views (object self wv) = views (object self w)).
  { unfold object. rewrite Hh. exact Hviews. }
  rewrite Eo, collect_views_unbound; [reflexivity| |].
  - rewrite Hviews in Hd. unfold dict_values. apply Forall_map. exact Hd.
  - exists dv. split; [|exact Hu].
    unfold dict_values. apply (in_map snd) in Hin. exact Hin.
Qed.

(** *** The round trip through a file *)

Lemma archive_of_write handle a (w : World) :
  archive_of handle (snd (write_archive handle a w)) = a.
Proof.
  unfold archive_of, write_archive; simpl. now rewrite dict_get_set_same.
Qed.

Section RoundTrip.
Variable equiv : Dataview -> Dataview -> Prop.
Hypothesis contract : roundtrip_contract equiv.

(** Writing views whose names are distinct leaves each of them readable. *)
Lemma write_views_readable handle items (w : World) :
  Forall (fun kv => is_dataview (snd kv)) items ->
  NoDup (dict_keys items) ->
  package_layout (archive_of handle w) ->
  exists w',
    write_views handle items w = (Ok tt, w')
    /\ package_layout (archive_of handle w')
    /\ (forall n, In n (view_names (archive_of handle w'))
                  <-> In n (dict_keys items)
                      \/ In n (view_names (archive_of handle w)))
    /\ (forall n dv, In (n, PDataview dv) items ->
                     readable equiv (archive_of handle w') n dv)
    /\ (forall n dv, ~ In n (dict_keys items) ->
                     readable equiv (archive_of handle w) n dv ->
                     readable equiv (archive_of handle w') n dv)
    /\ ((items <> [] \/ exists vs, dict_get "views" (archive_of handle w)
                                   = Some (Group vs)) ->
        exists vs, dict_get "views" (archive_of handle w') = Some (Group vs)).
Proof.
  intros Hd; revert w.
  induction Hd as [|[name v] items Hv Hd IH]; intros w Hn Hl.
  - exists w. split; [reflexivity|]. split; [exact Hl|].
    split; [simpl; tauto|]. split; [intros n dv []|]. split; [auto|].
    intros [Hne|Hex]; [congruence|exact Hex].
  - simpl in Hv. destruct v as [dv| | | | |]; try contradiction.
    inversion Hn as [|? ? Hnotin Hn']; subst.
    destruct (contract dv name Hl)
      as (a' & Ew & Hl' & Hex' & Hnames' & Hread' & Hframe').
    cbn [write_views]. unfold bind at 1, read_archive at 1.
    unfold bind at 1, lift at 1. rewrite Ew.
    unfold bind at 1.
    change (write_archive handle a' w)
      with (Ok tt, snd (write_archive handle a' w)). cbv iota.
    set (w1 := snd (write_archive handle a' w)).
    assert (Ea : archive_of handle w1 = a') by apply archive_of_write.
    destruct (IH w1 Hn') as (w' & E' & Hl2 & Hnames2 & Hread2 & Hframe2 & Hex2).
    { rewrite Ea. exact Hl'. }
    rewrite Ea in *.
    exists w'. split; [exact E'|]. split; [exact Hl2|].
    split; [|split; [|split]].
    + intros n. rewrite Hnames2, Hnames'. simpl. intuition.
    + intros n dv0 [[= <- <-]|Hin].
      * apply Hframe2; [exact Hnotin|exact Hread'].
      * apply Hread2. exact Hin.
    + intros n dv0 Hni Hr. apply Hframe2.
      * intros Hin. apply Hni. right. exact Hin.
      * apply Hframe'; [|exact Hr]. intros ->. apply Hni. left. reflexivity.
    + intros _. apply Hex2. right. exact Hex'.
Qed.
End RoundTrip.

Lemma load_stray_reserved G ds fn (items : archive) (w : World) :
  (forall n, In n (dict_keys items) -> reserved n = true) ->
  load_stray G ds fn items w = (Ok tt, w).
Proof.
  induction items as [|[name nd] items IH]; intros Hr.
  - reflexivity.
  - cbn [load_stray]. rewrite (Hr name) by (left; reflexivity).
    unfold bind at 1, ret at 1. apply IH. intros n Hn. apply Hr. right; exact Hn.
Qed.

(** When every node under [views/] can be read, the loop stores what
    [Dataview.from_hdf] returns for each, in their order. *)
Lemma load_views_all ds fn (P : string -> Dataview -> Prop)
    (items : archive) (w : World) :
  ds < length (heap w) ->
  (forall n nd, In (n, nd) items ->
     exists dv', from_hdf (auxfile w) (archive_of fn w) n nd = Ok dv' /\ P n dv') ->
  exists w' dl,
    load_views ds fn items w = (Ok tt, w')
    /\ files w' = files w /\ auxfile w' = auxfile w
    /\ length (heap w') = length (heap w)
    /\ map fst dl = map fst items
    /\ Forall (fun kv => exists dv', snd kv = PDataview dv' /\ P (fst kv) dv') dl
    /\ views (object ds w') = dict_update (views (object ds w)) dl.
Proof.
  revert w; induction items as [|[name nd] items IH]; intros w Hds Hall.
  - exists w, []. repeat split; auto.
  - destruct (Hall name nd (or_introl eq_refl)) as (dv' & Edv & HP).
    set (we := snd (emit (LoadView name (auxfile w)) w)).
    set (ws := with_views ds (dict_set name (PDataview dv') (views (object ds we))) we).
    assert (Estep : load_views ds fn ((name, nd) :: items) w
                    = load_views ds fn items ws).
    { cbn [load_views]. unfold bind at 1, try_except at 1.
      unfold bind at 1, get_auxfile at 1. unfold bind at 1.
      change (emit (LoadView name (auxfile w)) w) with (Ok tt, we). cbv iota.
      unfold bind at 1, read_archive at 1. unfold bind at 1, lift at 1.
      change (archive_of fn we) with (archive_of fn w). rewrite Edv.
      rewrite set_view_with_views. reflexivity. }
    destruct (IH ws) as (w' & dl & E' & Hf & Ha & Hl & Hk & Hv & Hviews).
    { unfold ws, with_views; simpl. rewrite length_list_set. exact Hds. }
    { intros n nd' Hin. apply Hall. right. exact Hin. }
    exists w', ((name, PDataview dv') :: dl).
    rewrite Estep. split; [exact E'|].
    split; [exact Hf|]. split; [exact Ha|].
    split; [rewrite Hl; unfold ws, with_views; simpl; apply length_list_set|].
    split; [simpl; now rewrite Hk|].
    split; [constructor; [exists dv'; auto|exact Hv]|].
    rewrite Hviews. unfold ws. rewrite object_with_views by exact Hds.
    reflexivity.
Qed.

Lemma opened_object filename (w : World) :
  views (object (length (heap w)) (opened filename w)) = []
  /\ length (heap w) < length (heap (opened filename w)).
Proof.
  unfold opened, object, h5py_File, new_dataset; simpl.
  destruct (dict_get filename (files w)); simpl;
    rewrite length_list_set, length_app; simpl;
    (split; [|lia]);
    rewrite nth_list_set_same by (rewrite length_app; simpl; lia);
    simpl;
    change (views (object (length (heap w)) (snd (new_dataset w))) = []);
    rewrite new_dataset_object; reflexivity.
Qed.

Lemma In_keys_value {V} n (d : list (string * V)) :
  In n (dict_keys d) -> exists v, In (n, v) d.
Proof.
  unfold dict_keys. rewrite in_map_iff. intros ([k v] & <- & Hin). eauto.
Qed.

(** C1, as the code has it.  Under the round-trip contract of the Dataview
    collaborator: a Dataset that holds at least one view, saved to a file
    that has the package layout and holds no view under a name the Dataset
    does not use (a new file is one), is loaded back by [from_file] as a
    Dataset with the same view names, each bound to a Dataview equivalent to
    the original one. *)
Theorem save_then_from_file (equiv : Dataview -> Dataview -> Prop)
    self filename (w : World) :
  roundtrip_contract equiv ->
  views (object self w) <> [] ->
  NoDup (dict_keys (views (object self w))) ->
  Forall (fun kv => is_dataview (snd kv)) (views (object self w)) ->
  package_layout (archive_of filename w) ->
  (forall n, In n (view_names (archive_of filename w)) ->
             In n (dict_keys (views (object self w)))) ->
  exists w1 ds w2,
    save module_globals self (Some filename) false w = (Ok tt, w1)
    /\ from_file module_globals filename w1 = (Ok ds, w2)
    /\ (forall n, In n (dict_keys (views (object ds w2)))
                  <-> In n (dict_keys (views (object self w))))
    /\ (forall n dv, In (n, PDataview dv) (views (object self w)) ->
          exists dv', dict_get n (views (object ds w2)) = Some (PDataview dv')
                      /\ equiv dv dv').
Proof.
  intros Hc Hne Hnd Hdv Hl Hstale.
  set (items := views (object self w)) in *.
  (* the save *)
  destruct (save_handle self (Some filename) w) as [r w0] eqn:E0.
  destruct (@save_handle_frame _ _ _ _ _ E0) as (Hviews & _ & _ & _ & Hf).
  destruct (Hf filename eq_refl) as (-> & Ha0 & Hlen0).
  destruct (@write_views_readable equiv Hc filename items w0 Hdv Hnd)
    as (wv & Ev & Hlv & Hnames & Hread & _ & Hex).
  { rewrite Ha0. exact Hl. }
  destruct (Hex (or_introl Hne)) as (vs & Evs).
  destruct (@write_views_frame _ _ _ _ _ Ev) as (Hheap & _ & _ & _).
  set (w1 := snd (emit (Flushed filename) wv)).
  assert (Esave : save module_globals self (Some filename) false w = (Ok tt, w1)).
  { rewrite save_unfold. unfold bind at 1. rewrite E0.
    unfold bind at 1, get_object at 1. unfold bind at 1.
    fold items in Hviews. rewrite Hviews, Ev. reflexivity. }
  set (a := archive_of filename wv) in *.
  assert (Ea1 : archive_of filename w1 = a) by reflexivity.
  (* the load *)
  set (ds := length (heap w1)).
  set (wo := opened filename w1).
  destruct (opened_object filename w1) as (Eempty & Hds).
  fold ds wo in Eempty, Hds.
  assert (Eao : archive_of filename wo = a).
  { unfold wo. rewrite opened_archive. exact Ea1. }
  assert (Hkeys : forall n, In n (dict_keys vs) <-> In n (dict_keys items)).
  { intros n. specialize (Hnames n). unfold view_names in Hnames at 1.
    fold a in Hnames. rewrite Evs in Hnames. rewrite Hnames.
    rewrite Ha0. split; [intros [Hi|Hi]; auto|auto]. }
  destruct (@load_views_all ds filename
              (fun n dv' => exists dv, In (n, PDataview dv) items /\ equiv dv dv')
              vs wo Hds)
    as (w' & dl & El & _ & _ & _ & Hk & Hv & Hviews').
  { intros n nd Hin. rewrite Eao.
    assert (Hn : In n (dict_keys items)).
    { apply Hkeys. apply (in_map fst) in Hin. exact Hin. }
    destruct (In_keys_value _ _ Hn) as (v & Hnv).
    assert (Hvd : is_dataview v).
    { rewrite Forall_forall in Hdv. exact (Hdv _ Hnv). }
    destruct v as [dv| | | | |]; try contradiction.
    destruct (Hread n dv Hnv vs nd (auxfile wo) Evs Hin) as (dv' & Ed & He).
    exists dv'. split; [exact Ed|]. exists dv. auto. }
  set (w2 := snd (set_auxfile None w')).
  assert (Eload : from_file module_globals filename w1 = (Ok ds, w2)).
  { rewrite from_file_unfold. fold ds wo.
    unfold bind at 1, read_archive at 1. unfold bind at 1.
    rewrite Eao, load_stray_reserved by (destruct Hlv as [Hres _]; exact Hres).
    unfold bind at 1, read_archive at 1. unfold bind at 1, lift at 1.
    rewrite Eao. simpl h5_getitem. rewrite Evs. simpl rbind.
    unfold bind at 1. rewrite El. reflexivity. }
  assert (Efinal : views (object ds w2) = dict_update [] dl).
  { change (views (object ds w2)) with (views (object ds w')).
    rewrite Hviews', Eempty. reflexivity. }
  exists w1, ds, w2. split; [exact Esave|]. split; [exact Eload|].
  rewrite Efinal. split.
  - intros n. rewrite dict_update_keys, <- Hkeys.
    unfold dict_keys. rewrite Hk. simpl. tauto.
  - intros n dv Hin.
    assert (Hn : In n (dict_keys (dict_update [] dl))).
    { apply dict_update_keys. right. unfold dict_keys. rewrite Hk.
      apply Hkeys. apply (in_map fst) in Hin. exact Hin. }
    destruct (dict_get n (dict_update [] dl)) as [v|] eqn:Eg;
      [|apply dict_get_None in Eg; contradiction].
    assert (Hall : Forall (fun kv => exists dv', snd kv = PDataview dv'
                      /\ exists dv0, In (fst kv, PDataview dv0) items
                                     /\ equiv dv0 dv')
                     (dict_update [] dl)).
    { clear - Hv. unfold dict_update.
      assert (Hnil : Forall (fun kv : string * value =>
                exists dv', snd kv = PDataview dv'
                  /\ exists dv0, In (fst kv, PDataview dv0) items
                                 /\ equiv dv0 dv') []) by constructor.
      revert Hnil. generalize (@nil (string * value)).
      induction Hv as [|[k v] dl Hkv Hv IH]; intros d Hd; simpl; auto.
      apply IH. apply dict_set_Forall; auto.
      intros k0 v0 _ Ek. apply String.eqb_eq in Ek. subst k0. exact Hkv. }
    rewrite Forall_forall in Hall.
    destruct (Hall _ (dict_get_Some_In _ _ Eg)) as (dv' & Ev' & dv0 & Hin0 & He).
    simpl in Ev', Hin0. subst v.
    exists dv'. split; [reflexivity|].
    assert (dv0 = dv).
    { apply (dict_get_In n (PDataview dv0)) in Hin0; [|exact Hnd].
      apply (dict_get_In n (PDataview dv)) in Hin; [|exact Hnd].
      congruence. }
    subst dv0. exact He.
Qed.

(** *** The sets of the pack branch *)

Lemma set_add_NoDup {A} (eqb : A -> A -> bool) x s :
  (forall a b, eqb a b = true <-> a = b) ->
  NoDup s -> NoDup (set_add eqb x s).
Proof.
  intros Heq Hs. unfold set_add, set_mem.
  destruct (existsb (eqb x) s) eqn:E; [exact Hs|].
  apply NoDup_app; [exact Hs|repeat constructor; intros []|].
  intros a Ha [Ea|[]]. subst a.
  assert (existsb (eqb x) s = true); [|congruence].
  apply existsb_exists. exists x. split; [exact Ha|]. apply Heq. reflexivity.
Qed.

Lemma set_add_In {A} (eqb : A -> A -> bool) x s y :
  (forall a b, eqb a b = true <-> a = b) ->
  (In y (set_add eqb x s) <-> y = x \/ In y s).
Proof.
  intros Heq. unfold set_add, set_mem.
  destruct (existsb (eqb x) s) eqn:E.
  - apply existsb_exists in E. destruct E as (z & Hz & Ez).
    apply Heq in Ez. subst z. split; [auto|]. intros [->|]; auto.
  - rewrite in_app_iff. simpl. intuition.
Qed.

Lemma pair_eqb_eq a b : pair_eqb a b = true <-> a = b.
Proof.
  destruct a as [a1 a2], b as [b1 b2]. unfold pair_eqb; simpl.
  rewrite andb_true_iff, !String.eqb_eq. split; [intros [-> ->]|intros [= -> ->]]; auto.
Qed.

Lemma triple_eqb_eq a b : triple_eqb a b = true <-> a = b.
Proof.
  destruct a as [a1 a2], b as [b1 b2]. unfold triple_eqb; simpl.
  rewrite andb_true_iff, pair_eqb_eq, String.eqb_eq.
  split; [intros [-> ->]|intros [= -> ->]]; auto.
Qed.

Lemma collect_data_duplicate_free (G : globals) data acc acc' :
  duplicate_free acc -> collect_data G data acc = Ok acc' ->
  duplicate_free acc'.
Proof.
  intros (Hs & Hx & Hm). unfold collect_data, rbind.
  destruct (lookup_global G "Volume") as [[|inst|f]|]; try discriminate.
  destruct (inst data).
  - destruct (xfmname data) as [x|]; simpl; [|discriminate].
    destruct (_mask data) as [[mn|m]|]; simpl; try discriminate;
      intros [= <-]; repeat split; simpl;
      auto using set_add_NoDup, String.eqb_eq, pair_eqb_eq, triple_eqb_eq.
  - intros [= <-]; repeat split; simpl;
      auto using set_add_NoDup, String.eqb_eq.
Qed.

(** Whatever the globals, the sets handed to the packers hold each subject,
    each pair and each triple once. *)
Lemma collect_views_duplicate_free (G : globals) vs acc acc' :
  duplicate_free acc -> collect_views G vs acc = Ok acc' ->
  duplicate_free acc'.
Proof.
  revert acc; induction vs as [|v vs IH]; intros acc Hacc.
  - intros [= <-]. exact Hacc.
  - destruct v as [dv| | | | |]; try discriminate. cbn [collect_views].
    assert (Hu : forall us a a', duplicate_free a ->
                   collect_uniques G us a = Ok a' -> duplicate_free a').
    { induction us as [|d us IHu]; intros a a' Ha; simpl.
      - intros [= <-]. exact Ha.
      - destruct (collect_data G d a) as [a1|] eqn:Ed; simpl; [|discriminate].
        apply IHu. eapply collect_data_duplicate_free; eauto. }
    destruct (collect_uniques G (uniques dv) acc) as [a1|] eqn:E1; simpl;
      [|discriminate].
    apply IH. eapply Hu; eauto.
Qed.

End DatasetFacts.

(** ** The sample instance at work *)

Lemma dict_set_In_other {V} k (v : V) d k' v' :
  k' <> k -> In (k', v') (dict_set k v d) -> In (k', v') d.
Proof.
  intros Hne. induction d as [|[k0 v0] d IH]; simpl.
  - intros [[= -> _]|[]]. congruence.
  - destruct (String.eqb k k0) eqn:E; simpl.
    + apply String.eqb_eq in E. subst k0.
      intros [[= -> _]|Hin]; [congruence|auto].
    + intros [Heq|Hin]; auto.
Qed.

Lemma group_set_In_other {V} k (v : V) d k' v' :
  k' <> k -> In (k', v') (group_set k v d) -> In (k', v') d.
Proof.
  intros Hne. unfold group_set. destruct (dict_get k d).
  - apply dict_set_In_other. exact Hne.
  - intros Hin. apply insert_by_name_In in Hin.
    destruct Hin as [[= -> _]|Hin]; [congruence|exact Hin].
Qed.

Lemma sample_decode_encode dv : sample_decode (sample_encode dv) = Ok dv.
Proof. destruct dv; reflexivity. Qed.

(** What the sample Dataview writes: its node, put under [views/]. *)
Lemma sample_write_eq dv (a : list (string * node Z)) name kids :
  (dict_get "views" a = Some (Group kids)
   \/ (dict_get "views" a = None /\ kids = [])) ->
  sample_write dv a name
  = Ok (group_set "views" (Group (group_set name (sample_encode dv) kids)) a).
Proof.
  unfold sample_write. cbn [h5_put].
  intros [E|[E ->]]; rewrite E; reflexivity.
Qed.

(** The sample Dataview honours the round-trip contract, with equality for
    the equivalence of views. *)
Lemma sample_roundtrip : roundtrip_contract (@eq sample_view).
Proof.
  intros dv a name [Hres Hviews].
  assert (Hk : exists kids,
             (dict_get "views" a = Some (Group kids)
              \/ (dict_get "views" a = None /\ kids = []))
             /\ NoDup (dict_keys kids)
             /\ view_names a = dict_keys kids).
  { unfold view_names. destruct (dict_get "views" a) as [nd|] eqn:E.
    - destruct (Hviews nd eq_refl) as (kids & -> & Hn).
      exists kids. auto.
    - exists []. repeat split; auto. constructor. }
  destruct Hk as (kids & Hcase & Hn & Hnames).
  set (kids' := group_set name (sample_encode dv) kids).
  set (a' := group_set "views" (Group kids') a).
  assert (Ev : dict_get "views" a' = Some (Group kids'))
    by apply group_get_set_same.
  assert (Hn' : NoDup (dict_keys kids')) by (apply group_set_NoDup; exact Hn).
  exists a'. split; [apply sample_write_eq; exact Hcase|].
  split; [|split; [|split; [|split]]].
  - split.
    + intros n Hin. apply group_keys_set in Hin.
      destruct Hin as [->|Hin]; [reflexivity|auto].
    + intros nd End. rewrite Ev in End. injection End as <-. eauto.
  - eauto.
  - intros n. unfold view_names at 1. rewrite Ev, Hnames.
    apply group_keys_set.
  - intros vs nd aux Evs Hin. rewrite Ev in Evs. injection Evs as <-.
    apply (@dict_get_In _ name nd kids' Hn') in Hin.
    unfold kids' in Hin. rewrite group_get_set_same in Hin. injection Hin as <-.
    exists dv. split; [apply sample_decode_encode|reflexivity].
  - intros n dv0 Hne Hr vs nd aux Evs Hin.
    rewrite Ev in Evs. injection Evs as <-.
    apply group_set_In_other in Hin; [|exact Hne].
    destruct Hcase as [E|[_ ->]]; [|destruct Hin].
    exact (Hr kids nd aux E Hin).
Qed.

(** Witness of C7: the fiducial surface of the left hemisphere of S1. *)
Lemma get_surf_fiducial_average_witness :
  get_surf (Some sample_package) "S1" "fiducial" "lh" false false
  = Ok (One (elementwise_average wm_pts pia_pts) one_triangle).
Proof.
  apply (@get_surf_fiducial_average Z _ (Some sample_package) "S1" "lh"
           false false wm_pts pia_pts one_triangle one_triangle).
  - reflexivity.
  - reflexivity.
  - reflexivity.
  - split; reflexivity.
  - repeat constructor.
  - repeat constructor.
Defined.

(** Witness of C8: both hemispheres of the white matter of S1, merged. *)
Lemma get_surf_both_merged_witness :
  exists pts polys : ndarray Z,
    get_surf (Some sample_package) "S1" "wm" "both" true false
    = Ok (One pts polys)
    /\ array_len pts = array_len wm_pts + array_len wm_pts
    /\ rows pts = rows wm_pts ++ rows wm_pts
    /\ rows polys
       = rows one_triangle
         ++ map (map (fun v => nadd v (nof_nat (array_len wm_pts))))
              (rows one_triangle).
Proof.
  apply (@get_surf_both_merged Z _ (Some sample_package) "S1" "wm" false
           wm_pts one_triangle wm_pts one_triangle); reflexivity.
Defined.

(** C9 as stated fails: on a new file [from_file] raises, for want of a
    [views] group, and leaves [db.auxfile] bound to the Dataset it made. *)
Lemma from_file_leaves_auxfile_bound :
  fst (from_file module_globals "new.hdf" empty_world) = Raise (KeyError "views")
  /\ auxfile (snd (from_file module_globals "new.hdf" empty_world)) = Some 0.
Proof. split; reflexivity. Qed.

(** C5 as stated fails: the error raised for the integer 42 names neither
    the type nor the value. *)
Lemma normalize_42_names_nothing :
  exists e,
    fst (normalize module_globals (POther "int" "42") empty_world) = Raise e
    /\ mentions "int" (exn_message e) = false
    /\ mentions "42" (exn_message e) = false.
Proof. exists (TypeError "Unknown input type"). repeat split. Qed.

(** C6 as stated fails: a dictionary passed under the name x yields the
    names of the dictionary, and not x. *)
Lemma Dataset_dict_value_flattens :
  exists ds w items,
    Dataset module_globals [("x", PDict [("a", PDataview view_hi)])] empty_world
    = (Ok ds, w)
    /\ Dataset_iter ds w = (Ok items, w)
    /\ map fst items = ["a"]
    /\ ~ In "x" (map fst items).
Proof.
  do 3 eexists. split; [reflexivity|]. split; [reflexivity|].
  split; [reflexivity|]. simpl. intros [E|[]]. discriminate E.
Qed.

(** Witness of C6: two Dataviews passed by keyword; and a Dataset, a
    dictionary and a Dataview passed by keyword, where the names x and y
    of the first two play no part. *)
Lemma Dataset_iter_of_views_witness :
  (exists ds w' items,
    Dataset module_globals [("hi", PDataview view_hi); ("lo", PDataview view_lo)]
      empty_world = (Ok ds, w')
    /\ Dataset_iter ds w' = (Ok items, w')
    /\ NoDup (map fst items)
    /\ (forall n, In n (map fst items)
                  <-> In n (map fst [("hi", PDataview view_hi);
                                     ("lo", PDataview view_lo)]))
    /\ (forall n v, In (n, v) items
                    <-> exists x dv,
                          In (n, x) [("hi", PDataview view_hi);
                                     ("lo", PDataview view_lo)]
                          /\ as_view x = Some dv /\ v = PDataview dv)
    /\ StronglySorted (fun a b => (item_priority a <= item_priority b)%Z) items)
  /\ (let w := one_view_world in
      let kw := [("x", PDataset 0);
                 ("y", PDict [("a", PDataview view_hi)]);
                 ("z", PDataview view_lo)] in
      let w' := snd (Dataset module_globals kw w) in
      Dataset module_globals kw w = (Ok 1, w')
      /\ dict_keys (views (object 1 w')) = ["lo"; "a"; "z"]
      /\ NoDup (dict_keys (views (object 1 w')))
      /\ (forall n,
            In n (dict_keys (views (object 1 w')))
            <-> exists pre name v post w0 r w1,
                  kw = pre ++ (name, v) :: post
                  /\ append module_globals 1 pre (snd (new_dataset w))
                     = (Ok 1, w0)
                  /\ normalize module_globals v w0 = (Ok r, w1)
                  /\ contributes name r w1 n)
      /\ (exists items,
            Dataset_iter 1 w' = (Ok items, w')
            /\ Permutation items (views (object 1 w'))
            /\ NoDup (map fst items)
            /\ Forall (fun kv => is_dataview (snd kv)) items
            /\ StronglySorted
                 (fun a b => (item_priority a <= item_priority b)%Z) items)
      /\ (forall n, In n (dict_keys (views (object 0 w))) ->
                    In n (dict_keys (views (object 1 w'))))).
Proof.
  split.
  - apply (Dataset_iter_of_views module_globals
             [("hi", PDataview view_hi); ("lo", PDataview view_lo)]
             empty_world).
    + repeat constructor; simpl; intuition discriminate.
    + intros n v [[= <- <-]|[[= <- <-]|[]]]; discriminate.
  - intros w kw w'.
    destruct (Dataset_iter_of_views module_globals kw w)
      as (P1 & P2 & P3 & _).
    assert (E : Dataset module_globals kw w = (Ok 1, w')) by reflexivity.
    destruct (P1 1 w' E) as (_ & Hn & Hnames).
    split; [exact E|]. split; [reflexivity|]. split; [exact Hn|].
    split; [exact Hnames|]. split.
    + apply P2; [repeat constructor|apply stray_ok_module|exact E].
    + apply (P3 "x" 0 1 w'); [left; reflexivity|simpl; lia|exact E].
Defined.

(** C1 as stated fails: an empty Dataset saved to a new file cannot be
    loaded back, the file has no [views] group.  The Dataview collaborator
    is not at fault, the loop over the views never called it. *)
Lemma empty_dataset_roundtrip_fails :
  roundtrip_contract (@eq sample_view)
  /\ fst ((ds <- Dataset module_globals [] ;;
           save module_globals ds (Some "out.hdf") false ;;;
           from_file module_globals "out.hdf") empty_world)
     = Raise (KeyError "views").
Proof. split; [exact sample_roundtrip|reflexivity]. Qed.

(** Witness of C1: the Dataset of two views, saved to a new file. *)
Lemma save_then_from_file_witness :
  exists w1 ds w2,
    save module_globals 0 (Some "out.hdf") false two_view_world = (Ok tt, w1)
    /\ from_file module_globals "out.hdf" w1 = (Ok ds, w2)
    /\ (forall n, In n (dict_keys (views (object ds w2)))
                  <-> In n (dict_keys (views (object 0 two_view_world))))
    /\ (forall n dv, In (n, PDataview dv) (views (object 0 two_view_world)) ->
          exists dv', dict_get n (views (object ds w2)) = Some (PDataview dv')
                      /\ dv = dv').
Proof.
  apply (save_then_from_file (equiv := @eq sample_view)).
  - exact sample_roundtrip.
  - discriminate.
  - repeat constructor; simpl; intuition discriminate.
  - repeat constructor.
  - split; [intros n []|discriminate].
  - intros n [].
Defined.

(** Witness of C3: to a Dataset of one view, a Dataview is appended under
    a new name, and a dictionary of two views under the name x. *)
Lemma append_pair_witness :
  (let w := one_view_world in
   let kw := [("hi", PDataview view_hi)] in
   let w' := snd (append module_globals 0 kw w) in
   append module_globals 0 [] w = (Ok 0, w)
   /\ fst (append module_globals 0 kw w) = Ok 0
   /\ views (object 0 w')
      = dict_set "hi" (PDataview view_hi) (views (object 0 w))
   /\ views (object 0 w')
      = [("lo", PDataview view_lo); ("hi", PDataview view_hi)]
   /\ dict_get "hi" (views (object 0 w')) = Some (PDataview view_hi)
   /\ (forall k, k <> "hi" ->
         dict_get k (views (object 0 w')) = dict_get k (views (object 0 w)))
   /\ (forall r0, r0 <> 0 -> object r0 w' = object r0 w)
   /\ views_are_dataviews w'
   /\ (forall x, fst (append module_globals 0 kw w) = Ok x -> x = 0))
  /\ (let w := one_view_world in
      let data := PDict [("a", PDataview view_hi); ("lo", PDataview view_hi)] in
      let kw := [("x", data)] in
      let w1 := snd (normalize module_globals data w) in
      let w' := snd (append module_globals 0 kw w) in
      normalize module_globals data w = (Ok (PDataset 1), w1)
      /\ (forall r0, r0 < length (heap w) -> object r0 w1 = object r0 w)
      /\ fst (append module_globals 0 kw w) = Ok 0
      /\ views (object 0 w')
         = dict_update (views (object 0 w)) (views (object 1 w1))
      /\ views (object 0 w')
         = [("lo", PDataview view_hi); ("a", PDataview view_hi)]
      /\ (forall k, In k (dict_keys (views (object 0 w')))
                    <-> In k (dict_keys (views (object 0 w)))
                        \/ In k (dict_keys (views (object 1 w1))))
      /\ (forall k, dict_get k (views (object 0 w'))
                    = match dict_get k (views (object 1 w1)) with
                      | Some v => Some v
                      | None => dict_get k (views (object 0 w))
                      end)
      /\ (forall r0, r0 <> 0 -> object r0 w' = object r0 w1)
      /\ views_are_dataviews w'
      /\ (forall x, fst (append module_globals 0 kw w) = Ok x -> x = 0)).
Proof.
  split.
  - intros w kw w'.
    assert (Hw : views_are_dataviews w) by repeat constructor.
    assert (Hself : 0 < length (heap w)) by (simpl; lia).
    destruct (append_pair "hi" (PDataview view_hi) []
                (r := Ok (PDataview view_hi)) (w1 := w) Hw Hself eq_refl)
      as (A & _ & (C1 & _ & C3 & C4 & C5 & C6) & D & E).
    repeat split; assumption || reflexivity.
  - intros w data kw w1 w'.
    assert (Hw : views_are_dataviews w) by repeat constructor.
    assert (Hself : 0 < length (heap w)) by (simpl; lia).
    destruct (append_pair "x" data [] (r := Ok (PDataset 1)) (w1 := w1)
                Hw Hself eq_refl)
      as (_ & B & (C1 & _ & C3 & C4 & C5 & C6) & D & E).
    split; [reflexivity|]. split; [exact B|]. split; [exact C1|].
    split; [exact C3|]. split; [reflexivity|]. split; [exact C4|].
    split; [|split; [exact C6|split; [exact D|exact E]]].
    apply C5. repeat constructor; simpl; intuition discriminate.
Defined.

(** Witness of C10: the Dataset of two views, each with one raw data
    object. *)
Lemma save_pack_unbound_Volume_witness :
  lookup_global (@module_globals Z sample_view) "Volume"
  = Raise (NameError "Volume")
  /\ exists w2,
       save module_globals 0 (Some "out.hdf") true two_view_world
       = (Raise (NameError "Volume"), w2)
       /\ files w2
          = files (snd (save module_globals 0 (Some "out.hdf") false
                          two_view_world))
       /\ trace w2 = trace two_view_world.
Proof.
  apply save_pack_unbound_Volume.
  - reflexivity.
  - exists "hi", view_hi. split; [left; reflexivity|discriminate].
Defined.

(** C2 on the code.  A Dataset whose five views reference subject S1 with
    transform T1 and the mask named M1 is saved with [pack=True]: [save]
    raises a [NameError] for [Volume], and the file holds no [subjects] node:
    nothing was packed, where the claim has each resource written once. *)
Theorem save_pack_five_views_packs_nothing :
  fst (save module_globals 0 (Some "out.hdf") true five_view_world)
  = Raise (NameError "Volume")
  /\ dict_get "subjects"
       (archive_of "out.hdf"
          (snd (save module_globals 0 (Some "out.hdf") true five_view_world)))
     = None
  /\ trace (snd (save module_globals 0 (Some "out.hdf") true five_view_world))
     = [].
Proof. repeat split. Qed.

(** Had [Volume] been bound to the class of volumes, the same call would
    have written the surfaces, the transform, the mask and the overlay of
    S1, each once for the five views. *)
Lemma save_pack_five_views_with_Volume :
  let w := snd (save globals_with_Volume 0 (Some "out.hdf") true
                  five_view_world) in
  fst (save globals_with_Volume 0 (Some "out.hdf") true five_view_world)
  = Ok tt
  /\ trace w
     = [Wrote ["subjects"; "S1"; "rois"];
        Wrote ["subjects"; "S1"; "surfaces"; "wm"; "lh"; "pts"];
        Wrote ["subjects"; "S1"; "surfaces"; "wm"; "lh"; "polys"];
        Wrote ["subjects"; "S1"; "surfaces"; "wm"; "rh"; "pts"];
        Wrote ["subjects"; "S1"; "surfaces"; "wm"; "rh"; "polys"];
        Wrote ["subjects"; "S1"; "surfaces"; "pia"; "lh"; "pts"];
        Wrote ["subjects"; "S1"; "surfaces"; "pia"; "lh"; "polys"];
        Wrote ["subjects"; "S1"; "surfaces"; "pia"; "rh"; "pts"];
        Wrote ["subjects"; "S1"; "surfaces"; "pia"; "rh"; "polys"];
        Wrote ["subjects"; "S1"; "transforms"; "T1"; "xfm"];
        Wrote ["subjects"; "S1"; "transforms"; "T1"; "masks"; "M1"];
        Flushed "out.hdf"].
Proof. split; reflexivity. Qed.

(** C4 on the code.  A file with a [views] group and one foreign node at the
    top is loaded: [from_file] raises a [NameError] for [_from_hdf_data],
    prints no warning and loads nothing, where the claim has the node
    skipped and the load completed. *)
Theorem from_file_foreign_node_raises :
  fst (from_file module_globals "legacy.hdf" legacy_world)
  = Raise (NameError "_from_hdf_data")
  /\ trace (snd (from_file module_globals "legacy.hdf" legacy_world)) = []
  /\ auxfile (snd (from_file module_globals "legacy.hdf" legacy_world))
     = Some 0.
Proof. repeat split. Qed.

(** Had [_from_hdf_data] been bound to a helper that reports the missing
    metadata with a [KeyError], the node would have been skipped with the
    warning and the load completed. *)
Lemma from_file_foreign_node_with_helper :
  fst (from_file globals_with_helper "legacy.hdf" legacy_world) = Ok 0
  /\ trace (snd (from_file globals_with_helper "legacy.hdf" legacy_world))
     = [Printed ("No metadata found for " ++ dquote ++ "old_run" ++ dquote
                 ++ ", skipping...")]
  /\ auxfile (snd (from_file globals_with_helper "legacy.hdf" legacy_world))
     = None.
Proof. repeat split. Qed.

(** ** More on the read accessors *)
Section AccessorFacts.
Context {num : Type} `{Numeric num}.

Lemma not_found_no_KeyError {A} msg (r : result A) e :
  not_found msg r = Raise e -> is_KeyError_or_TypeError e = false.
Proof.
  destruct r as [a|e0]; simpl; [discriminate|].
  destruct (is_KeyError_or_TypeError e0) eqn:E; intros [= <-];
    [reflexivity|exact E].
Qed.

(** X1. For one hemisphere, and for both hemispheres unmerged, [get_surf]
    never lets a [KeyError] or a [TypeError] out, whatever the package, the
    surface type and the flags: the [try] covers the whole of the work for
    one hemisphere.  The merge of both hemispheres (lines 139-140) is outside
    the [try]: a [KeyError] or a [TypeError] that leaves [get_surf] was
    raised there, by numpy, after both hemispheres were read. *)
Theorem get_surf_never_leaks pkg subj ty hemi merge nudge e :
  get_surf pkg subj ty hemi merge nudge = Raise e ->
  is_KeyError_or_TypeError e = true ->
  hemi = "both" /\ merge = true
  /\ exists lpts lpolys rpts rpolys,
       get_surf pkg subj ty "lh" false nudge = Ok (One lpts lpolys)
       /\ get_surf pkg subj ty "rh" false nudge = Ok (One rpts rpolys)
       /\ (arr_vstack lpts rpts = Raise e
           \/ arr_len lpts = Raise e
           \/ (exists n, arr_len lpts = Ok n /\ arr_add_int rpolys n = Raise e)
           \/ (exists n raised,
                 arr_len lpts = Ok n /\ arr_add_int rpolys n = Ok raised
                 /\ arr_vstack lpolys raised = Raise e)).
Proof.
  unfold get_surf, get_surf_depth. intros E He.
  destruct (String.eqb hemi "both") eqn:Hh.
  2:{ rewrite get_surf_fuel_S, Hh in E. apply not_found_no_KeyError in E.
      congruence. }
  apply String.eqb_eq in Hh. subst hemi.
  rewrite (get_surf_fuel_S 2) in E. simpl String.eqb in E. cbv iota in E.
  rewrite !(get_surf_fuel_hemi 1) by reflexivity.
  destruct (get_surf_fuel 2 pkg subj ty "lh" false nudge) as [l|el] eqn:El.
  2:{ simpl in E. injection E as <-.
      rewrite get_surf_fuel_S in El. simpl String.eqb in El. cbv iota in El.
      apply not_found_no_KeyError in El. congruence. }
  destruct (get_surf_fuel 2 pkg subj ty "rh" false nudge) as [r|er] eqn:Er.
  2:{ simpl in E. injection E as <-.
      rewrite get_surf_fuel_S in Er. simpl String.eqb in Er. cbv iota in Er.
      apply not_found_no_KeyError in Er. congruence. }
  pose proof El as El1. apply get_surf_fuel_one in El1; [|reflexivity].
  pose proof Er as Er1. apply get_surf_fuel_one in Er1; [|reflexivity].
  destruct El1 as (lp & lq & ->). destruct Er1 as (rp & rq & ->).
  simpl in E. destruct merge; [|discriminate E].
  split; [reflexivity|]. split; [reflexivity|].
  exists lp, lq, rp, rq. split; [reflexivity|]. split; [reflexivity|].
  simpl in E.
  destruct (arr_vstack lp rp) as [pts|e1] eqn:E1; simpl in E;
    [|injection E as <-; left; reflexivity].
  destruct (arr_len lp) as [n|e2] eqn:E2; simpl in E;
    [|injection E as <-; right; left; reflexivity].
  destruct (arr_add_int rq n) as [raised|e3] eqn:E3; simpl in E;
    [|injection E as <-; right; right; left; exists n; auto].
  destruct (arr_vstack lq raised) as [polys|e4] eqn:E4; simpl in E;
    [discriminate E|injection E as <-].
  right; right; right. exists n, raised. auto.
Qed.

Lemma get_surf_fuel_hemi_missing n pkg subj ty hemi merge nudge :
  subject_missing pkg subj -> String.eqb hemi "both" = false ->
  get_surf_fuel (S (S n)) pkg subj ty hemi merge nudge
  = Raise (IOError "Subject not found in package").
Proof.
  intros Hm Hh.
  assert (Hs : forall t nd,
             not_found "Subject not found in package"
               (stored_surf pkg subj t hemi nd)
             = Raise (IOError "Subject not found in package")).
  { intros t nd. unfold stored_surf.
    destruct pkg as [root|]; simpl in *; [|reflexivity].
    destruct Hm as (k & E). unfold rbind in E.
    destruct (h5_getitem root "subjects") as [n1|e1]; simpl.
    - destruct (h5_getitem n1 subj) as [n2|e2]; [discriminate|].
      injection E as ->. reflexivity.
    - injection E as ->. reflexivity. }
  rewrite get_surf_fuel_S, Hh.
  destruct (String.eqb ty "fiducial") eqn:Ht; [|apply Hs].
  rewrite !(get_surf_fuel_stored n) by (assumption || reflexivity).
  rewrite Hs. reflexivity.
Qed.

(** X2. When the subject cannot be reached (the Dataset has no file, the file
    has no [subjects] group, or the group has no such subject), [get_surf]
    raises [IOError('Subject not found in package')] for every surface type,
    also the derived one, every hemisphere, also both, and every flag. *)
Theorem get_surf_subject_not_found pkg subj ty hemi merge nudge :
  subject_missing pkg subj ->
  get_surf pkg subj ty hemi merge nudge
  = Raise (IOError "Subject not found in package").
Proof.
  intros Hm. unfold get_surf, get_surf_depth.
  destruct (String.eqb hemi "both") eqn:Hh.
  - rewrite get_surf_fuel_S, Hh.
    rewrite (get_surf_fuel_hemi_missing 0) by (assumption || reflexivity).
    reflexivity.
  - apply (get_surf_fuel_hemi_missing 1); assumption.
Qed.

(** X3. For one hemisphere [get_surf] ignores [merge], and for the derived
    fiducial surface it ignores [nudge] as well: the calls it makes for the
    white-matter and pial surfaces pass no flag on. *)
Theorem get_surf_flags_ignored pkg subj ty hemi merge nudge :
  String.eqb hemi "both" = false ->
  get_surf pkg subj ty hemi merge nudge = get_surf pkg subj ty hemi false nudge
  /\ get_surf pkg subj "fiducial" hemi merge nudge
     = get_surf pkg subj "fiducial" hemi false false.
Proof.
  intros Hh. unfold get_surf, get_surf_depth.
  rewrite !(get_surf_fuel_S 2), Hh. split; reflexivity.
Qed.

(** X4. For both hemispheres unmerged, [get_surf] returns the pair of what it
    returns for the left and for the right hemisphere; it fails with the
    error of the left hemisphere when there is one, whatever [merge], and
    else with the error of the right one. *)
Theorem get_surf_both_unmerged pkg subj ty merge nudge :
  (forall lpts lpolys rpts rpolys,
      get_surf pkg subj ty "lh" false nudge = Ok (One lpts lpolys) ->
      get_surf pkg subj ty "rh" false nudge = Ok (One rpts rpolys) ->
      get_surf pkg subj ty "both" false nudge
      = Ok (Both (lpts, lpolys) (rpts, rpolys)))
  /\ (forall e,
      get_surf pkg subj ty "lh" false nudge = Raise e ->
      get_surf pkg subj ty "both" merge nudge = Raise e)
  /\ (forall l e,
      get_surf pkg subj ty "lh" false nudge = Ok l ->
      get_surf pkg subj ty "rh" false nudge = Raise e ->
      get_surf pkg subj ty "both" merge nudge = Raise e).
Proof.
  unfold get_surf, get_surf_depth.
  split; [|split].
  - intros lp lq rp rq El Er.
    rewrite (get_surf_fuel_hemi 1) in El, Er by reflexivity.
    rewrite (get_surf_fuel_S 2). simpl String.eqb. cbv iota.
    rewrite El, Er. reflexivity.
  - intros e El.
    rewrite (get_surf_fuel_hemi 1) in El by reflexivity.
    rewrite (get_surf_fuel_S 2). simpl String.eqb. cbv iota.
    rewrite El. reflexivity.
  - intros l e El Er.
    rewrite (get_surf_fuel_hemi 1) in El, Er by reflexivity.
    rewrite (get_surf_fuel_S 2). simpl String.eqb. cbv iota.
    rewrite El, Er. reflexivity.
Qed.

(** *** The nudge *)

Lemma heads_sub_head m (rs : list (list num)) :
  heads (map (sub_head m) rs) = map (fun h => nsub h m) (heads rs).
Proof.
  unfold heads. induction rs as [|[|x r] rs IH]; simpl; auto.
  now rewrite IH.
Qed.

Lemma tl_sub_head m (rs : list (list num)) :
  map (@tl num) (map (sub_head m) rs) = map (@tl num) rs.
Proof.
  rewrite map_map. apply map_ext. intros [|x r]; reflexivity.
Qed.

(** With the nudge, the stored surface is read as without it, and then its
    first column is shifted. *)
Lemma stored_surf_nudged pkg subj ty hemi :
  stored_surf pkg subj ty hemi true
  = rbind (stored_surf pkg subj ty hemi false) (fun r =>
    rbind (as_surface r) (fun sf =>
    rbind (arr_nudge (String.eqb hemi "lh") (fst sf))
      (fun pts' => Ok (One pts' (snd sf))))).
Proof.
  unfold stored_surf, rbind.
  repeat match goal with
         | |- context [match ?x with Ok _ => _ | Raise _ => _ end] =>
             destruct x; try reflexivity
         end.
Qed.

(** X5. For a stored surface type of one hemisphere whose points are a
    numeric array with at least one column and one row, [nudge=True]
    returns the surface that [nudge=False] returns with the first column of
    the points shifted and nothing else changed: the polygons, the number
    of columns and every other column stay, and every entry of the first
    column has lost what numpy's reduction of that column gives, its
    maximum for the left hemisphere and its minimum for the right one. *)
Theorem get_surf_nudge pkg subj ty hemi merge (pts0 : ndarray num) polys x xs :
  String.eqb hemi "both" = false -> String.eqb ty "fiducial" = false ->
  get_surf pkg subj ty hemi merge false = Ok (One pts0 polys) ->
  ncols pts0 <> 0 -> heads (rows pts0) = x :: xs ->
  exists pts : ndarray num,
    get_surf pkg subj ty hemi merge true = Ok (One pts polys)
    /\ ncols pts = ncols pts0
    /\ map (@tl num) (rows pts) = map (@tl num) (rows pts0)
    /\ heads (rows pts)
       = map (fun h => nsub h (fold_left
                                 (if String.eqb hemi "lh" then nmax else nmin)
                                 xs x))
           (x :: xs).
Proof.
  intros Hh Ht. unfold get_surf, get_surf_depth.
  rewrite !(get_surf_fuel_stored 2) by assumption.
  intros E Hc Hx. apply not_found_Ok in E.
  rewrite stored_surf_nudged, E. simpl.
  unfold nudge_column. apply Nat.eqb_neq in Hc. rewrite Hc, Hx. simpl.
  eexists. split; [reflexivity|]. simpl.
  split; [reflexivity|]. split; [apply tl_sub_head|].
  rewrite heads_sub_head, Hx. reflexivity.
Qed.

(** *** Paths in an archive *)

Lemma h5_path_cons k p (n x : node num) :
  h5_path (k :: p) n = Ok x ->
  exists c, h5_getitem n k = Ok c /\ h5_path p c = Ok x.
Proof.
  simpl. destruct (h5_getitem n k) as [c|e]; simpl; [eauto|discriminate].
Qed.

Lemma h5_put_cons k p leaf (n n' : node num) :
  h5_put (k :: p) leaf n = Ok n' ->
  exists kids c',
    n = Group kids
    /\ h5_put p leaf (match dict_get k kids with
                      | Some c => c
                      | None => Group []
                      end) = Ok c'
    /\ n' = Group (group_set k c' kids).
Proof.
  simpl. destruct n as [kids| |]; try discriminate.
  destruct (h5_put p leaf _) as [c'|e] eqn:E; [|discriminate].
  intros [= <-]. eauto.
Qed.

(** What was put at a path is found there. *)
Lemma h5_put_path p leaf (n n' : node num) :
  h5_put p leaf n = Ok n' -> h5_path p n' = Ok leaf.
Proof.
  revert n n'; induction p as [|k p IH]; intros n n' E.
  - simpl in *. congruence.
  - apply h5_put_cons in E. destruct E as (kids & c' & -> & E & ->).
    simpl. rewrite group_get_set_same. simpl. eapply IH; eauto.
Qed.

(** What is found at a path stays there when something is put at a path
    that parts ways with it. *)
Lemma h5_put_frame p q leaf (n n' x : node num) :
  diverge p q -> h5_put p leaf n = Ok n' ->
  h5_path q n = Ok x -> h5_path q n' = Ok x.
Proof.
  intros Hd; revert n n'.
  induction Hd as [k k' p q Hne|k p q Hd IH]; intros n n' E Hq;
    apply h5_put_cons in E; destruct E as (kids & c' & -> & E & ->).
  - simpl in *. rewrite group_get_set_other by congruence. exact Hq.
  - simpl in *. rewrite group_get_set_same. simpl.
    destruct (dict_get k kids) as [c|]; simpl in Hq; [|discriminate].
    eapply IH; eauto.
Qed.

(** *** Reading what lies at the paths of a package *)

Ltac path_steps E :=
  repeat (let c := fresh "c" in
          let Ec := fresh "Ec" in
          apply h5_path_cons in E; destruct E as (c & Ec & E)).

Lemma get_xfm_at (root : node num) subj xfmname m attrs sh :
  h5_path ["subjects"; subj; "transforms"; xfmname; "xfm"] root
  = Ok (Dset m attrs) ->
  dict_get "shape" attrs = Some sh ->
  get_xfm (Some root) subj xfmname = Ok (mkTransform m sh).
Proof.
  intros E Hs. path_steps E. simpl in E. injection E as ->.
  unfold get_xfm. simpl. rewrite Ec. simpl. rewrite Ec0. simpl.
  rewrite Ec1. simpl. rewrite Ec2. simpl. rewrite Ec3. simpl.
  rewrite Hs. reflexivity.
Qed.

Lemma get_mask_at (root : node num) subj xfmname maskname nd :
  h5_path ["subjects"; subj; "transforms"; xfmname; "masks"; maskname] root
  = Ok nd ->
  get_mask (Some root) subj xfmname maskname = Ok nd.
Proof.
  intros E. path_steps E. simpl in E. injection E as ->.
  unfold get_mask. simpl. rewrite Ec. simpl. rewrite Ec0. simpl.
  rewrite Ec1. simpl. rewrite Ec2. simpl. rewrite Ec3. simpl.
  rewrite Ec4. reflexivity.
Qed.

Lemma get_overlay_at (root : node num) subj xml :
  h5_path ["subjects"; subj; "rois"] root = Ok (Text [xml]) ->
  get_overlay (Some root) subj "rois" = Ok (WText xml).
Proof.
  intros E. path_steps E. simpl in E. injection E as ->.
  unfold get_overlay. simpl. rewrite Ec. simpl. rewrite Ec0. simpl.
  rewrite Ec1. reflexivity.
Qed.

Lemma h5_path_app p q (n : node num) :
  h5_path (p ++ q) n = rbind (h5_path p n) (h5_path q).
Proof.
  revert n; induction p as [|k p IH]; intros n; simpl; [reflexivity|].
  destruct (h5_getitem n k); simpl; auto.
Qed.

Lemma get_surf_at (root : node num) subj ty hemi merge pts polys a a' :
  String.eqb ty "fiducial" = false -> String.eqb hemi "both" = false ->
  h5_path ["subjects"; subj; "surfaces"; ty; hemi; "pts"] root
  = Ok (Dset pts a) ->
  h5_path ["subjects"; subj; "surfaces"; ty; hemi; "polys"] root
  = Ok (Dset polys a') ->
  get_surf (Some root) subj ty hemi merge false = Ok (One pts polys).
Proof.
  intros Ht Hh E E'.
  change ["subjects"; subj; "surfaces"; ty; hemi; "pts"]
    with (["subjects"; subj; "surfaces"; ty; hemi] ++ ["pts"]) in E.
  change ["subjects"; subj; "surfaces"; ty; hemi; "polys"]
    with (["subjects"; subj; "surfaces"; ty; hemi] ++ ["polys"]) in E'.
  rewrite h5_path_app in E, E'.
  destruct (h5_path ["subjects"; subj; "surfaces"; ty; hemi] root)
    as [group|] eqn:Eg; [|discriminate E].
  simpl in E, E'.
  destruct (h5_getitem group "pts") as [dp|] eqn:Ep; [|discriminate E].
  destruct (h5_getitem group "polys") as [dq|] eqn:Eq; [|discriminate E'].
  simpl in E, E'. injection E as ->. injection E' as ->.
  apply h5_path_cons in Eg. destruct Eg as (n1 & E1 & Eg).
  apply h5_path_cons in Eg. destruct Eg as (n2 & E2 & Eg).
  apply h5_path_cons in Eg. destruct Eg as (n3 & E3 & Eg).
  apply h5_path_cons in Eg. destruct Eg as (n4 & E4 & Eg).
  apply h5_path_cons in Eg. destruct Eg as (n5 & E5 & Eg).
  simpl in Eg. injection Eg as ->.
  unfold get_surf, get_surf_depth.
  rewrite (get_surf_fuel_stored 2) by assumption.
  unfold stored_surf. simpl. rewrite E1. simpl. rewrite E2. simpl.
  rewrite E3. simpl. rewrite E4. simpl. rewrite E5. simpl.
  rewrite Ep. simpl. rewrite Eq. reflexivity.
Qed.

End AccessorFacts.

(** ** Packing, and reading what was packed *)
Section PackFacts.
Context {num Dataview : Type} `{Numeric num} `{Collaborators num Dataview}.

Local Abbreviation World := (world num Dataview).
Local Abbreviation archive := (list (string * node num)).

(** The archive behind [handle] holds [x] at the path [q]. *)
Local Abbreviation holds handle q x w :=
  (h5_path q (Group (archive_of handle (w : World))) = Ok x).

Lemma put_node_Ok handle p leaf (w w' : World) :
  put_node handle p leaf w = (Ok tt, w') ->
  h5_put p leaf (Group (archive_of handle w))
  = Ok (Group (archive_of handle w')).
Proof.
  unfold put_node. intros E.
  apply bind_Ok in E. destruct E as (a & w1 & Ea & E).
  unfold read_archive in Ea. injection Ea as <- <-.
  apply bind_Ok in E. destruct E as (a' & w1 & Ea & E).
  apply lift_Ok in Ea. destruct Ea as [Ea ->].
  unfold write_archive in E. injection E as <-.
  unfold archive_put in Ea.
  destruct (h5_put p leaf (Group (archive_of handle w))) as [[kids| |]|];
    try discriminate.
  injection Ea as ->. unfold archive_of; simpl.
  now rewrite dict_get_set_same.
Qed.

Lemma put_node_holds handle p leaf (w w' : World) :
  put_node handle p leaf w = (Ok tt, w') -> holds handle p leaf w'.
Proof. intros E. apply put_node_Ok in E. eapply h5_put_path; eauto. Qed.

Lemma put_node_keeps handle p q leaf x (w w' : World) :
  diverge p q -> put_node handle p leaf w = (Ok tt, w') ->
  holds handle q x w -> holds handle q x w'.
Proof. intros Hd E Hq. apply put_node_Ok in E. eapply h5_put_frame; eauto. Qed.

Lemma emit_archive handle ev (w w' : World) r :
  emit ev w = (r, w') -> archive_of handle w' = archive_of handle w.
Proof. unfold emit. intros [= _ <-]. reflexivity. Qed.

(** [_hdf_write], when it returns: the array is at the path it returns, and
    what lay at a path that parts ways with it is still there. *)
Lemma hdf_write_Ok handle data name group nd (w w' : World) :
  _hdf_write handle data name group w = (Ok nd, w') ->
  nd = group ++ [name]
  /\ holds handle (group ++ [name]) (Dset data []) w'
  /\ (forall q x, diverge (group ++ [name]) q ->
                  holds handle q x w -> holds handle q x w').
Proof.
  unfold _hdf_write. intros E.
  apply bind_Ok in E. destruct E as ([] & w1 & Ep & E).
  apply bind_Ok in E. destruct E as ([] & w2 & Ee & E).
  unfold ret in E. injection E as <- <-.
  pose proof (@emit_archive handle _ _ _ _ Ee) as Ea. rewrite Ea.
  split; [reflexivity|]. split.
  - eapply put_node_holds; eauto.
  - intros q x Hd Hq. eapply put_node_keeps; eauto.
Qed.

Lemma set_attr_Ok handle path k v (w w' : World) :
  set_attr handle path k v w = (Ok tt, w') ->
  (forall val attrs, holds handle path (Dset val attrs) w ->
                     holds handle path (Dset val (dict_set k v attrs)) w')
  /\ (forall q x, diverge path q ->
                  holds handle q x w -> holds handle q x w').
Proof.
  unfold set_attr. intros E.
  apply bind_Ok in E. destruct E as (a & w1 & Ea & E).
  unfold read_archive in Ea. injection Ea as <- <-.
  apply bind_Ok in E. destruct E as (nd & w1 & En & E).
  apply lift_Ok in En. destruct En as [En ->].
  destruct nd as [|val attrs|]; try discriminate E. split.
  - intros val' attrs' Hv. rewrite Hv in En. injection En as <- <-.
    eapply put_node_holds; eauto.
  - intros q x Hd Hq. eapply put_node_keeps; eauto.
Qed.

Lemma require_text_dataset_Ok handle path (w w' : World) :
  require_text_dataset handle path w = (Ok tt, w') ->
  forall q x, diverge path q -> holds handle q x w -> holds handle q x w'.
Proof.
  unfold require_text_dataset. intros E q x Hd Hq.
  apply bind_Ok in E. destruct E as (a & w1 & Ea & E).
  unfold read_archive in Ea. injection Ea as <- <-.
  destruct (h5_path path (Group (archive_of handle w)))
    as [[| |[|t [|]]]|[]]; try discriminate E.
  - unfold ret in E. injection E as <-. exact Hq.
  - eapply put_node_keeps; eauto.
Qed.

(** A loop that returns leaves [Inv] true when each round keeps it and some
    round, marked [good], makes it true. *)
Lemma for_each_final {A} (Inv : World -> Prop) (good : A -> Prop)
    (xs : list A) (body : A -> M unit) (w w' : World) :
  (forall y w1 w2, In y xs -> body y w1 = (Ok tt, w2) ->
                   Inv w1 \/ good y -> Inv w2) ->
  for_each xs body w = (Ok tt, w') ->
  Inv w \/ (exists y, In y xs /\ good y) -> Inv w'.
Proof.
  revert w; induction xs as [|x xs IH]; intros w Hb E Hi.
  - unfold for_each, ret in E. injection E as <-.
    destruct Hi as [Hi|(y & [] & _)]. exact Hi.
  - cbn [for_each] in E. apply bind_Ok in E. destruct E as ([] & w1 & Ex & E).
    apply (IH w1); [|exact E|].
    + intros y wa wb Hy. apply Hb. right. exact Hy.
    + destruct Hi as [Hi|(y & [<-|Hy] & Hg)].
      * left. eapply Hb; eauto. left; reflexivity.
      * left. eapply Hb; eauto. left; reflexivity.
      * right. eauto.
Qed.

Ltac part_ways :=
  repeat first [ apply diverge_here; congruence | apply diverge_below ].

(** X6. After [_pack_xfms] has returned, [get_xfm] reads back, for every
    pair it was given, the matrix and the shape that the database gave for
    the pair. *)
Theorem pack_xfms_then_get_xfm handle pairs subj xfmname m sh (w w' : World) :
  _pack_xfms handle pairs w = (Ok tt, w') ->
  In (subj, xfmname) pairs ->
  db_get_xfm subj xfmname = Ok (m, sh) ->
  get_xfm (Some (Group (archive_of handle w'))) subj xfmname
  = Ok (mkTransform m sh).
Proof.
  intros E Hin Hdb.
  apply get_xfm_at with (attrs := [("shape", sh)]); [|reflexivity].
  unfold _pack_xfms in E.
  eapply for_each_final
    with (Inv := fun w0 : World =>
                   holds handle ["subjects"; subj; "transforms"; xfmname; "xfm"]
                     (Dset m [("shape", sh)]) w0)
         (good := fun y => y = (subj, xfmname));
    [|exact E|right; eauto].
  clear E Hin. intros [s' x'] w1 w2 _ Eb Hi. cbn [fst snd] in Eb.
  apply bind_Ok in Eb. destruct Eb as (xfm & wa & Ex & Eb).
  apply lift_Ok in Ex. destruct Ex as [Ex ->].
  apply bind_Ok in Eb. destruct Eb as (nd & wb & Ewr & Eattr).
  apply hdf_write_Ok in Ewr. destruct Ewr as (-> & Hat & Hkeep).
  apply set_attr_Ok in Eattr. destruct Eattr as (Hset & Hkeep').
  cbn [fst snd app] in *.
  destruct (string_dec s' subj) as [->|Hs].
  - destruct (string_dec x' xfmname) as [->|Hx].
    + rewrite Hdb in Ex. injection Ex as <-. cbn [fst snd] in *.
      exact (Hset _ _ Hat).
    + destruct Hi as [Hi|Heq]; [|congruence].
      apply Hkeep'; [part_ways|]. apply Hkeep; [part_ways|]. exact Hi.
  - destruct Hi as [Hi|Heq]; [|congruence].
    apply Hkeep'; [part_ways|]. apply Hkeep; [part_ways|]. exact Hi.
Qed.

(** X7. After [_pack_masks] has returned, [get_mask] finds, for every triple
    it was given, a dataset that holds the mask the database gave for the
    triple. *)
Theorem pack_masks_then_get_mask handle triples subj xfmname maskname mask
    (w w' : World) :
  _pack_masks handle triples w = (Ok tt, w') ->
  In (subj, xfmname, maskname) triples ->
  db_get_mask subj xfmname maskname = Ok mask ->
  get_mask (Some (Group (archive_of handle w'))) subj xfmname maskname
  = Ok (Dset mask []).
Proof.
  intros E Hin Hdb. apply get_mask_at.
  unfold _pack_masks in E.
  eapply for_each_final
    with (Inv := fun w0 : World =>
                   holds handle
                     ["subjects"; subj; "transforms"; xfmname; "masks"; maskname]
                     (Dset mask []) w0)
         (good := fun y => y = (subj, xfmname, maskname));
    [|exact E|right; eauto].
  clear E Hin. intros [[s' x'] m'] w1 w2 _ Eb Hi. cbn beta iota in Eb.
  apply bind_Ok in Eb. destruct Eb as (mk & wa & Ex & Eb).
  apply lift_Ok in Ex. destruct Ex as [Ex ->].
  apply bind_Ok in Eb. destruct Eb as (nd & wb & Ewr & Er).
  unfold ret in Er. injection Er as <-.
  apply hdf_write_Ok in Ewr. destruct Ewr as (_ & Hat & Hkeep).
  cbn [fst snd app] in *.
  destruct (string_dec s' subj) as [->|Hs];
    [destruct (string_dec x' xfmname) as [->|Hx];
       [destruct (string_dec m' maskname) as [->|Hm]|]|].
  - rewrite Hdb in Ex. injection Ex as <-. exact Hat.
  - destruct Hi as [Hi|Heq]; [|congruence].
    apply Hkeep; [part_ways|exact Hi].
  - destruct Hi as [Hi|Heq]; [|congruence].
    apply Hkeep; [part_ways|exact Hi].
  - destruct Hi as [Hi|Heq]; [|congruence].
    apply Hkeep; [part_ways|exact Hi].
Qed.

(** One round of the loops over the surfaces and the hemispheres of a
    subject: the points, then the polygons. *)
Lemma pack_hemi_Ok handle subj surf hemi (w w' : World) :
  (s <- lift (db_get_surf subj surf hemi) ;;
   _hdf_write handle (fst s) "pts" ["subjects"; subj; "surfaces"; surf; hemi] ;;;
   _hdf_write handle (snd s) "polys" ["subjects"; subj; "surfaces"; surf; hemi] ;;;
   ret tt) w = (Ok tt, w') ->
  exists pts polys,
    db_get_surf subj surf hemi = Ok (pts, polys)
    /\ holds handle ["subjects"; subj; "surfaces"; surf; hemi; "pts"]
         (Dset pts []) w'
    /\ holds handle ["subjects"; subj; "surfaces"; surf; hemi; "polys"]
         (Dset polys []) w'
    /\ (forall q x,
          diverge ["subjects"; subj; "surfaces"; surf; hemi; "pts"] q ->
          diverge ["subjects"; subj; "surfaces"; surf; hemi; "polys"] q ->
          holds handle q x w -> holds handle q x w').
Proof.
  intros E.
  apply bind_Ok in E. destruct E as ([pts polys] & wa & Es & E).
  apply lift_Ok in Es. destruct Es as [Es ->].
  apply bind_Ok in E. destruct E as (nd1 & w1 & E1 & E).
  apply bind_Ok in E. destruct E as (nd2 & w2 & E2 & E).
  unfold ret in E. injection E as <-.
  apply hdf_write_Ok in E1. destruct E1 as (_ & Hat1 & Hkeep1).
  apply hdf_write_Ok in E2. destruct E2 as (_ & Hat2 & Hkeep2).
  cbn [fst snd app] in *.
  exists pts, polys. split; [exact Es|]. split; [|split].
  - apply Hkeep2; [part_ways|exact Hat1].
  - exact Hat2.
  - intros q x Hd1 Hd2 Hq. apply Hkeep2; [exact Hd2|].
    apply Hkeep1; [exact Hd1|exact Hq].
Qed.

(** The loops over the surfaces of a subject keep what lies at a path that
    parts ways with every path they write. *)
Lemma pack_surfaces_keeps handle subj surfaces q x (w w' : World) :
  (forall surf hemi name,
      diverge ["subjects"; subj; "surfaces"; surf; hemi; name] q) ->
  for_each surfaces (fun surf =>
    for_each ["lh"; "rh"] (fun hemi =>
      s <- lift (db_get_surf subj surf hemi) ;;
      _hdf_write handle (fst s) "pts" ["subjects"; subj; "surfaces"; surf; hemi] ;;;
      _hdf_write handle (snd s) "polys" ["subjects"; subj; "surfaces"; surf; hemi] ;;;
      ret tt)) w = (Ok tt, w') ->
  holds handle q x w -> holds handle q x w'.
Proof.
  intros Hd E Hq.
  eapply for_each_final
    with (Inv := fun w0 : World => holds handle q x w0) (good := fun _ => False);
    [|exact E|left; exact Hq].
  intros surf w1 w2 _ Es [Hi|[]].
  eapply for_each_final
    with (Inv := fun w0 : World => holds handle q x w0) (good := fun _ => False);
    [|exact Es|left; exact Hi].
  intros hemi wa wb _ Eh [Ha|[]].
  apply pack_hemi_Ok in Eh. destruct Eh as (pts & polys & _ & _ & _ & Hkeep).
  apply Hkeep; auto.
Qed.

Ltac subject_round handle Eb :=
  cbn beta in Eb;
  let ov := fresh "ov" in let xml := fresh "xml" in
  let surfs := fresh "surfs" in
  let wa := fresh "wa" in let wb := fresh "wb" in let wc := fresh "wc" in
  let Eov := fresh "Eov" in let Ereq := fresh "Ereq" in
  let Exml := fresh "Exml" in let Eput := fresh "Eput" in
  let Eemit := fresh "Eemit" in let Esurfs := fresh "Esurfs" in
  apply bind_Ok in Eb; destruct Eb as (ov & wa & Eov & Eb);
  apply lift_Ok in Eov; destruct Eov as [Eov ->];
  apply bind_Ok in Eb; destruct Eb as ([] & wa & Ereq & Eb);
  apply bind_Ok in Eb; destruct Eb as (xml & wb & Exml & Eb);
  apply lift_Ok in Exml; destruct Exml as [Exml ->];
  apply bind_Ok in Eb; destruct Eb as ([] & wb & Eput & Eb);
  apply bind_Ok in Eb; destruct Eb as ([] & wc & Eemit & Eb);
  apply (@emit_archive handle) in Eemit;
  apply bind_Ok in Eb; destruct Eb as (surfs & ? & Esurfs & Eb);
  apply lift_Ok in Esurfs; destruct Esurfs as [Esurfs ->].

Lemma holds_same_archive handle q x (w w' : World) :
  archive_of handle w' = archive_of handle w ->
  holds handle q x w -> holds handle q x w'.
Proof. intros E Hq. rewrite E. exact Hq. Qed.

(** X8. After [_pack_subjs] has returned, [get_overlay] hands back, for
    every subject it was given, the XML text that the overlay of the
    database gave for the subject. *)
Theorem pack_subjs_then_get_overlay handle subjects subj ov xml (w w' : World) :
  _pack_subjs handle subjects w = (Ok tt, w') ->
  In subj subjects ->
  db_get_overlay subj = Ok ov -> toxml ov = Ok xml ->
  get_overlay (Some (Group (archive_of handle w'))) subj "rois"
  = Ok (WText xml).
Proof.
  intros E Hin Hov Hxml. apply get_overlay_at.
  unfold _pack_subjs in E.
  eapply for_each_final
    with (Inv := fun w0 : World =>
                   holds handle ["subjects"; subj; "rois"] (Text [xml]) w0)
         (good := fun y => y = subj);
    [|exact E|right; eauto].
  clear E Hin. intros y w1 w2 _ Eb Hi.
  subject_round handle Eb.
  eapply pack_surfaces_keeps; [|exact Eb|].
  - intros surf hemi name.
    destruct (string_dec y subj) as [->|Hy]; part_ways.
  - (eapply holds_same_archive; [exact Eemit|]).
    destruct (string_dec y subj) as [->|Hy].
    + rewrite Hov in Eov. injection Eov as <-.
      rewrite Hxml in Exml. injection Exml as <-.
      eapply put_node_holds; eauto.
    + destruct Hi as [Hi|Heq]; [|congruence].
      eapply put_node_keeps; [|exact Eput|]; [part_ways|].
      eapply require_text_dataset_Ok; [exact Ereq|part_ways|exact Hi].
Qed.

(** X9. After [_pack_subjs] has returned, [get_surf] reads back, for every
    subject it was given, every stored surface type the database lists for
    the subject and either hemisphere, the points and the polygons that the
    database gave. *)
Theorem pack_subjs_then_get_surf handle subjects subj surfs ty hemi merge
    pts polys (w w' : World) :
  _pack_subjs handle subjects w = (Ok tt, w') ->
  In subj subjects ->
  db_get_paths_surfs subj = Ok surfs -> In ty surfs ->
  hemi = "lh" \/ hemi = "rh" ->
  String.eqb ty "fiducial" = false ->
  db_get_surf subj ty hemi = Ok (pts, polys) ->
  get_surf (Some (Group (archive_of handle w'))) subj ty hemi merge false
  = Ok (One pts polys).
Proof.
  intros E Hin Hsurfs Hty Hhemi Hfid Hdb.
  assert (Hboth : String.eqb hemi "both" = false)
    by (destruct Hhemi as [-> | ->]; reflexivity).
  set (Inv := fun w0 : World =>
                holds handle ["subjects"; subj; "surfaces"; ty; hemi; "pts"]
                  (Dset pts []) w0
                /\ holds handle ["subjects"; subj; "surfaces"; ty; hemi; "polys"]
                     (Dset polys []) w0).
  assert (Hfinal : Inv w');
    [|destruct Hfinal as [Hp Hq]; eapply get_surf_at; eauto].
  unfold _pack_subjs in E.
  eapply for_each_final with (Inv := Inv) (good := fun y => y = subj);
    [|exact E|right; eauto].
  clear E Hin. intros y w1 w2 _ Eb Hi.
  subject_round handle Eb.
  assert (Hc : Inv w1 \/ y = subj -> Inv wc \/ y = subj).
  { intros [[Hp Hq]|Hy]; [left|right; exact Hy].
    unfold Inv.
    split; (eapply holds_same_archive; [exact Eemit|]).
    - eapply put_node_keeps; [|exact Eput|];
        [destruct (string_dec y subj) as [->|Hy]; part_ways|].
      eapply require_text_dataset_Ok; [exact Ereq| |exact Hp].
      destruct (string_dec y subj) as [->|Hy]; part_ways.
    - eapply put_node_keeps; [|exact Eput|];
        [destruct (string_dec y subj) as [->|Hy]; part_ways|].
      eapply require_text_dataset_Ok; [exact Ereq| |exact Hq].
      destruct (string_dec y subj) as [->|Hy]; part_ways. }
  specialize (Hc Hi). clear Hi Ereq Eput Eemit.
  eapply for_each_final
    with (Inv := Inv) (good := fun surf => y = subj /\ surf = ty);
    [|exact Eb|].
  - intros surf wa' wb' _ Es His.
    eapply for_each_final
      with (Inv := Inv)
           (good := fun h => y = subj /\ surf = ty /\ h = hemi);
      [|exact Es|].
    + intros h wx wy _ Eh Hih.
      apply pack_hemi_Ok in Eh.
      destruct Eh as (p1 & q1 & Edb & Hat1 & Hat2 & Hkeep).
      destruct (string_dec y subj) as [->|Hy];
        [destruct (string_dec surf ty) as [->|Hs];
           [destruct (string_dec h hemi) as [->|Hh]|]|].
      * rewrite Hdb in Edb. injection Edb as <- <-. split; assumption.
      * destruct Hih as [[Hp Hq]|(_ & _ & Heq)]; [|congruence].
        split; apply Hkeep; auto; part_ways.
      * destruct Hih as [[Hp Hq]|(_ & Heq & _)]; [|congruence].
        split; apply Hkeep; auto; part_ways.
      * destruct Hih as [[Hp Hq]|(Heq & _)]; [|congruence].
        split; apply Hkeep; auto; part_ways.
    + destruct His as [Hi|[-> ->]]; [left; exact Hi|right].
      destruct Hhemi as [-> | ->];
        [exists "lh"|exists "rh"]; simpl; auto.
  - destruct Hc as [Hi | ->]; [left; exact Hi|right].
    rewrite Hsurfs in Esurfs. injection Esurfs as <-.
    exists ty. auto.
Qed.

End PackFacts.

(** ** More on the other read accessors *)
Section OtherAccessorFacts.
Context {num : Type} `{Numeric num}.

(** X10. [get_xfm] and [get_mask] never let a [KeyError] or a [TypeError] of
    the storage layer out, whatever the package and the names asked for. *)
Theorem get_xfm_get_mask_never_leak (pkg : option (node num)) subj xfmname maskname e :
  (get_xfm pkg subj xfmname = Raise e -> is_KeyError_or_TypeError e = false)
  /\ (get_mask pkg subj xfmname maskname = Raise e ->
      is_KeyError_or_TypeError e = false).
Proof. split; apply not_found_no_KeyError. Qed.

(** X11. For an overlay type other than "rois", [get_overlay] never returns
    a file: it raises [IOError('Overlay not found in package')] when the
    subject cannot be reached, and [TypeError('Unknown overlay type')], which
    the [try] does not cover, when the subject is there. *)
Theorem get_overlay_unknown_type (pkg : option (node num)) subj type :
  String.eqb type "rois" = false ->
  (subject_missing pkg subj ->
   get_overlay pkg subj type = Raise (IOError "Overlay not found in package"))
  /\ (forall root g,
        pkg = Some root -> h5_path ["subjects"; subj] root = Ok g ->
        get_overlay pkg subj type = Raise (TypeError "Unknown overlay type")).
Proof.
  intros Ht. unfold get_overlay. rewrite Ht. split.
  - intros Hm. destruct pkg as [root|]; simpl in *; [|reflexivity].
    destruct Hm as (k & E). unfold rbind in E.
    destruct (h5_getitem root "subjects") as [n1|e1]; simpl.
    + destruct (h5_getitem n1 subj) as [n2|e2]; [discriminate|].
      injection E as ->. reflexivity.
    + injection E as ->. reflexivity.
  - intros root g -> E. simpl in *.
    destruct (h5_getitem root "subjects") as [n1|e1]; simpl in *;
      [|discriminate].
    destruct (h5_getitem n1 subj) as [n2|e2]; simpl in *; [|discriminate].
    reflexivity.
Qed.

(** X12. When the subject cannot be reached, [get_xfm], [get_mask] and
    [get_overlay] each raise an [IOError] with the message of their own. *)
Theorem accessors_subject_not_found (pkg : option (node num)) subj xfmname maskname type :
  subject_missing pkg subj ->
  get_xfm pkg subj xfmname = Raise (IOError "Transform not found in package")
  /\ get_mask pkg subj xfmname maskname
     = Raise (IOError "Mask not found in package")
  /\ get_overlay pkg subj type = Raise (IOError "Overlay not found in package").
Proof.
  intros Hm. unfold get_xfm, get_mask, get_overlay.
  destruct pkg as [root|]; simpl in *; [|auto].
  destruct Hm as (k & E). unfold rbind in E.
  destruct (h5_getitem root "subjects") as [n1|e1]; simpl.
  - destruct (h5_getitem n1 subj) as [n2|e2]; [discriminate|].
    injection E as ->. auto.
  - injection E as ->. auto.
Qed.

End OtherAccessorFacts.

(** ** More on the methods of the Dataset *)
Section MethodFacts.
Context {num Dataview : Type} `{Numeric num} `{Collaborators num Dataview}.

Local Abbreviation value := (pyval Dataview).
Local Abbreviation World := (world num Dataview).
Local Abbreviation archive := (list (string * node num)).
Local Abbreviation globals := (list (string * gobj num Dataview)).

(** *** What a step leaves untouched *)

Lemma untouched_refl kf ko (w : World) : untouched kf ko w w.
Proof. repeat split. Qed.

Lemma untouched_trans kf ko (w1 w2 w3 : World) :
  untouched kf ko w1 w2 -> untouched kf ko w2 w3 -> untouched kf ko w1 w3.
Proof.
  intros (F1 & L1 & O1) (F2 & L2 & O2). repeat split.
  - intros f Hf. rewrite F2, F1; auto.
  - congruence.
  - intros r Hr. rewrite O2, O1; auto.
Qed.

Local Abbreviation leaves kf ko :=
  (triple (fun _ : World => True) (@untouched num Dataview kf ko)).

Lemma leaves_bind {A B} kf ko (m : M A) (k : A -> M B) :
  leaves kf ko (fun _ => True) m ->
  (forall x, leaves kf ko (fun _ => True) (k x)) ->
  leaves kf ko (fun _ => True) (bind m k).
Proof.
  intros Hm Hk. eapply triple_bind; [apply untouched_trans|exact Hm|].
  intros x _. apply Hk.
Qed.

Lemma leaves_try {A} kf ko (m : M A) catches h :
  leaves kf ko (fun _ => True) m ->
  (forall e, leaves kf ko (fun _ => True) (h e)) ->
  leaves kf ko (fun _ => True) (try_except m catches h).
Proof. apply triple_try. apply untouched_trans. Qed.

Lemma leaves_pure {A} kf ko (m : M A) :
  (forall w, snd (m w) = w) -> leaves kf ko (fun _ => True) m.
Proof.
  intros Hm w r w' _ E. pose proof (Hm w) as Hw. rewrite E in Hw.
  simpl in Hw. subst w'. split; [apply untouched_refl|auto].
Qed.

Lemma leaves_emit kf ko ev : leaves kf ko (fun _ => True) (emit ev).
Proof. intros w r w' _ [= _ <-]. repeat split. Qed.

Lemma leaves_set_auxfile kf ko a :
  leaves kf ko (fun _ => True) (set_auxfile a).
Proof. intros w r w' _ [= _ <-]. repeat split. Qed.

Lemma leaves_set_object kf ko self o :
  ~ ko self -> leaves kf ko (fun _ => True) (set_object self o).
Proof.
  intros Hs w r w' _ [= _ <-]. repeat split; simpl.
  - apply length_list_set.
  - intros r0 Hr. unfold object; simpl. apply nth_list_set_other.
    intros ->. contradiction.
Qed.

Lemma leaves_set_view kf ko self name v :
  ~ ko self -> leaves kf ko (fun _ => True) (set_view self name v).
Proof.
  intros Hs. unfold set_view. apply leaves_bind;
    [apply leaves_pure; reflexivity|intros o]. apply leaves_set_object, Hs.
Qed.

Lemma leaves_write_archive kf ko handle a :
  ~ kf handle -> leaves kf ko (fun _ => True) (write_archive handle a).
Proof.
  intros Hh w r w' _ [= _ <-]. repeat split; simpl.
  intros f Hf. unfold archive_of; simpl.
  rewrite dict_get_set_other; [reflexivity|]. intros ->. contradiction.
Qed.

Lemma leaves_put_node kf ko handle p leaf :
  ~ kf handle -> leaves kf ko (fun _ => True) (put_node handle p leaf).
Proof.
  intros Hh. unfold put_node.
  apply leaves_bind; [apply leaves_pure; reflexivity|intros a].
  apply leaves_bind; [apply leaves_pure; reflexivity|intros a'].
  apply leaves_write_archive, Hh.
Qed.

Lemma leaves_for_each {A} kf ko (xs : list A) body :
  (forall x, leaves kf ko (fun _ => True) (body x)) ->
  leaves kf ko (fun _ => True) (for_each xs body).
Proof.
  intros Hb. apply triple_for_each;
    [apply untouched_refl|apply untouched_trans|]. intros x _. apply Hb.
Qed.

Ltac leaves_step Hh :=
  first
    [ apply leaves_emit
    | apply leaves_set_auxfile
    | apply leaves_put_node; exact Hh
    | apply leaves_write_archive; exact Hh
    | apply leaves_set_view; exact Hh
    | apply leaves_for_each; intros ?
    | apply leaves_try; [|intros ?]
    | apply leaves_pure; reflexivity
    | apply leaves_bind; [|intros ?] ].

Lemma leaves_hdf_write kf ko handle data name group :
  ~ kf handle -> leaves kf ko (fun _ => True) (_hdf_write handle data name group).
Proof. intros Hh. unfold _hdf_write. repeat leaves_step Hh. Qed.

Lemma leaves_pack kf ko handle subjects pairs triples :
  ~ kf handle ->
  leaves kf ko (fun _ => True) (_pack_subjs handle subjects)
  /\ leaves kf ko (fun _ => True) (_pack_xfms handle pairs)
  /\ leaves kf ko (fun _ => True) (_pack_masks handle triples).
Proof.
  intros Hh. split; [|split].
  - unfold _pack_subjs. apply leaves_for_each; intros subj.
    apply leaves_bind; [apply leaves_pure; reflexivity|intros rois].
    apply leaves_bind.
    { unfold require_text_dataset.
      apply leaves_bind; [apply leaves_pure; reflexivity|intros a].
      destruct (h5_path _ _) as [[| |[|t [|]]]|[]];
        first [apply leaves_put_node; exact Hh | apply leaves_pure; reflexivity]. }
    intros _. repeat first [apply leaves_hdf_write; exact Hh | leaves_step Hh].
  - unfold _pack_xfms. apply leaves_for_each; intros sx.
    apply leaves_bind; [apply leaves_pure; reflexivity|intros xfm].
    apply leaves_bind; [apply leaves_hdf_write; exact Hh|intros nd].
    unfold set_attr.
    apply leaves_bind; [apply leaves_pure; reflexivity|intros a].
    apply leaves_bind; [apply leaves_pure; reflexivity|intros n].
    destruct n; first [apply leaves_put_node; exact Hh
                      | apply leaves_pure; reflexivity].
  - unfold _pack_masks. apply leaves_for_each; intros [[s x] m].
    repeat first [apply leaves_hdf_write; exact Hh | leaves_step Hh].
Qed.

Lemma leaves_write_views kf ko handle items :
  ~ kf handle -> leaves kf ko (fun _ => True) (write_views handle items).
Proof.
  intros Hh. induction items as [|[name v] items IH]; cbn [write_views].
  - apply leaves_pure; reflexivity.
  - destruct v; try (apply leaves_pure; reflexivity).
    apply leaves_bind; [apply leaves_pure; reflexivity|intros a].
    apply leaves_bind; [apply leaves_pure; reflexivity|intros a'].
    apply leaves_bind; [apply leaves_write_archive; exact Hh|intros _].
    exact IH.
Qed.

(** *** [save]: what it needs, what it packs and what it touches *)

Lemma archive_of_h5py_File fn f (w : World) :
  archive_of f (snd (h5py_File fn w)) = archive_of f w.
Proof.
  unfold h5py_File, archive_of; simpl.
  destruct (dict_get fn (files w)) as [kids|] eqn:E; simpl; [reflexivity|].
  revert E. generalize (files w) as d.
  induction d as [|[k v] d IH]; simpl; intros E.
  - destruct (String.eqb f fn); reflexivity.
  - destruct (String.eqb fn k) eqn:Ek; [discriminate|].
    destruct (String.eqb f k); [reflexivity|apply IH; exact E].
Qed.

Lemma save_handle_untouched self filename (w : World) r w0 :
  save_handle self filename w = (r, w0) ->
  (forall f, archive_of f w0 = archive_of f w)
  /\ length (heap w0) = length (heap w)
  /\ (forall r0, views (object r0 w0) = views (object r0 w))
  /\ (forall r0, r0 <> self -> object r0 w0 = object r0 w)
  /\ (forall hd, r = Ok hd -> save_target self filename w = Some hd).
Proof.
  destruct filename as [fn|]; simpl.
  - intros E.
    assert (Ha : forall f, archive_of f (snd (h5py_File fn w)) = archive_of f w)
      by (intros f; apply archive_of_h5py_File).
    unfold bind, h5py_File, set_h5, get_object, set_object, ret in E.
    unfold h5py_File, archive_of in Ha. simpl in Ha.
    destruct (dict_get fn (files w)) as [kids|] eqn:Ef;
      injection E as <- <-; unfold object, archive_of; simpl in *;
      (split; [exact Ha|]); (split; [apply length_list_set|]);
      (split; [|split]).
    + intros r0. destruct (Nat.eq_dec r0 self) as [->|Hne].
      * apply views_list_set_same.
      * rewrite nth_list_set_other by congruence. reflexivity.
    + intros r0 Hne. rewrite nth_list_set_other by congruence. reflexivity.
    + intros hd [= <-]. reflexivity.
    + intros r0. destruct (Nat.eq_dec r0 self) as [->|Hne].
      * apply views_list_set_same.
      * rewrite nth_list_set_other by congruence. reflexivity.
    + intros r0 Hne. rewrite nth_list_set_other by congruence. reflexivity.
    + intros hd [= <-]. reflexivity.
  - unfold bind, get_object. destruct (h5 (object self w)) as [hd|] eqn:Eh;
      intros [= <- <-]; repeat split; auto; try discriminate.
    intros hd' [= <-]. reflexivity.
Qed.

(** X13. [save] without a file name on a Dataset that was never bound to a
    file raises [ValueError('Must provide filename for new datasets')],
    whatever [pack], and changes nothing. *)
Theorem save_new_dataset_needs_filename G self pack (w : World) :
  h5 (object self w) = None ->
  save G self None pack w
  = (Raise (ValueError "Must provide filename for new datasets"), w).
Proof.
  intros Eh. rewrite save_unfold. unfold bind at 1. simpl save_handle.
  unfold bind at 1, get_object at 1. rewrite Eh. reflexivity.
Qed.

Lemma collect_views_nothing (G : globals) (vs : list value) acc :
  (forall v, In v vs -> exists dv, v = PDataview dv /\ uniques dv = []) ->
  collect_views G vs acc = Ok acc.
Proof.
  induction vs as [|v vs IH]; intros Hv; [reflexivity|].
  destruct (Hv v (or_introl eq_refl)) as (dv & -> & Eu).
  cbn [collect_views]. rewrite Eu. simpl. apply IH.
  intros v' Hin. apply Hv. right. exact Hin.
Qed.

(** X14. When no view of the Dataset has an underlying data object
    ([uniques()] is empty for each), [save] with [pack=True] does what it
    does with [pack=False], whatever the module binds: the name [Volume] is
    never looked up and nothing is packed. *)
Theorem save_pack_nothing_to_pack G self filename (w : World) :
  (forall n dv, In (n, PDataview dv) (views (object self w)) ->
                uniques dv = []) ->
  save G self filename true w = save G self filename false w.
Proof.
  intros Hu. rewrite !save_unfold.
  apply bind_ext. intros hd w0 E0.
  destruct (save_handle_untouched _ _ _ E0) as (_ & _ & Hviews & _).
  apply bind_ext. intros o w0' [= <- <-].
  apply bind_ext. intros [] wv Ev.
  destruct (write_views_frame _ _ _ Ev) as (Hh & _ & _ & Hd).
  specialize (Hd eq_refl). rewrite Hviews in Hd.
  assert (Ep : save_pack G self hd wv = (Ok tt, wv)).
  { unfold save_pack. unfold bind at 1, get_object at 1.
    unfold bind at 1, lift at 1.
    assert (Eo : views (object self wv) = views (object self w)).
    { unfold object. rewrite Hh. apply Hviews. }
    rewrite Eo, (collect_views_nothing G _ (mkPackSets [] [] [])).
    - reflexivity.
    - intros v Hin. unfold dict_values in Hin. apply in_map_iff in Hin.
      destruct Hin as ([n v'] & <- & Hin). simpl.
      rewrite Forall_forall in Hd. specialize (Hd _ Hin). simpl in Hd.
      destruct v' as [dv| | | | |]; try contradiction.
      exists dv. split; [reflexivity|]. eapply Hu; eauto. }
  unfold bind. rewrite Ep. reflexivity.
Qed.

(** X15. [save] writes to one file only, the one it was given or else the
    one the Dataset is bound to: every other file keeps its content, every
    Dataset keeps its views, and every Dataset but [self] is left as it
    was, whatever [pack] and also when [save] raises. *)
Theorem save_touches_one_file G self filename pack (w : World) :
  let w' := snd (save G self filename pack w) in
  (forall f, save_target self filename w <> Some f ->
             archive_of f w' = archive_of f w)
  /\ (forall r, views (object r w') = views (object r w))
  /\ (forall r, r <> self -> object r w' = object r w)
  /\ length (heap w') = length (heap w).
Proof.
  destruct (save G self filename pack w) as [r w'] eqn:E. simpl.
  rewrite save_unfold in E. unfold bind at 1 in E.
  destruct (save_handle self filename w) as [[hd|e] w0] eqn:E0.
  2:{ injection E as <- <-.
      destruct (save_handle_untouched _ _ _ E0) as (Ha & Hl & Hv & Ho & _).
      auto. }
  destruct (save_handle_untouched _ _ _ E0) as (Ha & Hl & Hv & Ho & Ht).
  specialize (Ht hd eq_refl).
  assert (Hrest : leaves (fun f => f <> hd) (fun _ => True) (fun _ => True)
            (o <- get_object self ;;
             write_views hd (views o) ;;;
             (if pack then save_pack G self hd else ret tt) ;;;
             emit (Flushed hd))).
  { assert (Hh : ~ hd <> hd) by (intros X; apply X; reflexivity).
    apply leaves_bind; [apply leaves_pure; reflexivity|intros o].
    apply leaves_bind; [apply leaves_write_views; exact Hh|intros _].
    apply leaves_bind; [|intros _; apply leaves_emit].
    destruct pack; [|apply leaves_pure; reflexivity].
    unfold save_pack.
    apply leaves_bind; [apply leaves_pure; reflexivity|intros o'].
    apply leaves_bind; [apply leaves_pure; reflexivity|intros sets].
    destruct (@leaves_pack (fun f => f <> hd) (fun _ => True) hd
                (subjs sets) (xfms sets) (masks sets) Hh) as (H1 & H2 & H3).
    apply leaves_bind; [exact H1|intros _].
    apply leaves_bind; [exact H2|intros _]. exact H3. }
  destruct (Hrest w0 r w' I E) as ((F & L & O) & _).
  repeat split.
  - intros f Hf. rewrite F by congruence. apply Ha.
  - intros r0. rewrite O by exact I. apply Hv.
  - intros r0 Hr. rewrite O by exact I. apply Ho, Hr.
  - congruence.
Qed.

(** *** [from_file]: what it loads and what it leaves alone *)


Lemma opened_heap filename (w : World) :
  heap (opened filename w)
  = list_set (length (heap w)) (mkDataset (Some filename) [])
      (heap w ++ [empty_dataset]).
Proof.
  unfold opened, set_auxfile, set_h5, bind, get_object, set_object, h5py_File,
    new_dataset, object; simpl.
  destruct (dict_get filename (files w)); simpl;
    rewrite app_nth2, Nat.sub_diag by lia; reflexivity.
Qed.

Lemma opened_objects filename (w : World) :
  object (length (heap w)) (opened filename w) = mkDataset (Some filename) []
  /\ length (heap (opened filename w)) = S (length (heap w))
  /\ (forall r, r < length (heap w) ->
                object r (opened filename w) = object r w).
Proof.
  unfold object. rewrite opened_heap. split; [|split].
  - apply nth_list_set_same. rewrite length_app. simpl. lia.
  - rewrite length_list_set, length_app. simpl. lia.
  - intros r Hr. rewrite nth_list_set_other by lia.
    apply app_nth1. exact Hr.
Qed.

(** X16. On a file whose top level holds reserved names only and no [views]
    group (a file that did not exist is one), [from_file] raises
    [KeyError('views')] after it has opened the file, and leaves
    [db.auxfile] bound to the Dataset it was building. *)
Theorem from_file_no_views_group G filename (w : World) :
  (forall n, In n (dict_keys (archive_of filename w)) -> reserved n = true) ->
  dict_get "views" (archive_of filename w) = None ->
  from_file G filename w = (Raise (KeyError "views"), opened filename w)
  /\ auxfile (opened filename w) = Some (length (heap w)).
Proof.
  intros Hres Hnone. split; [|reflexivity].
  rewrite from_file_unfold.
  unfold bind at 1, read_archive at 1. rewrite opened_archive.
  unfold bind at 1. rewrite load_stray_reserved by exact Hres.
  unfold bind at 1, read_archive at 1. rewrite opened_archive.
  unfold bind at 1, lift at 1. simpl h5_getitem. rewrite Hnone. reflexivity.
Qed.

(** The loop over the nodes under [views/], whatever can be read: each node
    is tried under the binding of [db.auxfile], what was read is stored and
    what failed leaves its traceback. *)
Lemma load_views_spec ds fn (items : archive) (w : World) :
  ds < length (heap w) -> auxfile w = Some ds ->
  exists w',
    load_views ds fn items w = (Ok tt, w')
    /\ archive_of fn w' = archive_of fn w
    /\ auxfile w' = Some ds
    /\ h5 (object ds w') = h5 (object ds w)
    /\ trace w' = trace w ++ load_events ds (archive_of fn w) items
    /\ views (object ds w')
       = dict_update (views (object ds w))
           (loaded_views ds (archive_of fn w) items).
Proof.
  revert w; induction items as [|[name nd] items IH]; intros w Hds Haux.
  - exists w. simpl. rewrite app_nil_r. repeat split; auto.
  - set (we := snd (emit (LoadView name (auxfile w)) w)).
    destruct (from_hdf (Some ds) (archive_of fn w) name nd) as [dv|e] eqn:Edv.
    + set (ws := with_views ds
                   (dict_set name (PDataview dv) (views (object ds we))) we).
      assert (Estep : load_views ds fn ((name, nd) :: items) w
                      = load_views ds fn items ws).
      { cbn [load_views]. unfold bind at 1, try_except at 1.
        unfold bind at 1, get_auxfile at 1. unfold bind at 1.
        change (emit (LoadView name (auxfile w)) w) with (Ok tt, we). cbv iota.
        unfold bind at 1, read_archive at 1. unfold bind at 1, lift at 1.
        change (archive_of fn we) with (archive_of fn w).
        rewrite Haux, Edv. rewrite set_view_with_views. reflexivity. }
      destruct (IH ws) as (w' & E' & Ha & Hx & Hh & Ht & Hv).
      { unfold ws, with_views; simpl. rewrite length_list_set. exact Hds. }
      { exact Haux. }
      exists w'. rewrite Estep. split; [exact E'|].
      change (archive_of fn ws) with (archive_of fn w) in *.
      split; [exact Ha|]. split; [exact Hx|].
      split; [rewrite Hh; unfold ws; rewrite h5_object_with_views; reflexivity|].
      split.
      * rewrite Ht. cbn [load_events flat_map fst snd]. rewrite Edv.
        change (trace ws) with (trace w ++ [LoadView name (auxfile w)]).
        rewrite Haux, <- app_assoc. reflexivity.
      * rewrite Hv. cbn [loaded_views flat_map fst snd]. rewrite Edv.
        unfold ws. rewrite object_with_views by exact Hds. reflexivity.
    + set (wt := snd (emit (Traceback e) we)).
      assert (Estep : load_views ds fn ((name, nd) :: items) w
                      = load_views ds fn items wt).
      { cbn [load_views]. unfold bind at 1, try_except at 1.
        unfold bind at 1, get_auxfile at 1. unfold bind at 1.
        change (emit (LoadView name (auxfile w)) w) with (Ok tt, we). cbv iota.
        unfold bind at 1, read_archive at 1. unfold bind at 1, lift at 1.
        change (archive_of fn we) with (archive_of fn w).
        rewrite Haux, Edv. reflexivity. }
      destruct (IH wt) as (w' & E' & Ha & Hx & Hh & Ht & Hv);
        [exact Hds|exact Haux|].
      exists w'. rewrite Estep. split; [exact E'|].
      change (archive_of fn wt) with (archive_of fn w) in *.
      split; [exact Ha|]. split; [exact Hx|]. split; [exact Hh|].
      split.
      * rewrite Ht. cbn [load_events flat_map fst snd]. rewrite Edv.
        change (trace wt)
          with ((trace w ++ [LoadView name (auxfile w)]) ++ [Traceback e]).
        rewrite Haux, <- !app_assoc. reflexivity.
      * rewrite Hv. cbn [loaded_views flat_map fst snd]. rewrite Edv.
        reflexivity.
Qed.

(** X17. On a file whose top level holds reserved names only and a [views]
    group, [from_file] returns a new Dataset bound to the file.  It keeps,
    in the order of the group, the views that [Dataview.from_hdf] could
    read under the binding of [db.auxfile] to the new Dataset, and skips the
    others, each with a traceback; the binding is [None] afterwards. *)
Theorem from_file_best_effort G filename vs (w : World) :
  (forall n, In n (dict_keys (archive_of filename w)) -> reserved n = true) ->
  dict_get "views" (archive_of filename w) = Some (Group vs) ->
  exists w',
    from_file G filename w = (Ok (length (heap w)), w')
    /\ h5 (object (length (heap w)) w') = Some filename
    /\ views (object (length (heap w)) w')
       = dict_update [] (loaded_views (length (heap w))
                           (archive_of filename w) vs)
    /\ (forall n, In n (dict_keys (views (object (length (heap w)) w')))
                  <-> exists nd dv,
                        In (n, nd) vs
                        /\ from_hdf (Some (length (heap w)))
                             (archive_of filename w) n nd = Ok dv)
    /\ trace w' = trace w ++ load_events (length (heap w))
                               (archive_of filename w) vs
    /\ auxfile w' = None.
Proof.
  intros Hres Hviews.
  set (ds := length (heap w)). set (a := archive_of filename w).
  destruct (opened_objects filename w) as (Eo & El & _). fold ds in Eo.
  destruct (@load_views_spec ds filename vs (opened filename w))
    as (w1 & E1 & Ha & Hx & Hh & Ht & Hv).
  { rewrite El. unfold ds. lia. }
  { reflexivity. }
  rewrite opened_archive in Ht, Hv. fold a in Ht, Hv.
  rewrite Eo in Hh, Hv. simpl in Hh, Hv. rewrite opened_trace in Ht.
  exists (snd (set_auxfile None w1)).
  split; [|split; [exact Hh|split; [exact Hv|split; [|split; [exact Ht|reflexivity]]]]].
  - rewrite from_file_unfold. fold ds.
    unfold bind at 1, read_archive at 1. rewrite opened_archive.
    unfold bind at 1. rewrite load_stray_reserved by exact Hres.
    unfold bind at 1, read_archive at 1. rewrite opened_archive.
    unfold bind at 1, lift at 1. simpl h5_getitem. rewrite Hviews.
    simpl rbind. unfold bind at 1. rewrite E1. reflexivity.
  - intros n. change (views (object ds (snd (set_auxfile None w1))))
      with (views (object ds w1)).
    rewrite Hv, dict_update_keys. unfold dict_keys, loaded_views. simpl.
    rewrite in_map_iff. split.
    + intros [[]|([n' v] & <- & Hin)]. apply in_flat_map in Hin.
      destruct Hin as ([k nd] & Hin & Hkv). simpl in Hkv.
      destruct (from_hdf (Some ds) a k nd) as [dv|e] eqn:Edv; [|destruct Hkv].
      destruct Hkv as [[= <- <-]|[]]. exists nd, dv. auto.
    + intros (nd & dv & Hin & Edv). right. exists (n, PDataview dv).
      split; [reflexivity|]. apply in_flat_map. exists (n, nd).
      split; [exact Hin|]. simpl. rewrite Edv. left; reflexivity.
Qed.






(** *** [append] and [Dataset], pair after pair *)

(** X19. Building a Dataset from keyword arguments is building it from the
    first of them and appending the others: [Dataset] and [append] take the
    pairs one after the other, in their order. *)
Theorem Dataset_then_append G k1 k2 (w : World) :
  Dataset G (k1 ++ k2) w = (ds <- Dataset G k1 ;; append G ds k2) w.
Proof.
  unfold Dataset. rewrite bind_assoc. apply bind_ext. intros ds w1 _.
  unfold bind. rewrite append_app. unfold bind.
  destruct (append G ds k1 w1) as [[x|e] w2] eqn:E1; [|reflexivity].
  unfold ret.
  destruct (append G ds k2 w2) as [[y|e] w3] eqn:E2; [|reflexivity].
  apply append_returns_self in E2. subst y. reflexivity.
Qed.

(** X20. [append] is not atomic: when the value of a pair cannot be
    normalized, the exception leaves [append] and the pairs before it stay
    stored, the world being the one their own [append] left. *)
Theorem append_keeps_earlier_pairs G self pre name v rest e
    (w w1 w2 : World) x :
  append G self pre w = (Ok x, w1) ->
  normalize G v w1 = (Raise e, w2) ->
  append G self (pre ++ (name, v) :: rest) w = (Raise e, w2).
Proof.
  intros Epre Ev. rewrite append_app. unfold bind at 1. rewrite Epre.
  unfold append. cbn [append_with]. unfold bind at 1. rewrite Ev. reflexivity.
Qed.

(** X21. When the view normalizer returns, for a tuple, something that is
    neither a Dataview nor a Dataset, [append] raises
    [ValueError('Unknown input <name>=<repr>')] with the name of the pair
    and the [repr] of the tuple, and changes nothing. *)
Theorem append_unknown_normalized G self name elts v rest (w : World) :
  _vnorm elts = Ok v ->
  (forall dv, v <> PDataview dv) -> (forall r, v <> PDataset r) ->
  append G self ((name, PTuple elts) :: rest) w
  = (Raise (ValueError ("Unknown input " ++ name ++ "="
                        ++ py_repr (PTuple elts))), w).
Proof.
  intros Ev Hdv Hds. unfold append. cbn [append_with normalize].
  unfold bind at 1, lift at 1. rewrite Ev.
  destruct v; try reflexivity; [destruct (Hdv dv)|destruct (Hds ref)];
    reflexivity.
Qed.

(** *** [__getitem__], [__len__] and [prepend] *)

Lemma dict_set_length {V} k (v : V) d :
  length (dict_set k v d)
  = match dict_get k d with
    | Some _ => length d
    | None => S (length d)
    end.
Proof.
  induction d as [|[k' v'] d IH]; simpl; [reflexivity|].
  destruct (String.eqb k k'); simpl; [reflexivity|].
  rewrite IH. destruct (dict_get k d); reflexivity.
Qed.

(** X22. After a view was appended under a name, [__getitem__] returns it
    for the name and what it returned before for every other name, and
    [__len__] has grown by one exactly when the name was new. *)
Theorem append_then_getitem G self name v dv (w : World) :
  self < length (heap w) -> as_view v = Some dv ->
  exists w1,
    append G self [(name, v)] w = (Ok self, w1)
    /\ Dataset_getitem self name w1 = (Ok (PDataview dv), w1)
    /\ (forall k, k <> name ->
          fst (Dataset_getitem self k w1) = fst (Dataset_getitem self k w))
    /\ Dataset_len self w1
       = (Ok (match dict_get name (views (object self w)) with
              | Some _ => length (views (object self w))
              | None => S (length (views (object self w)))
              end), w1).
Proof.
  intros Hself Ev.
  assert (Hk : Forall (fun kv : string * value => as_view (snd kv) <> None)
                 [(name, v)]).
  { constructor; [simpl; congruence|constructor]. }
  rewrite append_as_views; [|exact Hself|exact Hk].
  eexists; split; [reflexivity|].
  unfold Dataset_getitem, Dataset_len, bind, get_object, ret.
  rewrite object_with_views by exact Hself.
  cbn [views as_views map dict_update fold_left fst snd]. rewrite Ev.
  split; [|split].
  - rewrite dict_get_set_same. reflexivity.
  - intros k Hne. rewrite dict_get_set_other by exact Hne.
    destruct (dict_get k (views (object self w))); reflexivity.
  - rewrite dict_set_length. reflexivity.
Qed.

Lemma string_app_inj (p a b : string) :
  (p ++ a)%string = (p ++ b)%string -> a = b.
Proof. induction p as [|c p IH]; simpl; [auto|]. intros [= E]. auto. Qed.

Lemma dict_set_fresh {V} k (v : V) d :
  ~ In k (dict_keys d) -> dict_set k v d = d ++ [(k, v)].
Proof.
  induction d as [|[k' v'] d IH]; simpl; intros Hn; [reflexivity|].
  destruct (String.eqb k k') eqn:E.
  - apply String.eqb_eq in E. subst. destruct Hn. left; reflexivity.
  - rewrite IH; [reflexivity|]. intros Hin. apply Hn. right; exact Hin.
Qed.

(** Updating with entries whose keys are distinct and new appends them. *)
Lemma dict_update_fresh {V} (d e : list (string * V)) :
  NoDup (dict_keys e) ->
  (forall k, In k (dict_keys e) -> ~ In k (dict_keys d)) ->
  dict_update d e = d ++ e.
Proof.
  unfold dict_update. revert d.
  induction e as [|[k v] e IH]; intros d Hn Hf; simpl.
  - now rewrite app_nil_r.
  - inversion Hn as [|? ? Hk Hn']; subst.
    rewrite dict_set_fresh by (apply Hf; left; reflexivity).
    rewrite IH; [now rewrite <- app_assoc|exact Hn'|].
    intros k' Hin. unfold dict_keys. rewrite map_app, in_app_iff. simpl.
    intros [Hd|[<-|[]]].
    + apply (Hf k'); [right; exact Hin|exact Hd].
    + apply Hk. exact Hin.
Qed.

Lemma prepend_fold prefix (items d : list (string * value)) :
  fold_left (fun d kv => dict_set (prefix ++ fst kv) (snd kv) d) items d
  = dict_update d (map (fun kv => ((prefix ++ fst kv)%string, snd kv)) items).
Proof.
  unfold dict_update. revert d.
  induction items as [|kv items IH]; intros d; simpl; [reflexivity|apply IH].
Qed.

Lemma as_views_dataviews (kwargs : list (string * value)) :
  Forall (fun kv => is_dataview (snd kv)) kwargs ->
  as_views kwargs = kwargs
  /\ Forall (fun kv => as_view (snd kv) <> None) kwargs.
Proof.
  induction 1 as [|[n v] l Hv Hl [IH1 IH2]]; [split; [reflexivity|constructor]|].
  simpl in Hv. destruct v as [dv| | | | |]; try contradiction.
  unfold as_views in *. simpl. rewrite IH1.
  split; [reflexivity|constructor; [simpl; discriminate|exact IH2]].
Qed.

(** X23. [prepend] on a Dataset of Dataviews with distinct names.  When no
    prefixed name is [self], it returns a new Dataset, bound to no file,
    whose views are those of the iteration, in its order, each under its
    name with the prefix put before; the Dataset itself, the other objects
    and the files are left as they were.  When a prefixed name is [self],
    the call of [Dataset] is refused with a [TypeError] and nothing is
    made. *)
Theorem prepend_views G self prefix (w : World) :
  dataview_entries (object self w) ->
  NoDup (dict_keys (views (object self w))) ->
  exists items,
    Dataset_iter self w = (Ok items, w)
    /\ if takes_self
            (map (fun kv => ((prefix ++ fst kv)%string, snd kv)) items)
       then exists msg, prepend G self prefix w = (Raise (TypeError msg), w)
       else exists w',
              prepend G self prefix w = (Ok (length (heap w)), w')
              /\ object (length (heap w)) w'
                 = mkDataset None
                     (map (fun kv => ((prefix ++ fst kv)%string, snd kv))
                        items)
              /\ (forall r, r < length (heap w) -> object r w' = object r w)
              /\ files w' = files w.
Proof.
  intros Hd Hn.
  destruct (Dataset_iter_sorted self w Hd) as (items & Ei & Hp & _).
  exists items. split; [exact Ei|].
  remember (map (fun kv : string * value => ((prefix ++ fst kv)%string, snd kv))
              items) as d eqn:Ed.
  assert (Hdv : Forall (fun kv : string * value => is_dataview (snd kv)) d).
  { rewrite Ed. apply Forall_map. simpl.
    eapply Permutation_Forall; [symmetry; exact Hp|exact Hd]. }
  destruct (as_views_dataviews Hdv) as (Eas & Hk).
  assert (Hnd : NoDup (dict_keys d)).
  { assert (Hni : NoDup (map fst items)).
    { eapply Permutation_NoDup; [symmetry; apply Permutation_map; exact Hp|].
      exact Hn. }
    rewrite Ed. unfold dict_keys. rewrite map_map. simpl.
    clear - Hni. induction items as [|[k v] items IH]; simpl; [constructor|].
    inversion Hni as [|? ? Hk Hni']; subst. constructor; [|apply IH; exact Hni'].
    rewrite in_map_iff. intros ([k' v'] & E & Hin). simpl in E.
    apply string_app_inj in E. subst k'. apply Hk.
    apply (in_map fst) in Hin. exact Hin. }
  assert (Eupd : dict_update [] d = d).
  { rewrite dict_update_fresh; [reflexivity|exact Hnd|]. intros k _ []. }
  assert (Estart : prepend G self prefix w
                   = (unpack_kwargs d ;;; Dataset G d) w).
  { unfold prepend. unfold bind at 1. rewrite Ei. cbv zeta.
    rewrite prepend_fold, <- Ed, Eupd. reflexivity. }
  destruct (takes_self d) eqn:Eself.
  { eexists. rewrite Estart. unfold bind, unpack_kwargs. rewrite Eself.
    reflexivity. }
  assert (Estart' : prepend G self prefix w = Dataset G d w).
  { rewrite Estart. unfold bind, unpack_kwargs. rewrite Eself. reflexivity. }
  rewrite Estart'. clear Estart'.
  set (ds := length (heap w)). set (w1 := snd (new_dataset w)).
  assert (Hself : ds < length (heap w1)).
  { unfold w1, ds; simpl. rewrite length_app. simpl. lia. }
  assert (Enew : object ds w1 = empty_dataset) by apply new_dataset_object.
  assert (Hold : forall r, r < ds -> object r w1 = object r w).
  { intros r Hr. unfold object, w1; simpl. apply app_nth1. exact Hr. }
  assert (Erun : Dataset G d w = (Ok ds, snd (append G ds d w1))).
  { unfold Dataset. unfold bind at 1.
    change (new_dataset w) with (Ok ds, w1). cbv iota.
    unfold bind at 1. rewrite append_as_views; [|exact Hself|exact Hk].
    reflexivity. }
  exists (snd (append G ds d w1)).
  split; [exact Erun|].
  rewrite append_as_views; [|exact Hself|exact Hk]. simpl snd.
  clear Ed Erun Estart Eself. destruct d as [|kv d'].
  - split; [exact Enew|]. split; [exact Hold|reflexivity].
  - rewrite object_with_views by exact Hself. rewrite Enew. simpl h5.
    simpl views. rewrite Eas, Eupd.
    split; [reflexivity|]. split; [|reflexivity].
    intros r Hr. rewrite object_with_views_other by (unfold ds in *; lia).
    apply Hold, Hr.
Qed.

(** *** Ties in the iteration *)

Lemma insert_by_filter {A} (key : A -> Z) p x l :
  filter (fun y => (key y =? p)%Z) (insert_by key x l)
  = if (key x =? p)%Z then x :: filter (fun y => (key y =? p)%Z) l
    else filter (fun y => (key y =? p)%Z) l.
Proof.
  induction l as [|y l IH]; simpl; [reflexivity|].
  destruct (key x <=? key y)%Z eqn:Ele; simpl.
  - destruct (key x =? p)%Z; reflexivity.
  - rewrite IH. destruct (key x =? p)%Z eqn:Ex; [|reflexivity].
    destruct (key y =? p)%Z eqn:Ey; [|reflexivity]. lia.
Qed.

Lemma sorted_by_filter {A} (key : A -> Z) p l :
  filter (fun y => (key y =? p)%Z) (sorted_by key l)
  = filter (fun y => (key y =? p)%Z) l.
Proof.
  induction l as [|x l IH]; simpl; [reflexivity|].
  rewrite insert_by_filter, IH. reflexivity.
Qed.

Lemma priorities_Ok (items : list (string * value)) ks :
  priorities items = Ok ks ->
  map snd ks = items /\ Forall (fun k => fst k = item_priority (snd k)) ks.
Proof.
  revert ks; induction items as [|[name v] items IH]; simpl; intros ks E.
  - injection E as <-. split; [reflexivity|constructor].
  - destruct v as [dv| | | | |]; try discriminate E.
    destruct (priorities items) as [ks'|] eqn:E'; [|discriminate E].
    simpl in E. injection E as <-. destruct (IH ks' eq_refl) as [Em Ek].
    simpl. rewrite Em. split; [reflexivity|constructor; auto].
Qed.

Lemma filter_map_snd {A B} (f : B -> bool) (l : list (A * B)) :
  filter f (map snd l) = map snd (filter (fun k => f (snd k)) l).
Proof.
  induction l as [|x l IH]; simpl; [reflexivity|].
  destruct (f (snd x)); simpl; now rewrite IH.
Qed.

(** X24. The iteration is stable: the views of one priority come in the
    order in which the dictionary holds them. *)
Theorem Dataset_iter_stable self items p (w w' : World) :
  Dataset_iter self w = (Ok items, w') ->
  filter (fun kv => (item_priority kv =? p)%Z) items
  = filter (fun kv => (item_priority kv =? p)%Z) (views (object self w)).
Proof.
  intros E. unfold Dataset_iter in E.
  apply bind_Ok in E. destruct E as (o & w1 & Eo & E).
  unfold get_object in Eo. injection Eo as <- <-.
  apply bind_Ok in E. destruct E as (ks & w1 & Ek & E).
  apply lift_Ok in Ek. destruct Ek as [Ek ->].
  unfold ret in E. injection E as <- _.
  destruct (priorities_Ok _ Ek) as [Em Hk].
  assert (Hswap : forall l : list (Z * (string * value)),
             Forall (fun k => fst k = item_priority (snd k)) l ->
             filter (fun k => (item_priority (snd k) =? p)%Z) l
             = filter (fun k => (fst k =? p)%Z) l).
  { intros l Hl. apply filter_ext_in. intros k Hin.
    rewrite Forall_forall in Hl. rewrite (Hl k Hin). reflexivity. }
  rewrite <- Em. rewrite !filter_map_snd. f_equal.
  rewrite !Hswap; [apply sorted_by_filter|exact Hk|].
  eapply Permutation_Forall; [symmetry; apply sorted_by_perm|exact Hk].
Qed.

End MethodFacts.

(** ** The sample instance at work, again *)

(** Witness of X1: with a text dataset for the polygons of the right
    hemisphere, both hemispheres are read, and the [TypeError] of the
    addition of the merge gets out. *)
Lemma get_surf_never_leaks_witness :
  "both" = "both" /\ true = true
  /\ exists lpts lpolys rpts rpolys,
       get_surf (Some text_package) "S1" "wm" "lh" false false
       = Ok (One lpts lpolys)
       /\ get_surf (Some text_package) "S1" "wm" "rh" false false
          = Ok (One rpts rpolys)
       /\ (arr_vstack lpts rpts
           = Raise (TypeError "unsupported operand type(s) for +")
           \/ arr_len lpts
              = Raise (TypeError "unsupported operand type(s) for +")
           \/ (exists n,
                 arr_len lpts = Ok n
                 /\ arr_add_int rpolys n
                    = Raise (TypeError "unsupported operand type(s) for +"))
           \/ (exists n raised,
                 arr_len lpts = Ok n /\ arr_add_int rpolys n = Ok raised
                 /\ arr_vstack lpolys raised
                    = Raise (TypeError "unsupported operand type(s) for +"))).
Proof.
  apply (get_surf_never_leaks (Some text_package) "S1" "wm" "both" true false);
    reflexivity.
Defined.

(** The same package, evaluated: each hemisphere is returned with the array
    of strings, unmerged as well, and the merge raises. *)
Lemma get_surf_text_dataset :
  get_surf (Some text_package) "S1" "wm" "rh" false false
  = Ok (One wm_pts (Obj ["a"; "b"]))
  /\ get_surf (Some text_package) "S1" "wm" "both" false false
     = Ok (Both (Num wm_pts, Num one_triangle) (Num wm_pts, Obj ["a"; "b"]))
  /\ get_surf (Some text_package) "S1" "wm" "both" true false
     = Raise (TypeError "unsupported operand type(s) for +").
Proof. repeat split. Qed.

(** Witness of X2: S2 is no subject of the sample package. *)
Lemma get_surf_subject_not_found_witness :
  get_surf (Some sample_package) "S2" "fiducial" "both" true true
  = Raise (IOError "Subject not found in package").
Proof.
  apply get_surf_subject_not_found. exists "S2". reflexivity.
Defined.

(** Witness of X3: the left hemisphere of S1. *)
Lemma get_surf_flags_ignored_witness :
  get_surf (Some sample_package) "S1" "wm" "lh" true true
  = get_surf (Some sample_package) "S1" "wm" "lh" false true
  /\ get_surf (Some sample_package) "S1" "fiducial" "lh" true true
     = get_surf (Some sample_package) "S1" "fiducial" "lh" false false.
Proof.
  apply get_surf_flags_ignored. reflexivity.
Defined.

(** Witness of X5: the white matter of the left hemisphere of S1, whose
    x-coordinates are 0, 2 and 0. *)
Lemma get_surf_nudge_witness :
  exists pts : ndarray Z,
    get_surf (Some sample_package) "S1" "wm" "lh" false true
    = Ok (One pts one_triangle)
    /\ ncols pts = ncols wm_pts
    /\ map (@tl Z) (rows pts) = map (@tl Z) (rows wm_pts)
    /\ heads (rows pts)
       = map (fun h => nsub h (fold_left
                                 (if String.eqb "lh" "lh" then nmax else nmin)
                                 [2; 0]%Z 0%Z))
           [0; 2; 0]%Z.
Proof.
  apply get_surf_nudge;
    [reflexivity|reflexivity|reflexivity|discriminate|reflexivity].
Defined.

(** The same call, evaluated: the largest x-coordinate, 2, is taken off. *)
Lemma nudge_evaluated :
  get_surf (Some sample_package) "S1" "wm" "lh" false true
  = Ok (One (mkArr 3 [[-2; 0; 0]; [0; 0; 0]; [-2; 2; 0]]%Z) one_triangle).
Proof. reflexivity. Qed.

(** Witness of X6: one transform packed into a new file. *)
Lemma pack_xfms_then_get_xfm_witness :
  get_xfm
    (Some (Group (archive_of "out.hdf"
                    (snd (_pack_xfms "out.hdf" [("S1", "T1")] empty_world)))))
    "S1" "T1"
  = Ok (mkTransform (mkArr 2 [[1; 0]; [0; 1]]%Z) [2; 2]).
Proof.
  eapply pack_xfms_then_get_xfm
    with (pairs := [("S1", "T1")]) (w := empty_world).
  - vm_compute. reflexivity.
  - left; reflexivity.
  - reflexivity.
Defined.

(** Witness of X7: one mask packed into a new file. *)
Lemma pack_masks_then_get_mask_witness :
  get_mask
    (Some (Group (archive_of "out.hdf"
                    (snd (_pack_masks "out.hdf" [("S1", "T1", "thick")]
                            empty_world)))))
    "S1" "T1" "thick"
  = Ok (Dset (mkArr 2 [[1; 0]; [0; 1]]%Z) []).
Proof.
  eapply pack_masks_then_get_mask
    with (triples := [("S1", "T1", "thick")]) (w := empty_world).
  - vm_compute. reflexivity.
  - left; reflexivity.
  - reflexivity.
Defined.

(** Witness of X8: two subjects packed into a new file. *)
Lemma pack_subjs_then_get_overlay_witness :
  get_overlay
    (Some (Group (archive_of "out.hdf"
                    (snd (_pack_subjs "out.hdf" ["S1"; "S2"] empty_world)))))
    "S2" "rois"
  = Ok (WText "<svg/>").
Proof.
  eapply pack_subjs_then_get_overlay
    with (subjects := ["S1"; "S2"]) (w := empty_world).
  - vm_compute. reflexivity.
  - right; left; reflexivity.
  - reflexivity.
  - reflexivity.
Defined.

(** Witness of X9: the pial surface of the right hemisphere of S1. *)
Lemma pack_subjs_then_get_surf_witness :
  get_surf
    (Some (Group (archive_of "out.hdf"
                    (snd (_pack_subjs "out.hdf" ["S1"; "S2"] empty_world)))))
    "S1" "pia" "rh" false false
  = Ok (One unit_square one_triangle).
Proof.
  eapply pack_subjs_then_get_surf
    with (subjects := ["S1"; "S2"]) (w := empty_world).
  - vm_compute. reflexivity.
  - left; reflexivity.
  - reflexivity.
  - right; left; reflexivity.
  - right; reflexivity.
  - reflexivity.
  - reflexivity.
Defined.

(** Witness of X11: sulci are no overlay type. *)
Lemma get_overlay_unknown_type_witness :
  (subject_missing (Some sample_package) "S1" ->
   get_overlay (Some sample_package) "S1" "sulci"
   = Raise (IOError "Overlay not found in package"))
  /\ (forall root g,
        Some sample_package = Some root ->
        h5_path ["subjects"; "S1"] root = Ok g ->
        get_overlay (Some sample_package) "S1" "sulci"
        = Raise (TypeError "Unknown overlay type")).
Proof.
  apply get_overlay_unknown_type. reflexivity.
Defined.

(** Witness of X12: a Dataset that is bound to no file. *)
Lemma accessors_subject_not_found_witness :
  get_xfm (@None (node Z)) "S1" "T1"
  = Raise (IOError "Transform not found in package")
  /\ get_mask (@None (node Z)) "S1" "T1" "thick"
     = Raise (IOError "Mask not found in package")
  /\ get_overlay (@None (node Z)) "S1" "rois"
     = Raise (IOError "Overlay not found in package").
Proof.
  apply accessors_subject_not_found. exact I.
Defined.

(** Witness of X13: the Dataset of two views was never saved. *)
Lemma save_new_dataset_needs_filename_witness :
  save module_globals 0 None true two_view_world
  = (Raise (ValueError "Must provide filename for new datasets"),
     two_view_world).
Proof.
  apply save_new_dataset_needs_filename. reflexivity.
Defined.

(** Witness of X16: a file that does not exist yet. *)
Lemma from_file_no_views_group_witness :
  from_file module_globals "new.hdf" empty_world
  = (Raise (KeyError "views"), opened "new.hdf" empty_world)
  /\ auxfile (opened "new.hdf" empty_world) = Some 0.
Proof.
  apply from_file_no_views_group.
  - intros n [].
  - reflexivity.
Defined.

(** Witness of X17: the file with a node that cannot be read as a view. *)
Lemma from_file_best_effort_witness :
  exists w',
    from_file module_globals "mixed.hdf" mixed_world
    = (Ok (length (heap mixed_world)), w')
    /\ h5 (object (length (heap mixed_world)) w') = Some "mixed.hdf"
    /\ views (object (length (heap mixed_world)) w')
       = dict_update []
           (loaded_views (length (heap mixed_world))
              (archive_of "mixed.hdf" mixed_world)
              [("good", sample_encode view_hi); ("bad", Text ["junk"])])
    /\ (forall n, In n (dict_keys
                          (views (object (length (heap mixed_world)) w')))
                  <-> exists nd dv,
                        In (n, nd) [("good", sample_encode view_hi);
                                    ("bad", Text ["junk"])]
                        /\ from_hdf (Some (length (heap mixed_world)))
                             (archive_of "mixed.hdf" mixed_world) n nd = Ok dv)
    /\ trace w'
       = trace mixed_world
         ++ load_events (length (heap mixed_world))
              (archive_of "mixed.hdf" mixed_world)
              [("good", sample_encode view_hi); ("bad", Text ["junk"])]
    /\ auxfile w' = None.
Proof.
  apply from_file_best_effort.
  - intros n [<-|[]]. reflexivity.
  - reflexivity.
Defined.

(** Witness of X20: a view, then the integer 42. *)
Lemma append_keeps_earlier_pairs_witness :
  append module_globals 0
    ([("a", PDataview view_lo)] ++ ("b", POther "int" "42") :: [])
    two_view_world
  = (Raise (TypeError "Unknown input type"),
     snd (append module_globals 0 [("a", PDataview view_lo)] two_view_world)).
Proof.
  eapply append_keeps_earlier_pairs; reflexivity.
Defined.

(** Witness of X23: the Dataset of two views with the prefix run1_, and a
    Dataset whose view elf gets the prefix s. *)
Lemma prepend_views_witness :
  (exists items,
     Dataset_iter 0 two_view_world = (Ok items, two_view_world)
     /\ if takes_self
             (map (fun kv => (("run1_" ++ fst kv)%string, snd kv)) items)
        then exists msg,
               prepend module_globals 0 "run1_" two_view_world
               = (Raise (TypeError msg), two_view_world)
        else exists w',
               prepend module_globals 0 "run1_" two_view_world
               = (Ok (length (heap two_view_world)), w')
               /\ object (length (heap two_view_world)) w'
                  = mkDataset None
                      (map (fun kv => (("run1_" ++ fst kv)%string, snd kv))
                         items)
               /\ (forall r, r < length (heap two_view_world) ->
                              object r w' = object r two_view_world)
               /\ files w' = files two_view_world)
  /\ (exists items,
        Dataset_iter 0 elf_world = (Ok items, elf_world)
        /\ if takes_self
                (map (fun kv => (("s" ++ fst kv)%string, snd kv)) items)
           then exists msg,
                  prepend module_globals 0 "s" elf_world
                  = (Raise (TypeError msg), elf_world)
           else exists w',
                  prepend module_globals 0 "s" elf_world
                  = (Ok (length (heap elf_world)), w')
                  /\ object (length (heap elf_world)) w'
                     = mkDataset None
                         (map (fun kv => (("s" ++ fst kv)%string, snd kv))
                            items)
                  /\ (forall r, r < length (heap elf_world) ->
                                 object r w' = object r elf_world)
                  /\ files w' = files elf_world).
Proof.
  split; apply prepend_views;
    solve [repeat constructor; simpl; intuition discriminate].
Defined.

(** The two cases of the witness, evaluated: the first call returns the
    Dataset of the prefixed names, the second one is refused. *)
Lemma prepend_evaluated :
  fst (prepend module_globals 0 "run1_" two_view_world) = Ok 1
  /\ views (object 1 (snd (prepend module_globals 0 "run1_" two_view_world)))
     = [("run1_lo", PDataview view_lo); ("run1_hi", PDataview view_hi)]
  /\ exists msg,
       prepend module_globals 0 "s" elf_world
       = (Raise (TypeError msg), elf_world).
Proof. split; [reflexivity|]. split; [reflexivity|]. eexists. reflexivity. Qed.

(** Witness of X22: a view appended under a name that was taken. *)
Lemma append_then_getitem_witness :
  exists w1,
    append module_globals 0 [("hi", PDataview view_lo)] two_view_world
    = (Ok 0, w1)
    /\ Dataset_getitem 0 "hi" w1 = (Ok (PDataview view_lo), w1)
    /\ (forall k, k <> "hi" ->
          fst (Dataset_getitem 0 k w1)
          = fst (Dataset_getitem 0 k two_view_world))
    /\ Dataset_len 0 w1 = (Ok 2, w1).
Proof.
  apply append_then_getitem with (v := PDataview view_lo) (dv := view_lo).
  - simpl. lia.
  - reflexivity.
Defined.

(** Witness of X24: five views of two priorities. *)
Lemma Dataset_iter_stable_witness :
  filter (fun kv => (item_priority kv =? 2)%Z)
    [("v2", PDataview view_lo); ("v4", PDataview view_lo);
     ("v1", PDataview view_hi); ("v3", PDataview view_hi);
     ("v5", PDataview view_hi)]
  = filter (fun kv => (item_priority kv =? 2)%Z)
      (views (object 0 five_view_world)).
Proof.
  apply Dataset_iter_stable with (w' := five_view_world).
  reflexivity.
Defined.

Section BareCollaborators.
#[local] Existing Instance bare_collaborators.

(** Witness of X14: views that stand for no raw data object. *)
Lemma save_pack_nothing_to_pack_witness :
  save module_globals 0 (Some "out.hdf") true two_view_world
  = save module_globals 0 (Some "out.hdf") false two_view_world.
Proof.
  apply save_pack_nothing_to_pack. reflexivity.
Defined.

(** Witness of X21: a tuple that the view normalizer hands back as a
    string. *)
Lemma append_unknown_normalized_witness :
  append module_globals 0 [("t", PTuple [PStr "S1"])] two_view_world
  = (Raise (ValueError ("Unknown input " ++ "t" ++ "="
                        ++ py_repr (PTuple [PStr "S1"]))), two_view_world).
Proof.
  apply append_unknown_normalized with (v := PStr "raw").
  - reflexivity.
  - discriminate.
  - discriminate.
Defined.
End BareCollaborators.
